(** * atldld.sync: reference-space to image transforms and dataset download

    A shallow embedding of [src/atldld/sync.py]:
    - [get_parallel_transform] (the specification's [compute_transform]) and
    - [download_parallel_dataset] (the specification's [sync_dataset]).

    Numbers.  numpy's float64 values are idealised as exact rationals
    ([Qc], canonical fractions, so that equality is Leibniz equality):
    the rounding of array values and their overflow are outside this
    model, and no statement relies on regrouping sums or products.  The
    one scalar that the function computes itself, [2 ** downsample_img],
    is modelled with the limits of float64: see [py_pow2] and
    [reshape_div].  Python integers are [Z], and [//] is [Z.div] (both
    round towards minus infinity).

    Objects.  numpy arrays are mutable heap objects.  The heap is a list of
    arrays, a location is an index into it, allocation appends.  Every
    array that a numpy call creates is allocated; the in-place statements
    ([a[i] *= s], [a[idx] = v]) overwrite the cell of their target.  Views
    ([a[i]], [a[:2]], [reshape]) are read where they are taken.

    Control.  A statement either returns or raises; an exception ends the
    function and keeps the heap as it is at that point.  Arrays are
    two-dimensional, which is all the function builds. *)

From Stdlib Require Import String ZArith QArith Qround Qcanon Bool Lia List.
From Stdlib Require Import Permutation Sorted.
Import ListNotations.

Close Scope Qc_scope.
Close Scope Q_scope.
Open Scope nat_scope.

Set Implicit Arguments.

(* ================================================================== *)
(** ** Numbers *)

Definition Z2Qc (z : Z) : Qc := Q2Qc (inject_Z z).

(** [2 ** e] on a Python integer [e]: the integer [2^e] for [0 <= e]; for
    a negative [e] a float, which is the exact power of two down to the
    smallest positive float64, [2 ** -1074], and [0.0] below it. *)
Definition py_pow2 (e : Z) : Qc :=
  if (0 <=? e)%Z then Z2Qc (2 ^ e)
  else if (-1074 <=? e)%Z then (1 / Z2Qc (2 ^ (- e)))%Qc
  else 0%Qc.

(** The first power of two that is no float64 any more. *)
Definition float64_limit : Qc := Z2Qc (2 ^ 1024).

(** A divisor that numpy can turn into a float64 other than [0.0]. *)
Definition float64_divisor (q : Qc) : Prop :=
  Qle_bool float64_limit q = false /\ Qeq_bool q 0 = false.

(** A number within the range of the finite float64 values. *)
Definition float64_range (x : Qc) : Prop :=
  (- float64_limit < x)%Qc /\ (x < float64_limit)%Qc.

(* ================================================================== *)
(** ** Two-dimensional numpy arrays *)

Record ndarray : Type := mk_array {
  shape : nat * nat;
  rows : list (list Qc)
}.

Definition nrows (a : ndarray) : nat := fst (shape a).
Definition ncols (a : ndarray) : nat := snd (shape a).

(** The data of an array agrees with its shape. *)
Definition wf_array (a : ndarray) : Prop :=
  length (rows a) = nrows a /\
  Forall (fun r => length r = ncols a) (rows a).

(** [np.ones((r, c))] as a value. *)
Definition ones (r c : nat) : ndarray :=
  mk_array (r, c) (repeat (repeat 1%Qc c) r).

(** The columns of an array, left to right. *)
Definition columns (a : ndarray) : list (list Qc) :=
  map (fun j => map (fun r => nth j r 0%Qc) (rows a)) (seq 0 (ncols a)).

(** Inner product, summed from the left. *)
Fixpoint dot (u v : list Qc) : Qc :=
  match u, v with
  | x :: u', y :: v' => (x * y + dot u' v')%Qc
  | _, _ => 0%Qc
  end.

(** [a @ b] as a value, for arrays whose inner dimensions agree.  Sums
    and products are exact; the rounding of float64 is not modelled. *)
Definition matmul_value (a b : ndarray) : ndarray :=
  mk_array (nrows a, ncols b)
           (map (fun u => map (dot u) (columns b)) (rows a)).

(** [a[:k]]: the first [k] rows. *)
Definition take_rows (k : nat) (a : ndarray) : ndarray :=
  mk_array (Nat.min k (nrows a), ncols a) (firstn k (rows a)).

(** numpy broadcasting of a two-dimensional value to shape [(r, c)]:
    each axis has the requested length or length one. *)
Definition broadcast_row (c : nat) (cv : nat) (row : list Qc)
  : option (list Qc) :=
  if (cv =? c)%nat then Some row
  else if (cv =? 1)%nat then Some (repeat (hd 0%Qc row) c)
  else None.

Fixpoint all_some {A : Type} (l : list (option A)) : option (list A) :=
  match l with
  | [] => Some []
  | Some x :: l' =>
      match all_some l' with Some xs => Some (x :: xs) | None => None end
  | None :: _ => None
  end.

Definition broadcast_to (r c : nat) (v : ndarray) : option (list (list Qc)) :=
  match all_some (map (broadcast_row c (ncols v)) (rows v)) with
  | Some rs =>
      if (nrows v =? r)%nat then Some rs
      else if (nrows v =? 1)%nat then Some (repeat (hd [] rs) r)
      else None
  | None => None
  end.

(** Replace element [i] of a list.  Nothing happens out of range: the
    statements below check the range first, as numpy does. *)
Fixpoint set_nth {A : Type} (i : nat) (x : A) (l : list A) : list A :=
  match l, i with
  | [], _ => []
  | _ :: l', O => x :: l'
  | y :: l', S i' => y :: set_nth i' x l'
  end.

(** [t[idx] = vs] on the rows of [t], one index after the other. *)
Fixpoint set_rows (idx : list nat) (vs : list (list Qc))
  (t : list (list Qc)) : list (list Qc) :=
  match idx, vs with
  | i :: idx', v :: vs' => set_rows idx' vs' (set_nth i v t)
  | _, _ => t
  end.

(** [np.indices((h, w))]: two grids of shape [(h, w)], the first holding
    the row index of each cell and the second its column index. *)
Definition np_indices (h w : nat) : list (list (list Z)) :=
  [ map (fun i => repeat (Z.of_nat i) w) (seq 0 h);
    map (fun _ => map Z.of_nat (seq 0 w)) (seq 0 h) ].

(** [x.reshape((h, w))] on a flat buffer: consecutive runs of [w]. *)
Fixpoint reshape (h w : nat) (l : list Qc) : list (list Qc) :=
  match h with
  | O => []
  | S h' => firstn w l :: reshape h' w (skipn w l)
  end.

(* ================================================================== *)
(** ** The heap monad *)

Inductive PyError : Type :=
| IndexError
| ZeroDivisionError
| ValueError
| OverflowError
| TypeError.

Inductive outcome (A : Type) : Type :=
| Ok (a : A)
| Raise (e : PyError).

Arguments Ok {A} a.
Arguments Raise {A} e.

Definition loc := nat.
Definition heap := list ndarray.

(** A statement transforms the heap and returns or raises; the heap that
    an exception leaves behind is kept. *)
Definition M (A : Type) : Type := heap -> heap * outcome A.

Definition ret {A : Type} (a : A) : M A := fun h => (h, Ok a).

Definition raise {A : Type} (e : PyError) : M A := fun h => (h, Raise e).

Definition bind {A B : Type} (m : M A) (f : A -> M B) : M B :=
  fun h =>
    match m h with
    | (h', Ok a) => f a h'
    | (h', Raise e) => (h', Raise e)
    end.

Declare Scope py_scope.
Delimit Scope py_scope with py.
Notation "x <- m ;; k" := (bind m (fun x => k))
  (at level 100, m at next level, right associativity) : py_scope.
Notation "m ;; k" := (bind m (fun _ => k))
  (at level 100, right associativity) : py_scope.
Open Scope py_scope.

Definition empty_array : ndarray := mk_array (0, 0)%nat [].

Definition alloc (a : ndarray) : M loc :=
  fun h => (h ++ [a], Ok (length h)).

(** Python has no dangling references: a location that is read was
    allocated before.  [empty_array] is the default of [nth] only. *)
Definition load (l : loc) : M ndarray :=
  fun h => (h, Ok (nth l h empty_array)).

Definition store (l : loc) (a : ndarray) : M unit :=
  fun h => (set_nth l a h, Ok tt).

Fixpoint mapM {A B : Type} (f : A -> M B) (l : list A) : M (list B) :=
  match l with
  | [] => ret []
  | x :: l' => y <- f x ;; ys <- mapM f l' ;; ret (y :: ys)
  end.

(* ================================================================== *)
(** ** Python and numpy statements *)

(** [l[i]] on a Python sequence. *)
Definition getitem {A : Type} (l : list A) (i : nat) : M A :=
  match nth_error l i with
  | Some x => ret x
  | None => raise IndexError
  end.

(** [a // b] on Python integers. *)
Definition floordiv (a b : Z) : M Z :=
  if (b =? 0)%Z then raise ZeroDivisionError else ret (a / b)%Z.

(** [enumerate(l)] *)
Definition enumerate {A : Type} (l : list A) : list (nat * A) :=
  combine (seq 0 (length l)) l.

(** [np.prod(l)] on a list of Python integers. *)
Definition np_prod (l : list Z) : Z := fold_left Z.mul l 1%Z.

(** [np.ones((r, c))]: a fresh array; numpy refuses a negative dimension. *)
Definition np_ones (r : nat) (c : Z) : M loc :=
  if (c <? 0)%Z then raise ValueError else alloc (ones r (Z.to_nat c)).

(** [a[i] *= s]: scales row [i] of the array at [a] in place. *)
Definition imul_row (a : loc) (i : nat) (s : Qc) : M unit :=
  arr <- load a ;;
  row <- getitem (rows arr) i ;;
  store a (mk_array (shape arr)
             (set_nth i (map (fun x => (x * s)%Qc) row) (rows arr))).

(** [np.indices(grid_shape).reshape(2, -1) * k]: a fresh [(2, h*w)] array.
    numpy refuses negative dimensions.  The function reaches this
    statement with a [grid_shape] of two entries only (line 79 has found
    the axis, see [axes_variable_length]); for another length the value
    could not be assigned to two rows. *)
Definition indices_flat_scaled (grid_shape : list Z) (k : Z) : M loc :=
  match grid_shape with
  | [h; w] =>
      if ((h <? 0) || (w <? 0))%Z then raise ValueError
      else
        let idx := np_indices (Z.to_nat h) (Z.to_nat w) in
        alloc (mk_array (2, Z.to_nat h * Z.to_nat w)%nat
                 (map (fun g => map (fun i => Z2Qc (i * k)) (concat g)) idx))
  | _ => raise ValueError
  end.

(** [t[idx] = v] for a list of row indices and a two-dimensional value:
    the indices are checked, the value is broadcast to
    [(len(idx), t.shape[1])], and the rows of [t] are overwritten. *)
Definition setitem_rows (t : loc) (idx : list nat) (v : ndarray) : M unit :=
  arr <- load t ;;
  if forallb (fun i => (i <? nrows arr)%nat) idx then
    match broadcast_to (length idx) (ncols arr) v with
    | Some vs => store t (mk_array (shape arr) (set_rows idx vs (rows arr)))
    | None => raise ValueError
    end
  else raise IndexError.

(** [a @ b] on two-dimensional arrays: a fresh array. *)
Definition matmul (a b : loc) : M loc :=
  x <- load a ;;
  y <- load b ;;
  if (ncols x =? nrows y)%nat then alloc (matmul_value x y)
  else raise ValueError.

(** [a[i]] on an array: row [i] (a view, read here). *)
Definition getrow (a : loc) (i : nat) : M (list Qc) :=
  arr <- load a ;;
  getitem (rows arr) i.

(** [row.reshape(grid_shape) / q] for the Python number [q]: a fresh
    array of shape [grid_shape].  The left operand is evaluated first, so
    that a failing reshape comes first.  numpy then makes a float64 of
    [q]; from [2 ** 1024] on Python refuses that with OverflowError (the
    conversion is taken to come before the element-wise division, also
    for an array without elements).  A divisor [0.0] raises nothing:
    numpy fills the result with inf and nan.  These are no values of
    this model, so the array keeps the shape of the grid and its rows
    hold no cell; unless the grid is empty it is not well formed, and no
    statement below reads a value from it. *)
Definition reshape_div (row : list Qc) (grid_shape : list Z) (q : Qc)
  : M loc :=
  match grid_shape with
  | [h; w] =>
      if ((h <? 0) || (w <? 0))%Z then raise ValueError
      else if (Z.to_nat h * Z.to_nat w =? length row)%nat then
        if Qle_bool float64_limit q then raise OverflowError
        else if Qeq_bool q 0 then
          alloc (mk_array (Z.to_nat h, Z.to_nat w)
                   (repeat [] (Z.to_nat h)))
        else
          alloc (mk_array (Z.to_nat h, Z.to_nat w)
                   (map (map (fun x => (x / q)%Qc))
                        (reshape (Z.to_nat h) (Z.to_nat w) row)))
      else raise ValueError
  | _ => raise ValueError
  end.

(* ================================================================== *)
(** ** The displacement field *)

(** Modelled from the spec: [atldld.base.DisplacementField] is not part of
    the sources.  The spec describes it as a pair of two-dimensional grids
    [(tx, ty)] that is constructible from two coordinate grids and is
    immutable afterwards; [from_transform] reads the two arrays and builds
    that pair. *)
Record DisplacementField : Type := mk_field {
  df_tx : ndarray;
  df_ty : ndarray
}.

Definition from_transform (tx ty : loc) : M DisplacementField :=
  x <- load tx ;;
  y <- load ty ;;
  ret (mk_field x y).

(* ================================================================== *)
(** ** get_parallel_transform *)

Definition refspace : list (string * Z) :=
  [ ("coronal"%string, 13200%Z);
    ("transverse"%string, 8000%Z);
    ("sagittal"%string, 11400%Z) ].

Definition get_parallel_transform
  (slice_coordinate : Qc) (affine_2d affine_3d : loc) (axis : string)
  (downsample_ref downsample_img : Z) : M DisplacementField :=
  axis_fixed <-
    getitem (map fst (filter (fun ia => String.eqb (fst (snd ia)) axis)
                             (enumerate refspace))) 0 ;;
  let axes_variable :=
    map fst (filter (fun ia => negb (String.eqb (fst (snd ia)) axis))
                    (enumerate refspace)) in
  grid_shape <-
    mapM (fun i => a <- getitem refspace i ;; floordiv (snd a) downsample_ref)
         axes_variable ;;
  let n_pixels := np_prod grid_shape in
  coords_ref <- np_ones 4 n_pixels ;;
  imul_row coords_ref axis_fixed slice_coordinate ;;
  scaled <- indices_flat_scaled grid_shape downsample_ref ;;
  v <- load scaled ;;
  setitem_rows coords_ref axes_variable v ;;
  coords_temp <- np_ones 3 n_pixels ;;
  prod_3d <- matmul affine_3d coords_ref ;;
  p <- load prod_3d ;;
  setitem_rows coords_temp [0; 1]%nat (take_rows 2 p) ;;
  coords_img <- matmul affine_2d coords_temp ;;
  r0 <- getrow coords_img 0 ;;
  tx <- reshape_div r0 grid_shape (py_pow2 downsample_img) ;;
  r1 <- getrow coords_img 1 ;;
  ty <- reshape_div r1 grid_shape (py_pow2 downsample_img) ;;
  from_transform tx ty.

(* ================================================================== *)
(** ** A float [downsample_ref] *)

(** [a // b] for a Python integer [a] and a float [b]: a float. *)
Definition floordiv_float (a : Z) (b : Qc) : M Qc :=
  if Qeq_bool b 0 then raise ZeroDivisionError
  else ret (Z2Qc (Qfloor (inject_Z a / b))).

(** [np.prod(l)] on a list of floats. *)
Definition np_prod_float (l : list Qc) : Qc := fold_left Qcmult l 1%Qc.

(** [np.ones((r, c))] for a float [c]: numpy takes no float as a
    dimension, whatever its value. *)
Definition np_ones_float (r : nat) (c : Qc) : M loc := raise TypeError.

(** Lines 79 to 85 of [get_parallel_transform] when [downsample_ref] is a
    (finite) float: the floor divisions of line 82 give floats, so that
    [n_pixels] is a float, which [np.ones] refuses.  The value is the
    location of [coords_ref]; no later line is reached without it. *)
Definition get_parallel_transform_float_ref
  (slice_coordinate : Qc) (affine_2d affine_3d : loc) (axis : string)
  (downsample_ref : Qc) (downsample_img : Z) : M loc :=
  axis_fixed <-
    getitem (map fst (filter (fun ia => String.eqb (fst (snd ia)) axis)
                             (enumerate refspace))) 0 ;;
  let axes_variable :=
    map fst (filter (fun ia => negb (String.eqb (fst (snd ia)) axis))
                    (enumerate refspace)) in
  grid_shape <-
    mapM (fun i => a <- getitem refspace i ;;
                   floordiv_float (snd a) downsample_ref)
         axes_variable ;;
  let n_pixels := np_prod_float grid_shape in
  np_ones_float 4 n_pixels.

(* ================================================================== *)
(** ** The algorithm in the words of the specification *)

(** Native extent of each axis (Reference Space Descriptor). *)
Definition native_extent (axis : string) : Z :=
  if String.eqb axis "coronal" then 13200
  else if String.eqb axis "transverse" then 8000
  else 11400.

(** Position of an axis in the descriptor, which is also its row in the
    reference coordinates. *)
Definition axis_row (axis : string) : nat :=
  if String.eqb axis "coronal" then 0
  else if String.eqb axis "transverse" then 1
  else 2.

(** The two variable axes, in their listed relative order. *)
Definition variable_axes (axis : string) : string * string :=
  if String.eqb axis "coronal" then ("transverse", "sagittal")%string
  else if String.eqb axis "transverse" then ("coronal", "sagittal")%string
  else ("coronal", "transverse")%string.

Definition known_axis (axis : string) : Prop :=
  axis = "coronal"%string \/ axis = "transverse"%string \/
  axis = "sagittal"%string.

(** [floor(extent / downsample_ref)] for the two variable axes. *)
Definition spec_grid_shape (axis : string) (downsample_ref : Z) : nat * nat :=
  (Z.to_nat (native_extent (fst (variable_axes axis)) / downsample_ref),
   Z.to_nat (native_extent (snd (variable_axes axis)) / downsample_ref)).

(** Every integer grid index, in row-major order. *)
Definition grid_points (h w : nat) : list (nat * nat) :=
  list_prod (seq 0 h) (seq 0 w).

Section SpecWords.

Variables (slice_coordinate : Qc) (affine_2d affine_3d : ndarray).
Variables (axis : string) (downsample_ref downsample_img : Z).

Let h := fst (spec_grid_shape axis downsample_ref).
Let w := snd (spec_grid_shape axis downsample_ref).

(** Row [k] (0, 1 or 2) of the reference coordinates. *)
Definition spec_ref_row (k : nat) : list Qc :=
  if k =? axis_row axis then repeat slice_coordinate (h * w)
  else if k =? axis_row (fst (variable_axes axis)) then
    map (fun p => Z2Qc (Z.of_nat (fst p) * downsample_ref)) (grid_points h w)
  else
    map (fun p => Z2Qc (Z.of_nat (snd p) * downsample_ref)) (grid_points h w).

(** The homogeneous 4 x N reference coordinates. *)
Definition spec_coords_ref : ndarray :=
  mk_array (4, h * w)
    (map spec_ref_row [0; 1; 2] ++ [repeat 1%Qc (h * w)]).

(** Section-space coordinates: the first two rows of
    [affine_3d @ coords_ref], and a row of ones. *)
Definition spec_coords_section : ndarray :=
  mk_array (3, h * w)
    (firstn 2 (rows (matmul_value affine_3d spec_coords_ref))
     ++ [repeat 1%Qc (h * w)]).

Definition spec_coords_img : ndarray :=
  matmul_value affine_2d spec_coords_section.

Definition spec_grid (k : nat) : ndarray :=
  mk_array (h, w)
    (map (map (fun x => (x / py_pow2 downsample_img)%Qc))
         (reshape h w (nth k (rows spec_coords_img) []))).

Definition spec_transform : DisplacementField :=
  mk_field (spec_grid 0) (spec_grid 1).

End SpecWords.

(* ================================================================== *)
(** ** The arrays a run leaves on the heap *)

(** The value of [np.indices(grid_shape).reshape(2, -1) * k]. *)
Definition scaled_indices (h w : nat) (k : Z) : ndarray :=
  mk_array (2, h * w)
    (map (fun g => map (fun i => Z2Qc (i * k)) (concat g)) (np_indices h w)).

(** [coords_ref] after lines 85 to 87. *)
Definition run_coords_ref (f : nat) (vs : list nat) (s : Qc) (d : Z)
  (h w : nat) : ndarray :=
  mk_array (4, h * w)
    (set_rows vs (rows (scaled_indices h w d))
       (set_nth f (map (fun x => (x * s)%Qc) (repeat 1%Qc (h * w)))
          (rows (ones 4 (h * w))))).

Definition run_coords_temp (p : ndarray) (n : nat) : ndarray :=
  mk_array (3, n) (set_rows [0; 1] (rows (take_rows 2 p)) (rows (ones 3 n))).

Definition run_grid (img : ndarray) (k : nat) (h w : nat) (q : Qc) : ndarray :=
  mk_array (h, w)
    (map (map (fun x => (x / q)%Qc)) (reshape h w (nth k (rows img) []))).

(* ================================================================== *)
(** ** Points of the grid *)

(** The values of an array, as fractions. *)
Definition values (a : ndarray) : list (list Q) := map (map this) (rows a).

(** The cell [(i, j)] of a grid. *)
Definition grid_at (g : ndarray) (i j : nat) : Qc :=
  nth j (nth i (rows g) []) 0%Qc.

(** The reference-space point of grid index [p = (i, j)], in homogeneous
    coordinates: the column of [coords_ref] that belongs to [p]. *)
Definition ref_point (axis : string) (s : Qc) (d : Z) (p : nat * nat)
  : list Qc :=
  map (fun k =>
         if k =? axis_row axis then s
         else if k =? axis_row (fst (variable_axes axis)) then
           Z2Qc (Z.of_nat (fst p) * d)
         else Z2Qc (Z.of_nat (snd p) * d)) [0; 1; 2] ++ [1%Qc].

(** Its section-space point, and coordinate [k] of its pixel. *)
Definition section_point (A3 : ndarray) (axis : string) (s : Qc) (d : Z)
  (p : nat * nat) : list Qc :=
  map (fun u => dot u (ref_point axis s d p)) (firstn 2 (rows A3)) ++ [1%Qc].

Definition pixel (A2 A3 : ndarray) (axis : string) (s : Qc) (d : Z)
  (k : nat) (p : nat * nat) : Qc :=
  dot (nth k (rows A2) []) (section_point A3 axis s d p).

(** Unit row vector of length four. *)
Definition unit4 (k : nat) : list Qc :=
  map (fun j => if j =? k then 1%Qc else 0%Qc) [0; 1; 2; 3].

(** The canonical embedding for a slicing axis: section coordinate 0 is
    the first variable axis, section coordinate 1 the second one, and the
    fixed axis is dropped. *)
Definition canonical_embedding (axis : string) : ndarray :=
  mk_array (3, 4)
    [ unit4 (axis_row (fst (variable_axes axis)));
      unit4 (axis_row (snd (variable_axes axis)));
      [0; 0; 0; 0]%Qc ].

(** The identity-like 2 x 3 matrix. *)
Definition identity_2d : ndarray :=
  mk_array (2, 3) [[1; 0; 0]; [0; 1; 0]]%Qc.

(* ================================================================== *)
(** ** Generators *)

(** A generator body transforms the heap, yields values in order, and
    returns or raises.  Running it to its end is what a consumer observes
    that drains the generator. *)
Definition G (Y A : Type) : Type := heap -> heap * list Y * outcome A.

Definition gret {Y A : Type} (a : A) : G Y A := fun h => (h, [], Ok a).

Definition gbind {Y A B : Type} (g : G Y A) (k : A -> G Y B) : G Y B :=
  fun h =>
    match g h with
    | (h1, ys, Ok a) => let '(h2, ys', r) := k a h1 in (h2, ys ++ ys', r)
    | (h1, ys, Raise e) => (h1, ys, Raise e)
    end.

Definition lift {Y A : Type} (m : M A) : G Y A :=
  fun h => let '(h', r) := m h in (h', [], r).

Definition yield {Y : Type} (y : Y) : G Y unit := fun h => (h, [y], Ok tt).

Fixpoint for_each {Y X : Type} (l : list X) (body : X -> G Y unit)
  : G Y unit :=
  match l with
  | [] => gret tt
  | x :: l' => gbind (body x) (fun _ => for_each l' body)
  end.

Declare Scope gen_scope.
Delimit Scope gen_scope with gen.
Notation "x <- m ;; k" := (gbind m (fun x => k))
  (at level 100, m at next level, right associativity) : gen_scope.

Definition yields {Y A : Type} (run : heap * list Y * outcome A) : list Y :=
  snd (fst run).

Definition result {Y A : Type} (run : heap * list Y * outcome A) : outcome A :=
  snd run.

(** Consecutive passes of a loop.  [R x h y h'] says that the pass for
    [x], started on the heap [h], yields [y] and leaves the heap [h'];
    [passes R h xs ys h'] says that the passes for [xs], one after the
    other from [h], each started on the heap its predecessor left, yield
    [ys] and leave [h']. *)
Inductive passes {X Y : Type} (R : X -> heap -> Y -> heap -> Prop)
  : heap -> list X -> list Y -> heap -> Prop :=
| passes_done (h : heap) : passes R h [] [] h
| passes_next (h h1 h' : heap) (x : X) (y : Y) (xs : list X) (ys : list Y) :
    R x h y h1 -> passes R h1 xs ys h' -> passes R h (x :: xs) (y :: ys) h'.

(** [sorted(l, key=key)].  Python's sort is stable; the stable sorted
    arrangement of a list is unique, and insertion from the right
    computes it. *)
Fixpoint insert_by {A : Type} (key : A -> Z) (x : A) (l : list A) : list A :=
  match l with
  | [] => [x]
  | y :: l' =>
      if (key x <=? key y)%Z then x :: y :: l' else y :: insert_by key x l'
  end.

Definition sorted {A : Type} (key : A -> Z) (l : list A) : list A :=
  fold_right (insert_by key) [] l.

(** The order of the keys. *)
Definition key_le {A : Type} (key : A -> Z) (a b : A) : Prop :=
  (key a <= key b)%Z.

(* ================================================================== *)
(** ** download_parallel_dataset *)

Section Download.

(** Pixels of a downloaded image. *)
Variable Image : Type.

(** The collaborators of [atldld.utils].  Each may allocate arrays and
    may raise.  [get_2d_bulk] returns the items of its dictionary, in
    the dictionary's order: image id, then [(affine_2d, section_number)];
    section numbers are integers, so that [int] leaves them as they are. *)
Variable get_2d_bulk : Z -> bool -> M (list (Z * (loc * Z))).
Variable get_3d : Z -> bool -> bool -> M loc.
Variable get_axis : Z -> M string.
Variable xy_to_pir_API_single : Qc -> Qc -> Z -> M (Qc * Qc * Qc).
Variable get_image : Z -> bool -> Z -> M Image.

(** What the generator yields: a tuple of four or of five. *)
Inductive Yielded : Type :=
| Yield4 (image_id : Z) (slice_ref_coordinate : Qc) (img : Image)
         (df : DisplacementField)
| Yield5 (image_id : Z) (slice_ref_coordinate : Qc) (img : Image)
         (df : DisplacementField) (img_expression : Image).

Definition tuple_len (y : Yielded) : nat :=
  match y with
  | Yield4 _ _ _ _ => 4
  | Yield5 _ _ _ _ _ => 5
  end.

Definition tuple_0 (y : Yielded) : Z :=
  match y with
  | Yield4 image_id _ _ _ | Yield5 image_id _ _ _ _ => image_id
  end.

Definition tuple_1 (y : Yielded) : Qc :=
  match y with
  | Yield4 _ c _ _ | Yield5 _ c _ _ _ => c
  end.

Definition tuple_3 (y : Yielded) : DisplacementField :=
  match y with
  | Yield4 _ _ _ df | Yield5 _ _ _ df _ => df
  end.

Definition download_parallel_dataset (dataset_id downsample_ref : Z)
  (detection_xy : Qc * Qc) (include_expression : bool)
  (downsample_img : Z) : G Yielded unit :=
  (metadata_2d_dict <- lift (get_2d_bulk dataset_id true) ;;
   let metadata_2d :=
     sorted (fun x : Z * loc * Z => (- snd x)%Z)
            (map (fun kv => (fst kv, fst (snd kv), snd (snd kv)))
                 metadata_2d_dict) in
   affine_3d <- lift (get_3d dataset_id true false) ;;
   axis <- lift (get_axis dataset_id) ;;
   for_each metadata_2d (fun m =>
     let image_id := fst (fst m) in
     let affine_2d := snd (fst m) in
     pir <- lift (xy_to_pir_API_single (fst detection_xy)
                    (snd detection_xy) image_id) ;;
     let p := fst (fst pir) in
     let r := snd pir in
     let slice_ref_coordinate :=
       if String.eqb axis "coronal" then p else r in
     df <- lift (get_parallel_transform slice_ref_coordinate affine_2d
                   affine_3d axis downsample_ref downsample_img) ;;
     img <- lift (get_image image_id false downsample_img) ;;
     if negb include_expression then
       yield (Yield4 image_id slice_ref_coordinate img df)
     else
       img_expression <- lift (get_image image_id true downsample_img) ;;
       yield (Yield5 image_id slice_ref_coordinate img df img_expression)))%gen.

(** What the loop yields for the metadata record [m] of an image: its
    id, a tuple of the length that [include_expression] selects, and as
    second element the [p] or the [r] that [xy_to_pir_API_single]
    resolved for this image. *)
Definition yielded_for (axis : string) (detection_xy : Qc * Qc)
  (include_expression : bool) (m : Z * loc * Z) (y : Yielded) : Prop :=
  tuple_0 y = fst (fst m) /\
  tuple_len y = (if include_expression then 5 else 4) /\
  exists h h' pir,
    xy_to_pir_API_single (fst detection_xy) (snd detection_xy)
      (fst (fst m)) h = (h', Ok pir) /\
    tuple_1 y =
      (if String.eqb axis "coronal" then fst (fst pir) else snd pir).

(** One pass through the body of the loop, lines 187 to 209, for the
    metadata record [m], in which every call returns: started on the heap
    [h], the coordinate query, the transform, the image download and (if
    requested) the expression download run one after the other, each on
    the heap its predecessor left; the pass yields [y] and leaves [h']. *)
Definition iteration_yields (axis : string) (affine_3d : loc)
  (downsample_ref : Z) (detection_xy : Qc * Qc) (include_expression : bool)
  (downsample_img : Z) (m : Z * loc * Z) (h : heap) (y : Yielded)
  (h' : heap) : Prop :=
  exists ha pir hb df hc img,
    xy_to_pir_API_single (fst detection_xy) (snd detection_xy)
      (fst (fst m)) h = (ha, Ok pir) /\
    let slice_ref_coordinate :=
      if String.eqb axis "coronal" then fst (fst pir) else snd pir in
    get_parallel_transform slice_ref_coordinate (snd (fst m)) affine_3d
      axis downsample_ref downsample_img ha = (hb, Ok df) /\
    get_image (fst (fst m)) false downsample_img hb = (hc, Ok img) /\
    if include_expression then
      exists img_expression,
        get_image (fst (fst m)) true downsample_img hc
          = (h', Ok img_expression) /\
        y = Yield5 (fst (fst m)) slice_ref_coordinate img df img_expression
    else
      h' = hc /\ y = Yield4 (fst (fst m)) slice_ref_coordinate img df.

End Download.

Arguments Yield4 {Image} _ _ _ _.
Arguments Yield5 {Image} _ _ _ _ _.

(* ================================================================== *)
(** ** A small dataset *)

Module Demo.

(** Three images with section numbers 10, 30 and 20, in this order in
    the dictionary; the image ids are 101, 102 and 103. *)
Definition get_2d_bulk (dataset_id : Z) (ref2inp : bool)
  : M (list (Z * (loc * Z))) :=
  a <- alloc identity_2d ;;
  b <- alloc (mk_array (2, 3) [[Z2Qc 2; 0%Qc; 1%Qc]; [0%Qc; Z2Qc 2; 1%Qc]]) ;;
  c <- alloc identity_2d ;;
  ret [ (101%Z, (a, 10%Z)); (102%Z, (b, 30%Z)); (103%Z, (c, 20%Z)) ].

Definition get_3d (dataset_id : Z) (ref2inp return_meta : bool) : M loc :=
  alloc (canonical_embedding "coronal").

Definition get_axis (dataset_id : Z) : M string := ret "coronal"%string.

Definition xy_to_pir_API_single (x y : Qc) (image_id : Z)
  : M (Qc * Qc * Qc) :=
  ret (Z2Qc image_id, 0%Qc, Z2Qc 7).

(** An image is represented by its id and its expression flag. *)
Definition get_image (image_id : Z) (expression : bool) (downsample : Z)
  : M (Z * bool) :=
  ret (image_id, expression).

Definition download (include_expression : bool)
  : G (Yielded (Z * bool)) unit :=
  download_parallel_dataset get_2d_bulk get_3d get_axis
    xy_to_pir_API_single get_image 1 4000 (0%Qc, 0%Qc)
    include_expression 0.

End Demo.

(* ================================================================== *)
(** ** Frames *)

(** [preserves n m Q]: run on a heap with at least [n] cells, [m] leaves
    the first [n] cells as they are, whether it returns or raises, and a
    value it returns satisfies [Q]. *)
Definition preserves (n : nat) {A : Type} (m : M A) (Q : A -> Prop) : Prop :=
  forall h : heap,
    n <= length h ->
    firstn n (fst (m h)) = firstn n h /\
    n <= length (fst (m h)) /\
    match snd (m h) with
    | Ok a => Q a
    | Raise _ => True
    end.

(* ================================================================== *)
(** ** Matrices of other row counts *)

(** What line 90 writes into rows 0 and 1 of [coords_temp] from the
    product [p = affine_3d @ coords_ref]: the first two rows of [p], or
    its only row twice (the value [p[:2]] of one row is broadcast). *)
Definition section_rows (p : ndarray) : list (list Qc) :=
  match rows p with
  | u :: v :: _ => [u; v]
  | [u] => [u; u]
  | [] => []
  end.

(** [coords_temp] after line 90. *)
Definition run_coords_section (p : ndarray) (n : nat) : ndarray :=
  mk_array (3, n) (section_rows p ++ [repeat 1%Qc n]).

(** The one-row matrix [a] with its row written twice. *)
Definition row_twice (a : ndarray) : ndarray :=
  mk_array (2, ncols a) (rows a ++ rows a).

(* ================================================================== *)
(** ** Frames of generators *)

(** [gen_preserves n g]: run on a heap with at least [n] cells, the
    generator body [g] leaves the first [n] cells as they are, whether it
    ends normally or with an exception. *)
Definition gen_preserves (n : nat) {Y A : Type} (g : G Y A) : Prop :=
  forall h : heap,
    n <= length h ->
    firstn n (fst (fst (g h))) = firstn n h /\
    n <= length (fst (fst (g h))).

(* ================================================================== *)
(** * Lemmas *)

(* ================================================================== *)
(** ** The descriptor *)

Lemma axes_variable_length (axis : string) :
  known_axis axis ->
  length (map fst (filter (fun ia => negb (String.eqb (fst (snd ia)) axis))
                          (enumerate refspace))) = 2.
Proof. intros [-> | [-> | ->]]; reflexivity. Qed.

Lemma spec_grid_shape_table (axis : string) (d : Z) :
  known_axis axis ->
  spec_grid_shape axis d =
    if String.eqb axis "coronal" then
      (Z.to_nat (8000 / d), Z.to_nat (11400 / d))
    else if String.eqb axis "transverse" then
      (Z.to_nat (13200 / d), Z.to_nat (11400 / d))
    else
      (Z.to_nat (13200 / d), Z.to_nat (8000 / d)).
Proof. intros [-> | [-> | ->]]; reflexivity. Qed.

(* ================================================================== *)
(** ** Lists and heaps *)

Lemma set_nth_length {A : Type} (i : nat) (x : A) (l : list A) :
  length (set_nth i x l) = length l.
Proof.
  revert i; induction l as [|y l IH]; intros [|i]; simpl; auto.
Qed.

Lemma set_nth_app_new {A : Type} (l ext : list A) (k : nat) (x : A) :
  set_nth (length l + k) x (l ++ ext) = l ++ set_nth k x ext.
Proof.
  induction l as [|y l IH]; simpl; [reflexivity|].
  now rewrite IH.
Qed.

Lemma set_nth_app_new0 {A : Type} (l ext : list A) (x : A) :
  set_nth (length l) x (l ++ ext) = l ++ set_nth 0 x ext.
Proof. rewrite <- (Nat.add_0_r (length l)). apply set_nth_app_new. Qed.

Lemma nth_app_new {A : Type} (l ext : list A) (k : nat) (d : A) :
  nth (length l + k) (l ++ ext) d = nth k ext d.
Proof. apply app_nth2_plus. Qed.

Lemma nth_app_new0 {A : Type} (l ext : list A) (d : A) :
  nth (length l) (l ++ ext) d = nth 0 ext d.
Proof. rewrite <- (Nat.add_0_r (length l)). apply nth_app_new. Qed.

Lemma nth_app_old {A : Type} (l ext : list A) (i : nat) (x d : A) :
  nth_error l i = Some x -> nth i (l ++ ext) d = x.
Proof.
  intros H.
  assert (Hlt : i < length l) by (apply nth_error_Some; congruence).
  rewrite app_nth1 by exact Hlt.
  now apply nth_error_nth.
Qed.

Lemma firstn_set_nth_ge {A : Type} (n i : nat) (x : A) (l : list A) :
  n <= i -> firstn n (set_nth i x l) = firstn n l.
Proof.
  revert n i; induction l as [|y l IH]; intros [|n] [|i] H; simpl;
    try reflexivity; try lia.
  f_equal; apply IH; lia.
Qed.

Lemma all_some_map_Some {A B : Type} (f : A -> option B) (g : A -> B)
  (l : list A) :
  (forall x, f x = Some (g x)) -> all_some (map f l) = Some (map g l).
Proof.
  intros H; induction l as [|x l IH]; simpl; [reflexivity|].
  now rewrite H, IH.
Qed.

Lemma broadcast_to_same (r c : nat) (v : ndarray) :
  nrows v = r -> ncols v = c -> broadcast_to r c v = Some (rows v).
Proof.
  intros Hr Hc; unfold broadcast_to.
  rewrite (all_some_map_Some _ (fun x => x)).
  - rewrite map_id, Hr, Nat.eqb_refl; reflexivity.
  - intros x; unfold broadcast_row; rewrite Hc, Nat.eqb_refl; reflexivity.
Qed.

(* ================================================================== *)
(** ** Powers of two *)


Lemma Z2Qc_nonzero (z : Z) : z <> 0%Z -> Z2Qc z <> 0%Qc.
Proof.
  intros Hz H. apply Hz.
  assert (Hq : (inject_Z z == 0)%Q).
  { apply (f_equal this) in H. cbn [this Z2Qc Q2Qc] in H.
    rewrite <- (Qred_correct (inject_Z z)), H. reflexivity. }
  unfold Qeq in Hq. cbn in Hq. lia.
Qed.

Lemma Z2Qc_le (a b : Z) : (Z2Qc a <= Z2Qc b)%Q <-> (a <= b)%Z.
Proof.
  unfold Z2Qc. cbn [this Q2Qc]. rewrite !Qred_correct.
  rewrite <- Zle_Qle. reflexivity.
Qed.

Lemma pow2_nonzero (k : Z) : (0 <= k)%Z -> Z2Qc (2 ^ k) <> 0%Qc.
Proof. intros Hk. apply Z2Qc_nonzero. apply Z.pow_nonzero; lia. Qed.

Lemma py_pow2_nonzero (e : Z) : (-1074 <= e)%Z -> py_pow2 e <> 0%Qc.
Proof.
  intros He. unfold py_pow2. destruct (Z.leb_spec 0 e).
  - now apply pow2_nonzero.
  - destruct (Z.leb_spec (-1074) e); [|lia].
    assert (H2 : Z2Qc (2 ^ (- e)) <> 0%Qc) by (apply pow2_nonzero; lia).
    intros Hq.
    assert (H10 : 1%Qc = 0%Qc).
    { transitivity (1 / Z2Qc (2 ^ (- e)) * Z2Qc (2 ^ (- e)))%Qc.
      - field; exact H2.
      - rewrite Hq; ring. }
    apply (f_equal this) in H10. discriminate.
Qed.

(** Up to [2 ** 1023] the divisor is below the limit, also when it is a
    float. *)
Lemma py_pow2_below_limit (e : Z) :
  (e <= 1023)%Z -> Qle_bool float64_limit (py_pow2 e) = false.
Proof.
  intros He.
  destruct (Qle_bool float64_limit (py_pow2 e)) eqn:E; [|reflexivity].
  exfalso. apply Qle_bool_iff in E. revert E.
  unfold py_pow2, float64_limit.
  destruct (Z.leb_spec 0 e).
  - rewrite Z2Qc_le. apply Z.lt_nge. apply Z.pow_lt_mono_r; lia.
  - assert (H1 : (Z2Qc (2 ^ 1024) <= 1)%Q -> False)
      by (rewrite (Z2Qc_le (2 ^ 1024) 1); apply Z.lt_nge;
          apply (Z.pow_gt_1 2 1024); lia).
    destruct (Z.leb_spec (-1074) e).
    + intros E. apply H1. eapply Qle_trans; [exact E|].
      cbn [this Qcdiv Qcmult Qcinv Q2Qc]. rewrite !Qred_correct.
      rewrite Qmult_1_l.
      assert (H2 : (1 <= Z2Qc (2 ^ (- e)))%Q)
        by (apply (Z2Qc_le 1); apply Z.lt_le_incl, (Z.pow_gt_1 2); lia).
      assert (H3 : (0 < Z2Qc (2 ^ (- e)))%Q)
        by (eapply Qlt_le_trans; [|exact H2]; reflexivity).
      setoid_replace (/ Z2Qc (2 ^ (- e)))%Q with (1 / Z2Qc (2 ^ (- e)))%Q
        by (unfold Qdiv; now rewrite Qmult_1_l).
      apply Qle_shift_div_r; [exact H3|]. now rewrite Qmult_1_l.
    + intros E. apply H1. eapply Qle_trans; [exact E|]. discriminate.
Qed.

Lemma py_pow2_divisor (e : Z) :
  (-1074 <= e <= 1023)%Z -> float64_divisor (py_pow2 e).
Proof.
  intros [Hlo Hhi]. split; [now apply py_pow2_below_limit|].
  destruct (Qeq_bool (py_pow2 e) 0) eqn:E; [|reflexivity].
  exfalso. apply Qeq_bool_iff in E.
  apply (py_pow2_nonzero Hlo). now apply Qc_is_canon.
Qed.

(** From [2 ** 1024] on the divisor is no float64. *)
Lemma py_pow2_overflow (e : Z) :
  (1024 <= e)%Z -> Qle_bool float64_limit (py_pow2 e) = true.
Proof.
  intros He. apply Qle_bool_iff. unfold py_pow2, float64_limit.
  destruct (Z.leb_spec 0 e); [|lia].
  apply Z2Qc_le. apply Z.pow_le_mono_r; lia.
Qed.



Lemma div_py_pow2_neg (x : Qc) (e : Z) :
  (-1074 <= e < 0)%Z -> (x / py_pow2 e = x * Z2Qc (2 ^ (- e)))%Qc.
Proof.
  intros He. unfold py_pow2. destruct (Z.leb_spec 0 e); [lia|].
  destruct (Z.leb_spec (-1074) e); [|lia].
  field. split; [apply pow2_nonzero; lia |].
  intros H1. apply (f_equal this) in H1. discriminate.
Qed.

(* ================================================================== *)
(** ** Running single statements *)

Lemma bind_run {A B : Type} (m : M A) (k : A -> M B) (h h' : heap) (a : A) :
  m h = (h', Ok a) -> bind m k h = k a h'.
Proof. intros H; unfold bind; now rewrite H. Qed.

Lemma bind_raise {A B : Type} (m : M A) (k : A -> M B) (h h' : heap)
  (e : PyError) :
  m h = (h', Raise e) -> bind m k h = (h', Raise e).
Proof. intros H; unfold bind; now rewrite H. Qed.

Lemma floordiv_run (a b : Z) (h : heap) :
  b <> 0%Z -> floordiv a b h = (h, Ok (a / b)%Z).
Proof.
  intros Hb; unfold floordiv.
  destruct (Z.eqb_spec b 0); [contradiction | reflexivity].
Qed.

Lemma mapM_floordiv (d : Z) (l : list nat) (h : heap) :
  d <> 0%Z -> Forall (fun i => i < length refspace) l ->
  mapM (fun i => a <- getitem refspace i ;; floordiv (snd a) d) l h =
    (h, Ok (map (fun i => (snd (nth i refspace (""%string, 0%Z)) / d)%Z) l)).
Proof.
  intros Hd Hl; induction Hl as [|i l Hi Hl IH]; [reflexivity|].
  cbn [mapM map].
  destruct (nth_error refspace i) as [a|] eqn:Ha;
    [| apply nth_error_None in Ha; lia].
  erewrite bind_run.
  2:{ erewrite bind_run by (unfold getitem; rewrite Ha; reflexivity).
      now apply floordiv_run. }
  erewrite bind_run by exact IH.
  unfold ret. now rewrite (nth_error_nth _ _ _ Ha).
Qed.

Lemma np_prod_pair (a b : nat) :
  np_prod [Z.of_nat a; Z.of_nat b] = Z.of_nat (a * b).
Proof. unfold np_prod; cbn [fold_left]. lia. Qed.

Lemma np_ones_run (r c : nat) (h : heap) :
  np_ones r (Z.of_nat c) h = (h ++ [ones r c], Ok (length h)).
Proof.
  unfold np_ones.
  destruct (Z.ltb_spec (Z.of_nat c) 0); [lia|].
  now rewrite Nat2Z.id.
Qed.

Lemma load_run (l : loc) (h : heap) (arr : ndarray) :
  nth l h empty_array = arr -> load l h = (h, Ok arr).
Proof. intros <-; reflexivity. Qed.

Lemma imul_row_run (a : loc) (i : nat) (s : Qc) (h : heap) (arr : ndarray)
  (row : list Qc) :
  nth a h empty_array = arr ->
  nth_error (rows arr) i = Some row ->
  imul_row a i s h =
    (set_nth a (mk_array (shape arr)
                  (set_nth i (map (fun x => (x * s)%Qc) row) (rows arr))) h,
     Ok tt).
Proof.
  intros Ha Hrow; unfold imul_row, bind, load, getitem.
  rewrite Ha, Hrow; reflexivity.
Qed.

Lemma indices_flat_scaled_run (h w : nat) (k : Z) (hp : heap) :
  indices_flat_scaled [Z.of_nat h; Z.of_nat w] k hp =
    (hp ++ [scaled_indices h w k], Ok (length hp)).
Proof.
  unfold indices_flat_scaled.
  destruct (Z.ltb_spec (Z.of_nat h) 0); [lia|].
  destruct (Z.ltb_spec (Z.of_nat w) 0); [lia|].
  cbn [orb]. rewrite !Nat2Z.id. reflexivity.
Qed.

Lemma setitem_rows_run (t : loc) (idx : list nat) (v : ndarray) (h : heap)
  (arr : ndarray) :
  nth t h empty_array = arr ->
  forallb (fun i => i <? nrows arr) idx = true ->
  nrows v = length idx -> ncols v = ncols arr ->
  setitem_rows t idx v h =
    (set_nth t (mk_array (shape arr) (set_rows idx (rows v) (rows arr))) h,
     Ok tt).
Proof.
  intros Ha Hidx Hr Hc; unfold setitem_rows, bind, load.
  rewrite Ha, Hidx, (broadcast_to_same v Hr Hc); reflexivity.
Qed.

Lemma matmul_run (a b : loc) (h : heap) (x y : ndarray) :
  nth a h empty_array = x -> nth b h empty_array = y ->
  ncols x = nrows y ->
  matmul a b h = (h ++ [matmul_value x y], Ok (length h)).
Proof.
  intros Ha Hb Hxy; unfold matmul, bind, load.
  rewrite Ha, Hb, Hxy, Nat.eqb_refl; reflexivity.
Qed.

Lemma matmul_value_row_length (a b : ndarray) (k : nat) (row : list Qc) :
  nth_error (rows (matmul_value a b)) k = Some row -> length row = ncols b.
Proof.
  unfold matmul_value; cbn [rows]; intros H.
  apply nth_error_In, in_map_iff in H as (u & <- & _).
  unfold columns. now rewrite !length_map, length_seq.
Qed.

Lemma getrow_run (a : loc) (i : nat) (h : heap) (arr : ndarray)
  (row : list Qc) :
  nth a h empty_array = arr -> nth_error (rows arr) i = Some row ->
  getrow a i h = (h, Ok row).
Proof.
  intros Ha Hrow; unfold getrow, bind, load, getitem.
  rewrite Ha, Hrow; reflexivity.
Qed.

Lemma reshape_div_run (row : list Qc) (h w : nat) (q : Qc) (hp : heap) :
  length row = h * w -> float64_divisor q ->
  reshape_div row [Z.of_nat h; Z.of_nat w] q hp =
    (hp ++ [mk_array (h, w)
              (map (map (fun x => (x / q)%Qc)) (reshape h w row))],
     Ok (length hp)).
Proof.
  intros Hlen [Hq H0]; unfold reshape_div.
  destruct (Z.ltb_spec (Z.of_nat h) 0); [lia|].
  destruct (Z.ltb_spec (Z.of_nat w) 0); [lia|].
  cbn [orb]. rewrite !Nat2Z.id, Hlen, Nat.eqb_refl, Hq, H0. reflexivity.
Qed.


(** From the limit on the conversion of the divisor fails. *)
Lemma reshape_div_overflow (row : list Qc) (h w : nat) (q : Qc) (hp : heap) :
  length row = h * w -> Qle_bool float64_limit q = true ->
  reshape_div row [Z.of_nat h; Z.of_nat w] q hp = (hp, Raise OverflowError).
Proof.
  intros Hlen Hq; unfold reshape_div.
  destruct (Z.ltb_spec (Z.of_nat h) 0); [lia|].
  destruct (Z.ltb_spec (Z.of_nat w) 0); [lia|].
  cbn [orb]. rewrite !Nat2Z.id, Hlen, Nat.eqb_refl, Hq. reflexivity.
Qed.

Lemma wf_rows_2 (a : ndarray) (c : nat) :
  wf_array a -> shape a = (2, c) -> exists u v, rows a = [u; v].
Proof.
  intros [Hlen _] Hs; unfold nrows in Hlen; rewrite Hs in Hlen; cbn in Hlen.
  destruct (rows a) as [|u [|v [|? ?]]]; try discriminate; eauto.
Qed.

Lemma wf_rows_3 (a : ndarray) (c : nat) :
  wf_array a -> shape a = (3, c) -> exists u v t, rows a = [u; v; t].
Proof.
  intros [Hlen _] Hs; unfold nrows in Hlen; rewrite Hs in Hlen; cbn in Hlen.
  destruct (rows a) as [|u [|v [|t [|? ?]]]]; try discriminate; eauto.
Qed.

(** The heap of a run is kept in the form [h0 ++ created]. *)
Ltac heap_norm :=
  repeat rewrite <- app_assoc; repeat rewrite length_app;
  rewrite ?set_nth_app_new0, ?set_nth_app_new;
  cbn [app length set_nth].

Ltac heap_lookup :=
  first
    [ eapply nth_app_old; eassumption
    | rewrite nth_app_new0; reflexivity
    | rewrite nth_app_new; reflexivity ].

(* ================================================================== *)
(** ** Running the blocks of get_parallel_transform *)

(** Lines 85 to 87, for any continuation. *)
Lemma coords_ref_block_run {B : Type} (K : loc -> M B) (h0 : heap) (s : Qc)
  (f v1 v2 : nat) (d : Z) (h w : nat) :
  f < 4 -> v1 < 4 -> v2 < 4 ->
  (coords_ref <- np_ones 4 (Z.of_nat (h * w)) ;;
   imul_row coords_ref f s ;;
   scaled <- indices_flat_scaled [Z.of_nat h; Z.of_nat w] d ;;
   v <- load scaled ;;
   setitem_rows coords_ref [v1; v2] v ;;
   K coords_ref) h0 =
  K (length h0)
    (h0 ++ [run_coords_ref f [v1; v2] s d h w; scaled_indices h w d]).
Proof.
  intros Hf Hv1 Hv2.
  erewrite bind_run by apply np_ones_run.
  erewrite bind_run.
  2:{ eapply imul_row_run; [heap_lookup|].
      cbn [nth ones rows].
      do 4 (destruct f as [|f]; [reflexivity|]). lia. }
  heap_norm; cbn [nth].
  erewrite bind_run by apply indices_flat_scaled_run.
  heap_norm.
  erewrite bind_run by (eapply load_run; heap_lookup).
  cbn [nth].
  erewrite bind_run.
  2:{ eapply setitem_rows_run; [heap_lookup | | reflexivity | reflexivity].
      cbn [nth forallb nrows shape fst ones].
      destruct (Nat.ltb_spec v1 4); [|lia].
      destruct (Nat.ltb_spec v2 4); [|lia]. reflexivity. }
  heap_norm; cbn [nth shape].
  reflexivity.
Qed.

(** Lines 89 and 90, for any continuation. *)
Lemma section_block_run {B : Type} (K : loc -> M B) (h0 : heap) (l3 : loc)
  (A3 ref sc : ndarray) (n : nat) :
  nth_error h0 l3 = Some A3 -> shape A3 = (3, 4) -> shape ref = (4, n) ->
  (coords_temp <- np_ones 3 (Z.of_nat n) ;;
   prod_3d <- matmul l3 (length h0) ;;
   p <- load prod_3d ;;
   setitem_rows coords_temp [0; 1] (take_rows 2 p) ;;
   K coords_temp) (h0 ++ [ref; sc]) =
  K (length h0 + 2)
    (h0 ++ [ref; sc; run_coords_temp (matmul_value A3 ref) n;
            matmul_value A3 ref]).
Proof.
  intros H3 S3 Sref.
  erewrite bind_run by apply np_ones_run.
  heap_norm.
  erewrite bind_run.
  2:{ eapply matmul_run; [heap_lookup | heap_lookup |].
      unfold ncols, nrows. rewrite S3. cbn [nth]. now rewrite Sref. }
  heap_norm; cbn [nth].
  erewrite bind_run by (eapply load_run; heap_lookup).
  cbn [nth].
  erewrite bind_run.
  2:{ eapply setitem_rows_run; [heap_lookup | reflexivity | |].
      - unfold take_rows, nrows, matmul_value; cbn [shape fst].
        unfold nrows; rewrite S3; reflexivity.
      - unfold take_rows, matmul_value, ncols; cbn [shape snd nth ones].
        now rewrite Sref. }
  heap_norm; cbn [nth shape ones].
  reflexivity.
Qed.

Lemma section_block_bad_columns {B : Type} (K : loc -> loc -> M B) (h0 : heap)
  (l3 : loc) (A3 ref sc : ndarray) (n : nat) :
  nth_error h0 l3 = Some A3 -> ncols A3 <> 4 -> shape ref = (4, n) ->
  (coords_temp <- np_ones 3 (Z.of_nat n) ;;
   prod_3d <- matmul l3 (length h0) ;;
   K coords_temp prod_3d) (h0 ++ [ref; sc]) =
  (h0 ++ [ref; sc; ones 3 n], Raise ValueError).
Proof.
  intros H3 C3 Sref.
  erewrite bind_run by apply np_ones_run.
  heap_norm.
  erewrite bind_raise; [reflexivity|].
  unfold matmul, bind, load.
  replace (nth l3 _ empty_array) with A3
    by (symmetry; eapply nth_app_old; eassumption).
  rewrite nth_app_new0. cbn [nth].
  unfold nrows at 1. rewrite Sref. cbn [fst].
  destruct (Nat.eqb_spec (ncols A3) 4); [contradiction | reflexivity].
Qed.

(** Lines 92 to 101. *)
Lemma image_block_run (h0 : heap) (l2 : loc) (A2 ref sc temp prod : ndarray)
  (h w : nat) (q : Qc) :
  nth_error h0 l2 = Some A2 -> wf_array A2 -> shape A2 = (2, 3) ->
  shape temp = (3, h * w) -> float64_divisor q ->
  let img := matmul_value A2 temp in
  let gx := run_grid img 0 h w q in
  let gy := run_grid img 1 h w q in
  (coords_img <- matmul l2 (length h0 + 2) ;;
   r0 <- getrow coords_img 0 ;;
   tx <- reshape_div r0 [Z.of_nat h; Z.of_nat w] q ;;
   r1 <- getrow coords_img 1 ;;
   ty <- reshape_div r1 [Z.of_nat h; Z.of_nat w] q ;;
   from_transform tx ty) (h0 ++ [ref; sc; temp; prod]) =
  (h0 ++ [ref; sc; temp; prod; img; gx; gy], Ok (mk_field gx gy)).
Proof.
  intros H2 W2 S2 St Hq img gx gy.
  erewrite bind_run.
  2:{ eapply matmul_run; [heap_lookup | heap_lookup |].
      unfold ncols, nrows. rewrite S2. cbn [nth]. now rewrite St. }
  heap_norm; cbn [nth]. fold img.
  assert (Hcols : ncols temp = h * w) by (unfold ncols; now rewrite St).
  destruct (wf_rows_2 W2 S2) as (u & v & Hrows).
  assert (Hx : nth_error (rows img) 0 = Some (nth 0 (rows img) [])).
  { unfold img, matmul_value; cbn [rows]; rewrite Hrows; reflexivity. }
  assert (Hy : nth_error (rows img) 1 = Some (nth 1 (rows img) [])).
  { unfold img, matmul_value; cbn [rows]; rewrite Hrows; reflexivity. }
  erewrite bind_run by (eapply getrow_run; [heap_lookup | exact Hx]).
  erewrite bind_run
    by (apply reshape_div_run;
        [rewrite (matmul_value_row_length _ _ _ Hx); exact Hcols | exact Hq]).
  heap_norm. fold (run_grid img 0 h w q). fold gx.
  erewrite bind_run by (eapply getrow_run; [heap_lookup | exact Hy]).
  erewrite bind_run
    by (apply reshape_div_run;
        [rewrite (matmul_value_row_length _ _ _ Hy); exact Hcols | exact Hq]).
  heap_norm. fold (run_grid img 1 h w q). fold gy.
  unfold from_transform.
  erewrite bind_run by (eapply load_run; heap_lookup).
  erewrite bind_run by (eapply load_run; heap_lookup).
  reflexivity.
Qed.

Lemma image_block_bad_columns {B : Type} (K : loc -> M B) (h0 : heap)
  (l2 : loc) (A2 ref sc temp prod : ndarray) (n : nat) :
  nth_error h0 l2 = Some A2 -> ncols A2 <> 3 -> shape temp = (3, n) ->
  (coords_img <- matmul l2 (length h0 + 2) ;; K coords_img)
    (h0 ++ [ref; sc; temp; prod]) =
  (h0 ++ [ref; sc; temp; prod], Raise ValueError).
Proof.
  intros H2 C2 St.
  erewrite bind_raise; [reflexivity|].
  unfold matmul, bind, load.
  replace (nth l2 _ empty_array) with A2
    by (symmetry; eapply nth_app_old; eassumption).
  rewrite nth_app_new. cbn [nth].
  unfold nrows at 1. rewrite St. cbn [fst].
  destruct (Nat.eqb_spec (ncols A2) 3); [contradiction | reflexivity].
Qed.

(** Lines 79 to 82 for a known axis and a divisor other than zero. *)
Ltac enter_body d :=
  unfold get_parallel_transform;
  (erewrite bind_run by reflexivity);
  cbv zeta;
  lazymatch goal with
  | |- context [mapM _ ?l] =>
      let l' := eval vm_compute in l in change l with l'
  end;
  (erewrite bind_run by (apply mapM_floordiv; [lia | repeat constructor]));
  cbn [map nth refspace snd fst].

(** The same for [1 <= d]: both grid dimensions are natural numbers. *)
Ltac enter_body_pos d :=
  enter_body d;
  lazymatch goal with
  | |- context [np_prod [(?a / d)%Z; (?b / d)%Z]] =>
      rewrite <- (Z2Nat.id (a / d)), <- (Z2Nat.id (b / d))
        by (apply Z.div_pos; lia)
  end;
  rewrite np_prod_pair.

Lemma run_coords_ref_shape f vs s d h w :
  shape (run_coords_ref f vs s d h w) = (4, h * w).
Proof. reflexivity. Qed.

(* ================================================================== *)
(** ** The run agrees with the words of the specification *)

Lemma concat_row_index {B : Type} (g : nat -> B) (l1 l2 : list nat) :
  concat (map (fun i => repeat (g i) (length l2)) l1) =
  map (fun p => g (fst p)) (list_prod l1 l2).
Proof.
  induction l1 as [|x l1 IH]; [reflexivity|].
  cbn [map concat list_prod]. rewrite map_app, IH. f_equal.
  rewrite map_map; cbn [fst].
  clear; induction l2 as [|y l2 IH]; [reflexivity|].
  cbn [length repeat map]. now rewrite IH.
Qed.

Lemma concat_col_index {B : Type} (g : nat -> B) (l1 l2 : list nat) :
  concat (map (fun _ => map g l2) l1) =
  map (fun p => g (snd p)) (list_prod l1 l2).
Proof.
  induction l1 as [|x l1 IH]; [reflexivity|].
  cbn [map concat list_prod]. rewrite map_app, IH. f_equal.
  now rewrite map_map.
Qed.

Lemma grid_points_length (h w : nat) : length (grid_points h w) = h * w.
Proof. unfold grid_points. now rewrite length_prod, !length_seq. Qed.

Lemma scaled_indices_rows (h w : nat) (k : Z) :
  rows (scaled_indices h w k) =
  [ map (fun p => Z2Qc (Z.of_nat (fst p) * k)) (grid_points h w);
    map (fun p => Z2Qc (Z.of_nat (snd p) * k)) (grid_points h w) ].
Proof.
  unfold scaled_indices, np_indices, grid_points; cbn [rows map].
  f_equal; [|f_equal].
  - rewrite <- (map_map (fun p => Z.of_nat (fst p)) (fun i => Z2Qc (i * k))).
    f_equal. rewrite <- concat_row_index, length_seq. reflexivity.
  - rewrite <- (map_map (fun p => Z.of_nat (snd p)) (fun i => Z2Qc (i * k))).
    f_equal. rewrite <- concat_col_index. reflexivity.
Qed.

Lemma scaled_row_ones (s : Qc) (n : nat) :
  map (fun x => (x * s)%Qc) (repeat 1%Qc n) = repeat s n.
Proof. rewrite map_repeat. now rewrite Qcmult_1_l. Qed.

Lemma run_coords_ref_spec (s : Qc) (axis : string) (d : Z) :
  known_axis axis ->
  run_coords_ref (axis_row axis)
    [axis_row (fst (variable_axes axis)); axis_row (snd (variable_axes axis))]
    s d (fst (spec_grid_shape axis d)) (snd (spec_grid_shape axis d)) =
  spec_coords_ref s axis d.
Proof.
  intros [-> | [-> | ->]];
    unfold run_coords_ref, spec_coords_ref, spec_ref_row;
    rewrite scaled_indices_rows, scaled_row_ones;
    reflexivity.
Qed.

Lemma run_coords_temp_spec (s : Qc) (A3 : ndarray) (axis : string) (d : Z) :
  wf_array A3 -> shape A3 = (3, 4) ->
  run_coords_temp (matmul_value A3 (spec_coords_ref s axis d))
    (fst (spec_grid_shape axis d) * snd (spec_grid_shape axis d)) =
  spec_coords_section s A3 axis d.
Proof.
  intros W3 S3. destruct (wf_rows_3 W3 S3) as (u & v & t & Hrows).
  unfold run_coords_temp, spec_coords_section, take_rows, matmul_value.
  cbn [rows]. rewrite Hrows. reflexivity.
Qed.

(** The whole run on valid input. *)
Lemma get_parallel_transform_run (h0 : heap) (s : Qc) (l2 l3 : loc)
  (A2 A3 : ndarray) (axis : string) (d di : Z) :
  nth_error h0 l2 = Some A2 -> nth_error h0 l3 = Some A3 ->
  wf_array A2 -> shape A2 = (2, 3) -> wf_array A3 -> shape A3 = (3, 4) ->
  known_axis axis -> (1 <= d)%Z -> (-1074 <= di <= 1023)%Z ->
  get_parallel_transform s l2 l3 axis d di h0 =
    (h0 ++ [ spec_coords_ref s axis d;
             scaled_indices (fst (spec_grid_shape axis d))
                            (snd (spec_grid_shape axis d)) d;
             spec_coords_section s A3 axis d;
             matmul_value A3 (spec_coords_ref s axis d);
             spec_coords_img s A2 A3 axis d;
             spec_grid s A2 A3 axis d di 0;
             spec_grid s A2 A3 axis d di 1 ],
     Ok (spec_transform s A2 A3 axis d di)).
Proof.
  intros H2 H3 W2 S2 W3 S3 Hax Hd Hdi.
  pose proof (py_pow2_divisor Hdi) as Hq.
  unfold spec_transform, spec_grid, spec_coords_img.
  rewrite <- (run_coords_temp_spec s axis d W3 S3).
  rewrite <- (run_coords_ref_spec s d Hax).
  destruct Hax as [-> | [-> | ->]];
    enter_body_pos d;
    (rewrite coords_ref_block_run by (cbn; lia));
    (erewrite section_block_run
       by (eassumption || apply run_coords_ref_shape));
    (erewrite image_block_run by (eassumption || reflexivity));
    reflexivity.
Qed.

(* ================================================================== *)
(** ** Failures *)

Lemma transform_zero_downsample_ref (h0 : heap) (s : Qc) (l2 l3 : loc)
  (axis : string) (di : Z) :
  known_axis axis ->
  get_parallel_transform s l2 l3 axis 0 di h0 = (h0, Raise ZeroDivisionError).
Proof. intros [-> | [-> | ->]]; reflexivity. Qed.

Lemma div_negative (a d : Z) : (0 < a)%Z -> (d < 0)%Z -> (a / d < 0)%Z.
Proof.
  intros Ha Hd.
  pose proof (Z.div_mod a d ltac:(lia)) as E.
  pose proof (Z.mod_neg_bound a d Hd) as B.
  nia.
Qed.

Lemma transform_negative_downsample_ref (h0 : heap) (s : Qc) (l2 l3 : loc)
  (axis : string) (d di : Z) :
  known_axis axis -> (d < 0)%Z ->
  exists coords_ref,
    get_parallel_transform s l2 l3 axis d di h0 =
      (h0 ++ [coords_ref], Raise ValueError).
Proof.
  intros Hax Hd.
  destruct Hax as [-> | [-> | ->]];
    enter_body d;
    lazymatch goal with
    | |- context [np_prod [(?a / d)%Z; (?b / d)%Z]] =>
        pose proof (@div_negative a d ltac:(lia) Hd) as Ha;
        pose proof (@div_negative b d ltac:(lia) Hd) as Hb;
        set (qa := (a / d)%Z) in *; set (qb := (b / d)%Z) in *
    end;
    assert (Hn : (np_prod [qa; qb] <? 0)%Z = false)
      by (unfold np_prod; cbn [fold_left]; apply Z.ltb_ge; nia);
    (erewrite bind_run by (unfold np_ones; rewrite Hn; reflexivity));
    (erewrite bind_run
       by (eapply imul_row_run; [heap_lookup | reflexivity]));
    heap_norm;
    eexists;
    (erewrite bind_raise; [reflexivity|]);
    unfold indices_flat_scaled;
    (destruct (Z.ltb_spec qa 0); [|lia]);
    reflexivity.
Qed.

Lemma transform_bad_affine_3d (h0 : heap) (s : Qc) (l2 l3 : loc)
  (A3 : ndarray) (axis : string) (d di : Z) :
  nth_error h0 l3 = Some A3 -> ncols A3 <> 4 ->
  known_axis axis -> (1 <= d)%Z ->
  get_parallel_transform s l2 l3 axis d di h0 =
    (h0 ++ [ spec_coords_ref s axis d;
             scaled_indices (fst (spec_grid_shape axis d))
                            (snd (spec_grid_shape axis d)) d;
             ones 3 (fst (spec_grid_shape axis d)
                     * snd (spec_grid_shape axis d)) ],
     Raise ValueError).
Proof.
  intros H3 C3 Hax Hd.
  rewrite <- (run_coords_ref_spec s d Hax).
  destruct Hax as [-> | [-> | ->]];
    enter_body_pos d;
    (rewrite coords_ref_block_run by (cbn; lia));
    (erewrite section_block_bad_columns
       by (eassumption || apply run_coords_ref_shape));
    reflexivity.
Qed.

Lemma transform_bad_affine_2d (h0 : heap) (s : Qc) (l2 l3 : loc)
  (A2 A3 : ndarray) (axis : string) (d di : Z) :
  nth_error h0 l2 = Some A2 -> nth_error h0 l3 = Some A3 ->
  shape A3 = (3, 4) -> ncols A2 <> 3 ->
  known_axis axis -> (1 <= d)%Z ->
  get_parallel_transform s l2 l3 axis d di h0 =
    (h0 ++ [ spec_coords_ref s axis d;
             scaled_indices (fst (spec_grid_shape axis d))
                            (snd (spec_grid_shape axis d)) d;
             run_coords_temp (matmul_value A3 (spec_coords_ref s axis d))
               (fst (spec_grid_shape axis d) * snd (spec_grid_shape axis d));
             matmul_value A3 (spec_coords_ref s axis d) ],
     Raise ValueError).
Proof.
  intros H2 H3 S3 C2 Hax Hd.
  rewrite <- (run_coords_ref_spec s d Hax).
  destruct Hax as [-> | [-> | ->]];
    enter_body_pos d;
    (rewrite coords_ref_block_run by (cbn; lia));
    (erewrite section_block_run
       by (eassumption || apply run_coords_ref_shape));
    (erewrite image_block_bad_columns by (eassumption || reflexivity));
    reflexivity.
Qed.

(** A float [downsample_ref] on a known axis: [0.0] fails at the floor
    division of line 82, every other float at [np.ones], line 85. *)
Lemma transform_float_downsample_ref (h0 : heap) (s : Qc) (l2 l3 : loc)
  (axis : string) (d : Qc) (di : Z) :
  known_axis axis ->
  get_parallel_transform_float_ref s l2 l3 axis d di h0 =
    (h0, Raise (if Qeq_bool d 0 then ZeroDivisionError else TypeError)).
Proof.
  intros Hax. unfold get_parallel_transform_float_ref.
  destruct (Qeq_bool d 0) eqn:E;
    destruct Hax as [-> | [-> | ->]];
    (erewrite bind_run by reflexivity);
    cbv zeta;
    lazymatch goal with
    | |- context [mapM _ ?l] =>
        let l' := eval vm_compute in l in change l with l'
    end;
    cbn [mapM]; unfold floordiv_float, getitem; cbn [nth_error refspace];
    unfold bind, ret, raise, np_ones_float; rewrite E; reflexivity.
Qed.

(* ================================================================== *)
(** ** The displacement field, cell by cell *)

(** The reference point of a grid index, axis by axis. *)
Lemma ref_point_table (s : Qc) (d : Z) (p : nat * nat) :
  ref_point "coronal" s d p =
    [s; Z2Qc (Z.of_nat (fst p) * d); Z2Qc (Z.of_nat (snd p) * d); 1%Qc] /\
  ref_point "transverse" s d p =
    [Z2Qc (Z.of_nat (fst p) * d); s; Z2Qc (Z.of_nat (snd p) * d); 1%Qc] /\
  ref_point "sagittal" s d p =
    [Z2Qc (Z.of_nat (fst p) * d); Z2Qc (Z.of_nat (snd p) * d); s; 1%Qc].
Proof. repeat split. Qed.

Lemma columns_of_maps {A : Type} (fs : list (A -> Qc)) (l : list A) (r : nat) :
  columns (mk_array (r, length l) (map (fun f => map f l) fs)) =
  map (fun p => map (fun f => f p) fs) l.
Proof.
  unfold columns; cbn [ncols rows shape snd].
  induction l as [|x l IH]; [reflexivity|].
  cbn [length seq map]. f_equal.
  - rewrite map_map. reflexivity.
  - rewrite <- seq_shift, map_map, <- IH.
    apply map_ext; intros j. rewrite !map_map. reflexivity.
Qed.

Lemma repeat_as_map {A B : Type} (b : B) (l : list A) :
  repeat b (length l) = map (fun _ => b) l.
Proof. induction l as [|x l IH]; cbn; congruence. Qed.

Lemma spec_coords_ref_columns (s : Qc) (axis : string) (d : Z) :
  columns (spec_coords_ref s axis d) =
  map (ref_point axis s d)
      (grid_points (fst (spec_grid_shape axis d))
                   (snd (spec_grid_shape axis d))).
Proof.
  set (h := fst (spec_grid_shape axis d)).
  set (w := snd (spec_grid_shape axis d)).
  set (pts := grid_points h w).
  pose (c := fun (k : nat) (p : nat * nat) =>
               if k =? axis_row axis then s
               else if k =? axis_row (fst (variable_axes axis))
                    then Z2Qc (Z.of_nat (fst p) * d)
                    else Z2Qc (Z.of_nat (snd p) * d)).
  transitivity
    (columns (mk_array (4, length pts)
                (map (fun f => map f pts) [c 0; c 1; c 2; fun _ => 1%Qc]))).
  - unfold spec_coords_ref, spec_ref_row. fold h w pts.
    rewrite <- (grid_points_length h w). fold pts.
    rewrite !repeat_as_map.
    cbn [map app]. unfold c.
    do 2 f_equal.
    set (a := axis_row axis).
    set (b := axis_row (fst (variable_axes axis))).
    destruct (0 =? a), (0 =? b), (1 =? a), (1 =? b), (2 =? a), (2 =? b);
      reflexivity.
  - rewrite columns_of_maps. reflexivity.
Qed.

Lemma spec_coords_section_columns (s : Qc) (A3 : ndarray) (axis : string)
  (d : Z) :
  columns (spec_coords_section s A3 axis d) =
  map (section_point A3 axis s d)
      (grid_points (fst (spec_grid_shape axis d))
                   (snd (spec_grid_shape axis d))).
Proof.
  unfold spec_coords_section, matmul_value; cbn [rows].
  rewrite spec_coords_ref_columns.
  set (pts := grid_points _ _).
  rewrite <- (grid_points_length (fst (spec_grid_shape axis d))
                                 (snd (spec_grid_shape axis d))).
  fold pts.
  rewrite repeat_as_map, firstn_map.
  transitivity
    (columns (mk_array (3, length pts)
       (map (fun f => map f pts)
          (map (fun u p => dot u (ref_point axis s d p)) (firstn 2 (rows A3))
           ++ [fun _ => 1%Qc])))).
  - do 2 f_equal. rewrite map_app, !map_map. cbn [map]. f_equal.
    apply map_ext; intros u. now rewrite map_map.
  - rewrite columns_of_maps. apply map_ext; intros p.
    unfold section_point. now rewrite map_app, map_map.
Qed.

Lemma nth_map_in {A B : Type} (f : A -> B) (l : list A) (d : B) (d' : A)
  (k : nat) :
  k < length l -> nth k (map f l) d = f (nth k l d').
Proof.
  intros Hk. rewrite (nth_indep _ d (f d')) by now rewrite length_map.
  apply map_nth.
Qed.

Lemma spec_coords_img_row (s : Qc) (A2 A3 : ndarray) (axis : string) (d : Z)
  (k : nat) :
  k < length (rows A2) ->
  nth k (rows (spec_coords_img s A2 A3 axis d)) [] =
  map (pixel A2 A3 axis s d k)
      (grid_points (fst (spec_grid_shape axis d))
                   (snd (spec_grid_shape axis d))).
Proof.
  intros Hk. unfold spec_coords_img, matmul_value; cbn [rows].
  rewrite spec_coords_section_columns.
  rewrite (nth_map_in _ _ [] [] Hk), map_map. reflexivity.
Qed.

Lemma reshape_grid (f : nat * nat -> Qc) (l1 l2 : list nat) :
  reshape (length l1) (length l2) (map f (list_prod l1 l2)) =
  map (fun i => map (fun j => f (i, j)) l2) l1.
Proof.
  induction l1 as [|x l1 IH]; [reflexivity|].
  cbn [length reshape list_prod map].
  rewrite map_app, map_map.
  assert (Hlen : length (map (fun j => f (x, j)) l2) = length l2)
    by apply length_map.
  f_equal.
  - rewrite firstn_app, Hlen, Nat.sub_diag, firstn_O, app_nil_r.
    apply firstn_all2. lia.
  - rewrite skipn_app, Hlen, Nat.sub_diag, skipn_O.
    rewrite skipn_all2 by lia. exact IH.
Qed.

Lemma spec_grid_rows (s : Qc) (A2 A3 : ndarray) (axis : string) (d di : Z)
  (k : nat) :
  k < length (rows A2) ->
  rows (spec_grid s A2 A3 axis d di k) =
  map (fun i =>
         map (fun j => (pixel A2 A3 axis s d k (i, j) / py_pow2 di)%Qc)
             (seq 0 (snd (spec_grid_shape axis d))))
      (seq 0 (fst (spec_grid_shape axis d))).
Proof.
  intros Hk. unfold spec_grid; cbn [rows].
  rewrite (spec_coords_img_row s A2 A3 axis d Hk).
  set (h := fst (spec_grid_shape axis d)).
  set (w := snd (spec_grid_shape axis d)).
  rewrite <- (length_seq h 0) at 1. rewrite <- (length_seq w 0) at 1.
  unfold grid_points. rewrite reshape_grid.
  rewrite map_map. apply map_ext; intros i. now rewrite map_map.
Qed.

Lemma nth_map_seq {B : Type} (g : nat -> B) (n i : nat) (dflt : B) :
  i < n -> nth i (map g (seq 0 n)) dflt = g i.
Proof.
  intros Hi.
  rewrite (nth_map_in g _ dflt 0) by now rewrite length_seq.
  now rewrite seq_nth.
Qed.

Lemma spec_grid_at (s : Qc) (A2 A3 : ndarray) (axis : string) (d di : Z)
  (k i j : nat) :
  k < length (rows A2) ->
  i < fst (spec_grid_shape axis d) -> j < snd (spec_grid_shape axis d) ->
  grid_at (spec_grid s A2 A3 axis d di k) i j =
  (pixel A2 A3 axis s d k (i, j) / py_pow2 di)%Qc.
Proof.
  intros Hk Hi Hj. unfold grid_at. rewrite (spec_grid_rows _ _ _ _ _ _ Hk).
  rewrite (nth_map_seq _ _ Hi), (nth_map_seq _ _ Hj). reflexivity.
Qed.

Lemma spec_grid_wf (s : Qc) (A2 A3 : ndarray) (axis : string) (d di : Z)
  (k : nat) :
  k < length (rows A2) -> wf_array (spec_grid s A2 A3 axis d di k).
Proof.
  intros Hk. split.
  - rewrite (spec_grid_rows _ _ _ _ _ _ Hk).
    now rewrite length_map, length_seq.
  - rewrite (spec_grid_rows _ _ _ _ _ _ Hk).
    apply Forall_forall. intros r Hr.
    apply in_map_iff in Hr as (i & <- & _).
    now rewrite length_map, length_seq.
Qed.

Lemma spec_coords_ref_wf (s : Qc) (axis : string) (d : Z) :
  wf_array (spec_coords_ref s axis d).
Proof.
  split; [reflexivity|].
  unfold spec_coords_ref, spec_ref_row; cbn [rows ncols shape snd map app].
  repeat constructor;
    repeat (destruct (_ =? _));
    rewrite ?repeat_length, ?length_map, ?grid_points_length; reflexivity.
Qed.

(* ================================================================== *)
(** ** Frame lemmas *)

Lemma preserves_ret (n : nat) {A : Type} (a : A) (Q : A -> Prop) :
  Q a -> preserves n (ret a) Q.
Proof. intros Ha h Hn; cbn; auto. Qed.

Lemma preserves_raise (n : nat) {A : Type} (e : PyError) (Q : A -> Prop) :
  preserves n (raise e) Q.
Proof. intros h Hn; cbn; auto. Qed.

Lemma preserves_bind (n : nat) {A B : Type} (m : M A) (k : A -> M B)
  (Q : A -> Prop) (R : B -> Prop) :
  preserves n m Q -> (forall a, Q a -> preserves n (k a) R) ->
  preserves n (bind m k) R.
Proof.
  intros Hm Hk h Hn. unfold bind.
  destruct (Hm h Hn) as (Hfirst & Hlen & Hq).
  destruct (m h) as [h1 [a|e]]; cbn [fst snd] in *.
  - destruct (Hk a Hq h1 Hlen) as (Hfirst' & Hlen' & Hr).
    split; [congruence | auto].
  - auto.
Qed.

Lemma preserves_weaken (n : nat) {A : Type} (m : M A) (Q Q' : A -> Prop) :
  preserves n m Q -> (forall a, Q a -> Q' a) -> preserves n m Q'.
Proof.
  intros Hm HQ h Hn. destruct (Hm h Hn) as (Hf & Hl & Hq).
  repeat split; auto. destruct (snd (m h)); auto.
Qed.

Lemma preserves_alloc (n : nat) (a : ndarray) :
  preserves n (alloc a) (fun l => n <= l).
Proof.
  intros h Hn; cbn [alloc fst snd]. repeat split.
  - rewrite firstn_app. replace (n - length h) with 0 by lia.
    now rewrite firstn_O, app_nil_r.
  - rewrite length_app; lia.
  - exact Hn.
Qed.

Lemma preserves_load (n : nat) (l : loc) :
  preserves n (load l) (fun _ => True).
Proof. intros h Hn; cbn; auto. Qed.

Lemma preserves_store (n : nat) (l : loc) (a : ndarray) :
  n <= l -> preserves n (store l a) (fun _ => True).
Proof.
  intros Hl h Hn; cbn [store fst snd]. repeat split.
  - now apply firstn_set_nth_ge.
  - now rewrite set_nth_length.
Qed.

Lemma preserves_getitem (n : nat) {A : Type} (l : list A) (i : nat) :
  preserves n (getitem l i) (fun _ => True).
Proof.
  unfold getitem. destruct (nth_error l i);
    [now apply preserves_ret | apply preserves_raise].
Qed.

Lemma preserves_floordiv (n : nat) (a b : Z) :
  preserves n (floordiv a b) (fun _ => True).
Proof.
  unfold floordiv. destruct (b =? 0)%Z;
    [apply preserves_raise | now apply preserves_ret].
Qed.

Lemma preserves_mapM (n : nat) {A B : Type} (f : A -> M B) (l : list A) :
  (forall x, preserves n (f x) (fun _ => True)) ->
  preserves n (mapM f l) (fun _ => True).
Proof.
  intros Hf. induction l as [|x l IH]; cbn [mapM].
  - now apply preserves_ret.
  - eapply preserves_bind; [apply Hf | intros y _].
    eapply preserves_bind; [apply IH | intros ys _].
    now apply preserves_ret.
Qed.

Lemma preserves_np_ones (n r : nat) (c : Z) :
  preserves n (np_ones r c) (fun l => n <= l).
Proof.
  unfold np_ones. destruct (c <? 0)%Z;
    [apply preserves_raise | apply preserves_alloc].
Qed.

Lemma preserves_imul_row (n : nat) (a : loc) (i : nat) (s : Qc) :
  n <= a -> preserves n (imul_row a i s) (fun _ => True).
Proof.
  intros Ha. unfold imul_row.
  eapply preserves_bind; [apply preserves_load | intros arr _].
  eapply preserves_bind; [apply preserves_getitem | intros row _].
  now apply preserves_store.
Qed.

Lemma preserves_indices_flat_scaled (n : nat) (g : list Z) (k : Z) :
  preserves n (indices_flat_scaled g k) (fun l => n <= l).
Proof.
  unfold indices_flat_scaled.
  destruct g as [|h [|w [|? ?]]]; try apply preserves_raise.
  destruct ((h <? 0) || (w <? 0))%Z;
    [apply preserves_raise | apply preserves_alloc].
Qed.

Lemma preserves_setitem_rows (n : nat) (t : loc) (idx : list nat)
  (v : ndarray) :
  n <= t -> preserves n (setitem_rows t idx v) (fun _ => True).
Proof.
  intros Ht. unfold setitem_rows.
  eapply preserves_bind; [apply preserves_load | intros arr _].
  destruct (forallb _ idx); [|apply preserves_raise].
  destruct (broadcast_to _ _ v); [|apply preserves_raise].
  now apply preserves_store.
Qed.

Lemma preserves_matmul (n : nat) (a b : loc) :
  preserves n (matmul a b) (fun l => n <= l).
Proof.
  unfold matmul.
  eapply preserves_bind; [apply preserves_load | intros x _].
  eapply preserves_bind; [apply preserves_load | intros y _].
  destruct (ncols x =? nrows y);
    [apply preserves_alloc | apply preserves_raise].
Qed.

Lemma preserves_getrow (n : nat) (a : loc) (i : nat) :
  preserves n (getrow a i) (fun _ => True).
Proof.
  unfold getrow.
  eapply preserves_bind; [apply preserves_load | intros arr _].
  apply preserves_getitem.
Qed.

Lemma preserves_reshape_div (n : nat) (row : list Qc) (g : list Z) (q : Qc) :
  preserves n (reshape_div row g q) (fun l => n <= l).
Proof.
  unfold reshape_div.
  destruct g as [|h [|w [|? ?]]]; try apply preserves_raise.
  destruct ((h <? 0) || (w <? 0))%Z; [apply preserves_raise|].
  destruct (_ =? _); [|apply preserves_raise].
  destruct (Qle_bool float64_limit q); [apply preserves_raise|].
  destruct (Qeq_bool q 0); apply preserves_alloc.
Qed.

Lemma preserves_from_transform (n : nat) (tx ty : loc) :
  preserves n (from_transform tx ty) (fun _ => True).
Proof.
  unfold from_transform.
  eapply preserves_bind; [apply preserves_load | intros x _].
  eapply preserves_bind; [apply preserves_load | intros y _].
  now apply preserves_ret.
Qed.

(** Lines 89 to 101: after line 87 [coords_ref] is only read. *)
Lemma preserves_after_coords_ref (n : nat) (l2 l3 coords_ref : loc)
  (n_pixels : Z) (grid_shape : list Z) (q : Qc) :
  preserves n
    (coords_temp <- np_ones 3 n_pixels ;;
     prod_3d <- matmul l3 coords_ref ;;
     p <- load prod_3d ;;
     setitem_rows coords_temp [0; 1] (take_rows 2 p) ;;
     coords_img <- matmul l2 coords_temp ;;
     r0 <- getrow coords_img 0 ;;
     tx <- reshape_div r0 grid_shape q ;;
     r1 <- getrow coords_img 1 ;;
     ty <- reshape_div r1 grid_shape q ;;
     from_transform tx ty)
    (fun _ => True).
Proof.
  eapply preserves_bind; [apply preserves_np_ones | intros coords_temp Htmp].
  eapply preserves_bind; [apply preserves_matmul | intros prod_3d _].
  eapply preserves_bind; [apply preserves_load | intros p _].
  eapply preserves_bind; [now apply preserves_setitem_rows | intros _ _].
  eapply preserves_bind; [apply preserves_matmul | intros coords_img _].
  eapply preserves_bind; [apply preserves_getrow | intros r0 _].
  eapply preserves_bind; [apply preserves_reshape_div | intros tx _].
  eapply preserves_bind; [apply preserves_getrow | intros r1 _].
  eapply preserves_bind; [apply preserves_reshape_div | intros ty _].
  apply preserves_from_transform.
Qed.

Lemma preserves_get_parallel_transform (n : nat) (s : Qc) (l2 l3 : loc)
  (axis : string) (d di : Z) :
  preserves n (get_parallel_transform s l2 l3 axis d di) (fun _ => True).
Proof.
  unfold get_parallel_transform.
  eapply preserves_bind; [apply preserves_getitem | intros axis_fixed _].
  cbv zeta.
  eapply preserves_bind.
  { apply preserves_mapM. intros i.
    eapply preserves_bind; [apply preserves_getitem | intros a _].
    apply preserves_floordiv. }
  intros grid_shape _.
  eapply preserves_bind; [apply preserves_np_ones | intros coords_ref Href].
  eapply preserves_bind; [now apply preserves_imul_row | intros _ _].
  eapply preserves_bind;
    [apply preserves_indices_flat_scaled | intros scaled _].
  eapply preserves_bind; [apply preserves_load | intros v _].
  eapply preserves_bind; [now apply preserves_setitem_rows | intros _ _].
  apply preserves_after_coords_ref.
Qed.

Lemma preserved_prefix {A : Type} (m : M A) (Q : A -> Prop) (h0 : heap) :
  preserves (length h0) m Q -> exists ext, fst (m h0) = h0 ++ ext.
Proof.
  intros Hm. destruct (Hm h0 (le_n _)) as (Hf & _ & _).
  rewrite firstn_all in Hf.
  exists (skipn (length h0) (fst (m h0))).
  rewrite <- (firstn_skipn (length h0) (fst (m h0))) at 1.
  now rewrite Hf.
Qed.

Lemma nth_firstn_lt {A : Type} (n i : nat) (l : list A) (d : A) :
  i < n -> nth i (firstn n l) d = nth i l d.
Proof.
  intros Hi. rewrite nth_firstn.
  destruct (Nat.ltb_spec i n); [reflexivity | lia].
Qed.

(** On a known axis and with [1 <= d], [coords_ref] is built and stays as
    it is, whatever the two matrices are. *)
Lemma coords_ref_kept (h0 : heap) (s : Qc) (l2 l3 : loc) (axis : string)
  (d di : Z) :
  known_axis axis -> (1 <= d)%Z ->
  nth (length h0) (fst (get_parallel_transform s l2 l3 axis d di h0))
      empty_array = spec_coords_ref s axis d.
Proof.
  intros Hax Hd.
  rewrite <- (run_coords_ref_spec s d Hax).
  destruct Hax as [-> | [-> | ->]];
    enter_body_pos d;
    (rewrite coords_ref_block_run by (cbn; lia));
    lazymatch goal with
    | |- nth _ (fst (?m ?h)) _ = _ =>
        assert (P : preserves (length h0 + 1) m (fun _ => True))
          by apply preserves_after_coords_ref;
        destruct (P h) as (Hfirst & _ & _);
          [rewrite length_app; cbn [length]; lia|];
        rewrite <- (@nth_firstn_lt _ (length h0 + 1)) by lia;
        rewrite Hfirst, firstn_app_2; cbn [firstn];
        rewrite nth_app_new0; reflexivity
    end.
Qed.

(* ================================================================== *)
(** ** Stable sorting *)

Section Sorting.

Context {A : Type} (key : A -> Z).

Lemma insert_by_perm (x : A) (l : list A) :
  Permutation (insert_by key x l) (x :: l).
Proof.
  induction l as [|y l IH]; cbn [insert_by]; [reflexivity|].
  destruct (key x <=? key y)%Z; [reflexivity|].
  rewrite IH. apply perm_swap.
Qed.

Lemma sorted_perm (l : list A) : Permutation (sorted key l) l.
Proof.
  induction l as [|x l IH]; cbn [sorted fold_right]; [reflexivity|].
  fold (sorted key l). rewrite insert_by_perm. now constructor.
Qed.

Lemma insert_by_hd (x a : A) (l : list A) :
  key_le key a x -> HdRel (key_le key) a l ->
  HdRel (key_le key) a (insert_by key x l).
Proof.
  intros Hax Hal. destruct l as [|y l]; cbn [insert_by].
  - now constructor.
  - destruct (key x <=? key y)%Z; constructor; auto.
    now inversion Hal.
Qed.

Lemma insert_by_sorted (x : A) (l : list A) :
  Sorted (key_le key) l -> Sorted (key_le key) (insert_by key x l).
Proof.
  induction 1 as [|y l Hl IH Hy]; cbn [insert_by].
  - repeat constructor.
  - destruct (Z.leb_spec (key x) (key y)).
    + repeat constructor; auto.
    + constructor; [exact IH|].
      apply insert_by_hd; [unfold key_le; lia | exact Hy].
Qed.

Lemma sorted_sorted (l : list A) : Sorted (key_le key) (sorted key l).
Proof.
  induction l as [|x l IH]; cbn [sorted fold_right]; [constructor|].
  now apply insert_by_sorted.
Qed.

Lemma sorted_strongly (l : list A) :
  StronglySorted (fun a b => (key a <= key b)%Z) (sorted key l).
Proof.
  apply Sorted_StronglySorted; [|apply sorted_sorted].
  intros a b c; unfold key_le; lia.
Qed.

Lemma filter_insert_by (k : Z) (x : A) (l : list A) :
  filter (fun y => (key y =? k)%Z) (insert_by key x l) =
  filter (fun y => (key y =? k)%Z) (x :: l).
Proof.
  induction l as [|y l IH]; cbn [insert_by]; [reflexivity|].
  destruct (Z.leb_spec (key x) (key y)); [reflexivity|].
  cbn [filter] in *. rewrite IH.
  destruct (Z.eqb_spec (key x) k), (Z.eqb_spec (key y) k);
    try reflexivity; lia.
Qed.

Lemma sorted_stable (k : Z) (l : list A) :
  filter (fun y => (key y =? k)%Z) (sorted key l) =
  filter (fun y => (key y =? k)%Z) l.
Proof.
  induction l as [|x l IH]; cbn [sorted fold_right]; [reflexivity|].
  fold (sorted key l). rewrite filter_insert_by.
  cbn [filter]. now rewrite IH.
Qed.

(** A sorted list is determined by its classes of equal keys, each in
    its order: every stable sort returns what [sorted] returns. *)
Lemma sorted_head_least (x : A) (l : list A) (y : A) :
  Sorted (key_le key) (x :: l) -> In y (x :: l) -> (key x <= key y)%Z.
Proof.
  intros Hs Hin. apply Sorted_StronglySorted in Hs;
    [| intros a b c; unfold key_le; lia].
  inversion Hs as [|? ? _ Hx]; subst.
  destruct Hin as [<- | Hin]; [lia|].
  rewrite Forall_forall in Hx. now apply Hx.
Qed.

Lemma in_filter_key (k : Z) (l l' : list A) (x : A) :
  filter (fun y => (key y =? k)%Z) l = filter (fun y => (key y =? k)%Z) l' ->
  In x l -> key x = k -> In x l'.
Proof.
  intros Hf Hin Hk.
  assert (H : In x (filter (fun y => (key y =? k)%Z) l))
    by (apply filter_In; split; [exact Hin | now apply Z.eqb_eq]).
  rewrite Hf in H. now apply filter_In in H.
Qed.

Lemma stable_sort_unique (l1 l2 : list A) :
  Sorted (key_le key) l1 -> Sorted (key_le key) l2 ->
  (forall k, filter (fun y => (key y =? k)%Z) l1 =
             filter (fun y => (key y =? k)%Z) l2) ->
  l1 = l2.
Proof.
  revert l2; induction l1 as [|x l1 IH]; intros l2 S1 S2 Hf.
  - destruct l2 as [|y l2]; [reflexivity|].
    specialize (Hf (key y)). cbn [filter] in Hf.
    rewrite Z.eqb_refl in Hf. discriminate.
  - destruct l2 as [|y l2].
    + specialize (Hf (key x)). cbn [filter] in Hf.
      rewrite Z.eqb_refl in Hf. discriminate.
    + assert (Hxy : key x = key y).
      { assert (Hx : In x (y :: l2))
          by (eapply in_filter_key; [apply Hf | now left | reflexivity]).
        assert (Hy : In y (x :: l1))
          by (eapply in_filter_key;
              [symmetry; apply Hf | now left | reflexivity]).
        pose proof (sorted_head_least S1 Hy) as Lxy.
        pose proof (sorted_head_least S2 Hx) as Lyx. lia. }
      assert (Hhd : x = y).
      { specialize (Hf (key x)). cbn [filter] in Hf.
        rewrite <- Hxy, Z.eqb_refl in Hf. now injection Hf. }
      subst y. f_equal.
      apply IH; [now inversion S1 | now inversion S2 |].
      intros k. specialize (Hf k). cbn [filter] in Hf.
      destruct (key x =? k)%Z; [now injection Hf | exact Hf].
Qed.

Lemma sorted_characterised (l l' : list A) :
  Sorted (key_le key) l' ->
  (forall k, filter (fun y => (key y =? k)%Z) l' =
             filter (fun y => (key y =? k)%Z) l) ->
  l' = sorted key l.
Proof.
  intros Hs Hf. apply stable_sort_unique; [exact Hs | apply sorted_sorted |].
  intros k. now rewrite Hf, sorted_stable.
Qed.

End Sorting.

(* ================================================================== *)
(** ** Generator loops *)

Lemma for_each_spec {Y X : Type} (P : X -> Y -> Prop) (body : X -> G Y unit)
  (l : list X) :
  (forall x h,
      match body x h with
      | (_, ys, Ok _) => exists y, ys = [y] /\ P x y
      | (_, ys, Raise _) => ys = []
      end) ->
  forall h,
  exists visited rest,
    l = visited ++ rest /\
    Forall2 P visited (yields (for_each l body h)) /\
    (result (for_each l body h) = Ok tt -> rest = []).
Proof.
  intros Hbody. induction l as [|x l IH]; intros h.
  - exists [], []. cbn. repeat split; constructor.
  - cbn [for_each]. unfold gbind. specialize (Hbody x h).
    destruct (body x h) as [[h1 ys] [u|e]].
    + destruct Hbody as (y & -> & Py).
      destruct (IH h1) as (vis & rest & El & HP & Hres).
      unfold yields, result in *.
      destruct (for_each l body h1) as [[h2 ys'] r]. cbn [fst snd] in *.
      exists (x :: vis), rest. rewrite El.
      repeat split; auto. now constructor.
    + subst ys. exists [], (x :: l). unfold yields, result; cbn.
      repeat split; [constructor | discriminate].
Qed.

Lemma StronglySorted_app_l {A : Type} (R : A -> A -> Prop) (l l' : list A) :
  StronglySorted R (l ++ l') -> StronglySorted R l.
Proof.
  induction l as [|x l IH]; cbn [app]; intros H; [constructor|].
  inversion H as [|? ? Hl Hx]; subst. constructor; [now apply IH|].
  rewrite Forall_app in Hx. tauto.
Qed.

(* ================================================================== *)
(** ** The download loop *)

Lemma StronglySorted_impl {A : Type} (R R' : A -> A -> Prop) (l : list A) :
  (forall a b, R a b -> R' a b) -> StronglySorted R l -> StronglySorted R' l.
Proof.
  intros HR; induction 1 as [|a l Hl IH Ha]; constructor; auto.
  eapply Forall_impl; [|exact Ha]. auto.
Qed.

Section DownloadFacts.

Variable Image : Type.
Variable get_2d_bulk : Z -> bool -> M (list (Z * (loc * Z))).
Variable get_3d : Z -> bool -> bool -> M loc.
Variable get_axis : Z -> M string.
Variable xy_to_pir_API_single : Qc -> Qc -> Z -> M (Qc * Qc * Qc).
Variable get_image : Z -> bool -> Z -> M Image.

Variables (dataset_id downsample_ref : Z) (detection_xy : Qc * Qc).
Variables (include_expression : bool) (downsample_img : Z).

Lemma download_run (h0 : heap) :
  let run :=
    download_parallel_dataset get_2d_bulk get_3d get_axis
      xy_to_pir_API_single get_image dataset_id downsample_ref detection_xy
      include_expression downsample_img h0 in
  (yields run = [] /\ result run <> Ok tt) \/
  exists h1 items h2 a3 h3 axis visited rest,
    get_2d_bulk dataset_id true h0 = (h1, Ok items) /\
    get_3d dataset_id true false h1 = (h2, Ok a3) /\
    get_axis dataset_id h2 = (h3, Ok axis) /\
    sorted (fun x : Z * loc * Z => (- snd x)%Z)
           (map (fun kv => (fst kv, fst (snd kv), snd (snd kv))) items)
      = visited ++ rest /\
    Forall2 (yielded_for xy_to_pir_API_single axis detection_xy
               include_expression)
            visited (yields run) /\
    (result run = Ok tt -> rest = []).
Proof.
  intros run. unfold yields, result.
  destruct run as [[hf ys] r] eqn:Erun. cbn [fst snd].
  unfold run, download_parallel_dataset in Erun.
  unfold gbind at 1, lift at 1 in Erun.
  destruct (get_2d_bulk dataset_id true h0) as [h1 [items|e]] eqn:E1;
    [| inversion Erun; left; split; [reflexivity | discriminate]].
  cbv zeta in Erun. unfold gbind at 1, lift at 1 in Erun.
  destruct (get_3d dataset_id true false h1) as [h2 [a3|e]] eqn:E2;
    [| inversion Erun; left; split; [reflexivity | discriminate]].
  unfold gbind at 1, lift at 1 in Erun.
  destruct (get_axis dataset_id h2) as [h3 [axis|e]] eqn:E3;
    [| inversion Erun; left; split; [reflexivity | discriminate]].
  right.
  match type of Erun with
  | context [for_each ?l ?body h3] =>
      destruct (@for_each_spec _ _
                  (yielded_for xy_to_pir_API_single axis detection_xy
                     include_expression) body l) with (h := h3)
        as (visited & rest & El & HP & Hres);
      [| destruct (for_each l body h3) as [[h4 ys4] r4] eqn:E4 ]
  end.
  - intros m h. unfold gbind, lift, yield.
    destruct (xy_to_pir_API_single _ _ _ h) as [ha [pir|e]] eqn:Ex;
      [|reflexivity].
    destruct (get_parallel_transform _ _ _ _ _ _ ha) as [hb [df|e]];
      [|reflexivity].
    destruct (get_image _ false _ hb) as [hc [img|e]]; [|reflexivity].
    destruct include_expression; cbn [negb].
    + destruct (get_image _ true _ hc) as [hd [img_e|e]]; [|reflexivity].
      eexists; split; [reflexivity|].
      split; [reflexivity|]. split; [reflexivity|].
      exists h, ha, pir. split; [exact Ex | reflexivity].
    + eexists; split; [reflexivity|].
      split; [reflexivity|]. split; [reflexivity|].
      exists h, ha, pir. split; [exact Ex | reflexivity].
  - cbn [app] in Erun. inversion Erun; subst hf ys r.
    exists h1, items, h2, a3, h3, axis, visited, rest.
    unfold yields, result in *. cbn [fst snd] in *.
    repeat split; auto.
Qed.

End DownloadFacts.

Lemma Forall2_map_eq {X Y Z : Type} (P : X -> Y -> Prop) (f : X -> Z)
  (g : Y -> Z) (l : list X) (l' : list Y) :
  (forall x y, P x y -> g y = f x) -> Forall2 P l l' -> map g l' = map f l.
Proof.
  intros HP; induction 1 as [|x y l l' Hxy HF IH]; cbn; [reflexivity|].
  now rewrite (HP _ _ Hxy), IH.
Qed.

(* ================================================================== *)
(** ** Matrices of other row counts *)

Lemma setitem_rows_broadcast (t : loc) (idx : list nat) (v : ndarray)
  (h : heap) (arr : ndarray) (vs : list (list Qc)) :
  nth t h empty_array = arr ->
  forallb (fun i => i <? nrows arr) idx = true ->
  broadcast_to (length idx) (ncols arr) v = Some vs ->
  setitem_rows t idx v h =
    (set_nth t (mk_array (shape arr) (set_rows idx vs (rows arr))) h, Ok tt).
Proof.
  intros Ha Hidx Hb; unfold setitem_rows, bind, load.
  rewrite Ha, Hidx, Hb; reflexivity.
Qed.


(** The value [(affine_3d @ coords_ref)[:2]] broadcast to two rows. *)
Lemma broadcast_section (A3 ref : ndarray) :
  wf_array A3 -> 1 <= nrows A3 ->
  broadcast_to 2 (ncols ref) (take_rows 2 (matmul_value A3 ref)) =
    Some (section_rows (matmul_value A3 ref)).
Proof.
  intros [Hlen _] Hr; unfold broadcast_to.
  rewrite (all_some_map_Some _ (fun x => x))
    by (intros x; unfold broadcast_row, take_rows, matmul_value, ncols;
        cbn [shape snd]; now rewrite Nat.eqb_refl).
  rewrite map_id.
  unfold take_rows, matmul_value, section_rows, nrows in *.
  cbn [shape fst rows].
  destruct (rows A3) as [|u [|v rest]]; cbn [length] in Hlen;
    rewrite <- Hlen in *; cbn [length] in Hr; [lia | reflexivity |].
  reflexivity.
Qed.


Lemma section_rows_two (A3 ref : ndarray) :
  wf_array A3 -> 1 <= nrows A3 ->
  exists x y, section_rows (matmul_value A3 ref) = [x; y].
Proof.
  intros [Hlen _] Hr. unfold section_rows, matmul_value, nrows in *.
  cbn [rows].
  destruct (rows A3) as [|u [|v rest]]; cbn [length] in Hlen;
    [lia | |]; cbn [map]; eauto.
Qed.

(** Lines 89 and 90 for an [affine_3d] of four columns and at least one
    row. *)
Lemma section_block_rows {B : Type} (K : loc -> M B) (h0 : heap) (l3 : loc)
  (A3 ref sc : ndarray) (n : nat) :
  nth_error h0 l3 = Some A3 -> wf_array A3 -> ncols A3 = 4 ->
  1 <= nrows A3 -> shape ref = (4, n) ->
  (coords_temp <- np_ones 3 (Z.of_nat n) ;;
   prod_3d <- matmul l3 (length h0) ;;
   p <- load prod_3d ;;
   setitem_rows coords_temp [0; 1] (take_rows 2 p) ;;
   K coords_temp) (h0 ++ [ref; sc]) =
  K (length h0 + 2)
    (h0 ++ [ref; sc; run_coords_section (matmul_value A3 ref) n;
            matmul_value A3 ref]).
Proof.
  intros H3 W3 C3 R3 Sref.
  assert (Hn : ncols ref = n) by (unfold ncols; now rewrite Sref).
  erewrite bind_run by apply np_ones_run.
  heap_norm.
  erewrite bind_run.
  2:{ eapply matmul_run; [heap_lookup | heap_lookup |].
      rewrite C3. unfold nrows. cbn [nth]. now rewrite Sref. }
  heap_norm; cbn [nth].
  erewrite bind_run by (eapply load_run; heap_lookup).
  cbn [nth].
  erewrite bind_run.
  2:{ eapply setitem_rows_broadcast; [heap_lookup | reflexivity |].
      cbn [nth length ncols ones shape snd]. rewrite <- Hn.
      now apply broadcast_section. }
  heap_norm; cbn [nth shape ones]. unfold run_coords_section.
  destruct (section_rows_two ref W3 R3) as (x & y & ->).
  reflexivity.
Qed.


(** Lines 92 to 101 for an [affine_2d] of three columns and at least two
    rows. *)
Lemma image_block_rows (h0 : heap) (l2 : loc) (A2 ref sc temp prod : ndarray)
  (h w : nat) (q : Qc) :
  nth_error h0 l2 = Some A2 -> ncols A2 = 3 -> 2 <= length (rows A2) ->
  shape temp = (3, h * w) -> float64_divisor q ->
  let img := matmul_value A2 temp in
  let gx := run_grid img 0 h w q in
  let gy := run_grid img 1 h w q in
  (coords_img <- matmul l2 (length h0 + 2) ;;
   r0 <- getrow coords_img 0 ;;
   tx <- reshape_div r0 [Z.of_nat h; Z.of_nat w] q ;;
   r1 <- getrow coords_img 1 ;;
   ty <- reshape_div r1 [Z.of_nat h; Z.of_nat w] q ;;
   from_transform tx ty) (h0 ++ [ref; sc; temp; prod]) =
  (h0 ++ [ref; sc; temp; prod; img; gx; gy], Ok (mk_field gx gy)).
Proof.
  intros H2 C2 R2 St Hq img gx gy.
  erewrite bind_run.
  2:{ eapply matmul_run; [heap_lookup | heap_lookup |].
      rewrite C2. unfold nrows. cbn [nth]. now rewrite St. }
  heap_norm; cbn [nth]. fold img.
  assert (Hcols : ncols temp = h * w) by (unfold ncols; now rewrite St).
  assert (Hx : nth_error (rows img) 0 = Some (nth 0 (rows img) [])).
  { unfold img, matmul_value; cbn [rows].
    destruct (rows A2) as [|u [|v rest]]; cbn [length] in R2; try lia.
    reflexivity. }
  assert (Hy : nth_error (rows img) 1 = Some (nth 1 (rows img) [])).
  { unfold img, matmul_value; cbn [rows].
    destruct (rows A2) as [|u [|v rest]]; cbn [length] in R2; try lia.
    reflexivity. }
  erewrite bind_run by (eapply getrow_run; [heap_lookup | exact Hx]).
  erewrite bind_run
    by (apply reshape_div_run;
        [rewrite (matmul_value_row_length _ _ _ Hx); exact Hcols | exact Hq]).
  heap_norm. fold (run_grid img 0 h w q). fold gx.
  erewrite bind_run by (eapply getrow_run; [heap_lookup | exact Hy]).
  erewrite bind_run
    by (apply reshape_div_run;
        [rewrite (matmul_value_row_length _ _ _ Hy); exact Hcols | exact Hq]).
  heap_norm. fold (run_grid img 1 h w q). fold gy.
  unfold from_transform.
  erewrite bind_run by (eapply load_run; heap_lookup).
  erewrite bind_run by (eapply load_run; heap_lookup).
  reflexivity.
Qed.


(** Line 94 for a divisor that is no float64: the conversion fails after
    both matrix products, before tx exists. *)
Lemma image_block_overflow {B : Type}
  (K : loc -> list Qc -> loc -> M B) (h0 : heap) (l2 : loc)
  (A2 ref sc temp prod : ndarray) (h w : nat) (q : Qc) :
  nth_error h0 l2 = Some A2 -> ncols A2 = 3 -> 1 <= length (rows A2) ->
  Qle_bool float64_limit q = true ->
  shape temp = (3, h * w) ->
  (coords_img <- matmul l2 (length h0 + 2) ;;
   r0 <- getrow coords_img 0 ;;
   tx <- reshape_div r0 [Z.of_nat h; Z.of_nat w] q ;;
   K coords_img r0 tx) (h0 ++ [ref; sc; temp; prod]) =
  (h0 ++ [ref; sc; temp; prod; matmul_value A2 temp], Raise OverflowError).
Proof.
  intros H2 C2 R2 Hq St.
  erewrite bind_run.
  2:{ eapply matmul_run; [heap_lookup | heap_lookup |].
      rewrite C2. unfold nrows. cbn [nth]. now rewrite St. }
  heap_norm; cbn [nth].
  assert (Hcols : ncols temp = h * w) by (unfold ncols; now rewrite St).
  set (img := matmul_value A2 temp).
  assert (Hx : nth_error (rows img) 0 = Some (nth 0 (rows img) [])).
  { unfold img, matmul_value; cbn [rows].
    destruct (rows A2) as [|u rest]; cbn [length] in R2; [lia|].
    reflexivity. }
  erewrite bind_run by (eapply getrow_run; [heap_lookup | exact Hx]).
  erewrite bind_raise; [reflexivity|].
  apply reshape_div_overflow; [|exact Hq].
  rewrite (matmul_value_row_length _ _ _ Hx); exact Hcols.
Qed.

(** The whole run for matrices of three and four columns, with at least
    two rows and at least one row. *)
Lemma transform_run_rows (h0 : heap) (s : Qc) (l2 l3 : loc)
  (A2 A3 : ndarray) (axis : string) (d di : Z) :
  nth_error h0 l2 = Some A2 -> nth_error h0 l3 = Some A3 ->
  wf_array A2 -> ncols A2 = 3 -> 2 <= nrows A2 ->
  wf_array A3 -> ncols A3 = 4 -> 1 <= nrows A3 ->
  known_axis axis -> (1 <= d)%Z -> (-1074 <= di <= 1023)%Z ->
  let h := fst (spec_grid_shape axis d) in
  let w := snd (spec_grid_shape axis d) in
  let img :=
    matmul_value A2
      (run_coords_section (matmul_value A3 (spec_coords_ref s axis d))
         (h * w)) in
  snd (get_parallel_transform s l2 l3 axis d di h0) =
    Ok (mk_field (run_grid img 0 h w (py_pow2 di))
                 (run_grid img 1 h w (py_pow2 di))).
Proof.
  intros H2 H3 W2 C2 R2 W3 C3 R3 Hax Hd Hdi h w img. subst h w img.
  pose proof (py_pow2_divisor Hdi) as Hq.
  assert (L2 : 2 <= length (rows A2)) by (destruct W2 as [-> _]; exact R2).
  rewrite <- (run_coords_ref_spec s d Hax).
  destruct Hax as [-> | [-> | ->]];
    enter_body_pos d;
    (rewrite coords_ref_block_run by (cbn; lia));
    (erewrite section_block_rows
       by (eassumption || apply run_coords_ref_shape));
    (erewrite image_block_rows by (eassumption || reflexivity));
    reflexivity.
Qed.



(** A [downsample_img] from 1024 on: the call does all its work up to
    [coords_img] and fails at line 94. *)
Lemma transform_overflow (h0 : heap) (s : Qc) (l2 l3 : loc)
  (A2 A3 : ndarray) (axis : string) (d di : Z) :
  nth_error h0 l2 = Some A2 -> nth_error h0 l3 = Some A3 ->
  wf_array A2 -> ncols A2 = 3 -> 1 <= nrows A2 ->
  wf_array A3 -> ncols A3 = 4 -> 1 <= nrows A3 ->
  known_axis axis -> (1 <= d)%Z -> (1024 <= di)%Z ->
  let n := fst (spec_grid_shape axis d) * snd (spec_grid_shape axis d) in
  let temp :=
    run_coords_section (matmul_value A3 (spec_coords_ref s axis d)) n in
  get_parallel_transform s l2 l3 axis d di h0 =
    (h0 ++ [ spec_coords_ref s axis d;
             scaled_indices (fst (spec_grid_shape axis d))
                            (snd (spec_grid_shape axis d)) d;
             temp;
             matmul_value A3 (spec_coords_ref s axis d);
             matmul_value A2 temp ],
     Raise OverflowError).
Proof.
  intros H2 H3 W2 C2 R2 W3 C3 R3 Hax Hd Hdi n temp. subst n temp.
  pose proof (py_pow2_overflow Hdi) as Hq.
  assert (L2 : 1 <= length (rows A2)) by (destruct W2 as [-> _]; exact R2).
  rewrite <- (run_coords_ref_spec s d Hax).
  destruct Hax as [-> | [-> | ->]];
    enter_body_pos d;
    (rewrite coords_ref_block_run by (cbn; lia));
    (erewrite section_block_rows
       by (eassumption || apply run_coords_ref_shape));
    (erewrite image_block_overflow by (eassumption || reflexivity));
    reflexivity.
Qed.

Lemma run_coords_section_spec (s : Qc) (A3 : ndarray) (axis : string)
  (d : Z) :
  wf_array A3 -> shape A3 = (3, 4) ->
  run_coords_section (matmul_value A3 (spec_coords_ref s axis d))
    (fst (spec_grid_shape axis d) * snd (spec_grid_shape axis d)) =
  spec_coords_section s A3 axis d.
Proof.
  intros W3 S3. destruct (wf_rows_3 W3 S3) as (u & v & t & Hrows).
  unfold run_coords_section, section_rows, spec_coords_section, matmul_value.
  cbn [rows]. rewrite Hrows. reflexivity.
Qed.

(** The grids depend on the first two rows of each matrix only. *)
Lemma section_rows_agree (A3 A3' ref : ndarray) :
  2 <= length (rows A3) -> 2 <= length (rows A3') ->
  firstn 2 (rows A3) = firstn 2 (rows A3') ->
  section_rows (matmul_value A3 ref) = section_rows (matmul_value A3' ref).
Proof.
  intros L L' E. unfold section_rows, matmul_value; cbn [rows].
  destruct (rows A3) as [|u [|v rest]]; cbn [length] in L; try lia.
  destruct (rows A3') as [|u' [|v' rest']]; cbn [length] in L'; try lia.
  cbn [firstn] in E. injection E as -> ->. reflexivity.
Qed.

Lemma run_grid_agree (A2 A2' temp : ndarray) (k h w : nat) (q : Qc) :
  k < 2 -> 2 <= length (rows A2) -> 2 <= length (rows A2') ->
  firstn 2 (rows A2) = firstn 2 (rows A2') ->
  run_grid (matmul_value A2 temp) k h w q =
  run_grid (matmul_value A2' temp) k h w q.
Proof.
  intros Hk L L' E. unfold run_grid, matmul_value; cbn [rows].
  destruct (rows A2) as [|u [|v rest]]; cbn [length] in L; try lia.
  destruct (rows A2') as [|u' [|v' rest']]; cbn [length] in L'; try lia.
  cbn [firstn] in E. injection E as -> ->.
  destruct k as [|[|k]]; [reflexivity | reflexivity | lia].
Qed.

Lemma section_rows_row_twice (A3 ref : ndarray) :
  length (rows A3) = 1 ->
  section_rows (matmul_value (row_twice A3) ref) =
  section_rows (matmul_value A3 ref).
Proof.
  intros L. unfold section_rows, matmul_value, row_twice; cbn [rows].
  destruct (rows A3) as [|u [|v rest]]; cbn [length] in L; try lia.
  reflexivity.
Qed.

Lemma row_twice_wf (A3 : ndarray) :
  wf_array A3 -> nrows A3 = 1 -> wf_array (row_twice A3).
Proof.
  intros [Hlen Hrows] R. unfold row_twice.
  split; cbn [rows nrows ncols shape fst snd].
  - rewrite length_app, Hlen, R. reflexivity.
  - apply Forall_app; split; exact Hrows.
Qed.

(* ================================================================== *)
(** ** Coarse and empty grids *)

(** A coarse grid index names the same reference point as its multiple
    on the full grid. *)
Lemma ref_point_coarse (axis : string) (s : Qc) (d : Z) (i j : nat) :
  (1 <= d)%Z ->
  ref_point axis s d (i, j) =
  ref_point axis s 1 (i * Z.to_nat d, j * Z.to_nat d).
Proof.
  intros Hd. unfold ref_point; cbn [fst snd].
  replace (Z.of_nat (i * Z.to_nat d) * 1)%Z with (Z.of_nat i * d)%Z
    by (rewrite Nat2Z.inj_mul, Z2Nat.id; lia).
  replace (Z.of_nat (j * Z.to_nat d) * 1)%Z with (Z.of_nat j * d)%Z
    by (rewrite Nat2Z.inj_mul, Z2Nat.id; lia).
  reflexivity.
Qed.

Lemma coarse_index_in_range (e d : Z) (i : nat) :
  (1 <= d)%Z -> (0 <= e)%Z ->
  i < Z.to_nat (e / d) -> i * Z.to_nat d < Z.to_nat (e / 1).
Proof.
  intros Hd He Hi. rewrite Z.div_1_r.
  assert (H0 : (0 <= e / d)%Z) by (apply Z.div_pos; lia).
  assert (H1 : (d * (e / d) <= e)%Z) by (apply Z.mul_div_le; lia).
  apply Nat2Z.inj_lt. rewrite Nat2Z.inj_mul, !Z2Nat.id by lia.
  assert (H2 : (Z.of_nat i < e / d)%Z) by lia.
  nia.
Qed.

Lemma coarse_grid_in_range (axis : string) (d : Z) (i j : nat) :
  (1 <= d)%Z ->
  i < fst (spec_grid_shape axis d) -> j < snd (spec_grid_shape axis d) ->
  i * Z.to_nat d < fst (spec_grid_shape axis 1) /\
  j * Z.to_nat d < snd (spec_grid_shape axis 1).
Proof.
  intros Hd Hi Hj. unfold spec_grid_shape in *. cbn [fst snd] in *.
  split; apply coarse_index_in_range; try assumption;
    unfold native_extent;
    repeat match goal with |- context [if ?b then _ else _] => destruct b end;
    lia.
Qed.

(** A grid one of whose dimensions is zero has no cell. *)
Lemma reshape_no_cell (h w : nat) (l : list Qc) :
  h * w = 0 -> concat (reshape h w l) = [].
Proof.
  intros Hn. destruct w as [|w].
  - clear Hn. revert l. induction h as [|h IH]; intros l; [reflexivity|].
    cbn [reshape firstn skipn concat app]. apply IH.
  - destruct h; [reflexivity | lia].
Qed.

Lemma run_grid_no_cell (img : ndarray) (k h w : nat) (q : Qc) :
  h * w = 0 -> concat (rows (run_grid img k h w q)) = [].
Proof.
  intros Hn. unfold run_grid; cbn [rows].
  rewrite <- concat_map, reshape_no_cell by exact Hn. reflexivity.
Qed.

(* ================================================================== *)
(** ** Loops that run to their end, and loops that agree *)

Lemma for_each_ext_in {Y X : Type} (l : list X) (body body' : X -> G Y unit) :
  (forall x h, In x l -> body x h = body' x h) ->
  forall h, for_each l body h = for_each l body' h.
Proof.
  induction l as [|x l IH]; intros H h; cbn [for_each]; [reflexivity|].
  unfold gbind. rewrite (H x h) by now left.
  destruct (body' x h) as [[h1 ys] [u|e]]; [|reflexivity].
  rewrite IH; [reflexivity|]. intros y h' Hy. apply H. now right.
Qed.

Lemma gbind_ext_run {Y A B : Type} (g : G Y A) (k k' : A -> G Y B)
  (h : heap) :
  (forall h1 ys a, g h = (h1, ys, Ok a) -> k a h1 = k' a h1) ->
  gbind g k h = gbind g k' h.
Proof.
  intros H. unfold gbind.
  destruct (g h) as [[h1 ys] [a|e]]; [|reflexivity].
  now rewrite (H h1 ys a eq_refl).
Qed.

Lemma gbind_lift_run {Y A B : Type} (m : M A) (k : A -> G Y B)
  (h h' : heap) (a : A) :
  m h = (h', Ok a) -> gbind (lift m) k h = k a h'.
Proof.
  intros E. unfold gbind, lift. rewrite E.
  destruct (k a h') as [[h2 ys] r]. reflexivity.
Qed.

(** Line 79 for an axis that the descriptor does not list. *)
Lemma transform_unknown_axis (h0 : heap) (s : Qc) (l2 l3 : loc)
  (axis : string) (d di : Z) :
  ~ known_axis axis ->
  get_parallel_transform s l2 l3 axis d di h0 = (h0, Raise IndexError).
Proof.
  intros Hax. unfold get_parallel_transform.
  apply bind_raise.
  cbn [enumerate refspace length seq combine filter fst snd].
  destruct (String.eqb_spec "coronal" axis) as [E|_];
    [exfalso; apply Hax; unfold known_axis; auto|].
  destruct (String.eqb_spec "transverse" axis) as [E|_];
    [exfalso; apply Hax; unfold known_axis; auto|].
  destruct (String.eqb_spec "sagittal" axis) as [E|_];
    [exfalso; apply Hax; unfold known_axis; auto|].
  reflexivity.
Qed.

(* ================================================================== *)
(** ** Sorting lists of distinct keys *)

Section DistinctKeys.

Context {A : Type} (key : A -> Z).

Lemma filter_key_short (k : Z) (l : list A) :
  NoDup (map key l) ->
  length (filter (fun y => (key y =? k)%Z) l) <= 1.
Proof.
  induction l as [|x l IH]; cbn [map filter]; intros Hnd; [cbn; lia|].
  inversion Hnd as [|? ? Hx Hl]; subst.
  destruct (Z.eqb_spec (key x) k) as [E|_]; [|now apply IH].
  destruct (filter (fun y => (key y =? k)%Z) l) as [|y r] eqn:Ef;
    [cbn; lia|].
  exfalso. apply Hx.
  assert (Hy : In y (filter (fun y => (key y =? k)%Z) l))
    by (rewrite Ef; now left).
  apply filter_In in Hy as [Hy Hk]. apply Z.eqb_eq in Hk.
  rewrite E, <- Hk. now apply in_map.
Qed.

Lemma short_lists_equal (l l' : list A) :
  length l <= 1 -> length l' <= 1 ->
  (forall x, In x l <-> In x l') -> l = l'.
Proof.
  intros L L' H.
  destruct l as [|x [|? ?]]; cbn [length] in L; try lia;
    destruct l' as [|y [|? ?]]; cbn [length] in L'; try lia.
  - reflexivity.
  - destruct (proj2 (H y) (or_introl eq_refl)).
  - destruct (proj1 (H x) (or_introl eq_refl)).
  - destruct (proj1 (H x) (or_introl eq_refl)) as [-> | []]. reflexivity.
Qed.

Lemma filter_key_permutation (k : Z) (l l' : list A) :
  Permutation l l' -> NoDup (map key l) ->
  filter (fun y => (key y =? k)%Z) l = filter (fun y => (key y =? k)%Z) l'.
Proof.
  intros Hp Hnd.
  assert (Hnd' : NoDup (map key l'))
    by (eapply Permutation_NoDup; [apply Permutation_map; exact Hp|];
        exact Hnd).
  apply short_lists_equal; try now apply filter_key_short.
  intros x. rewrite !filter_In. split; intros [Hin Hk]; split; auto.
  - now apply (Permutation_in _ Hp).
  - now apply (Permutation_in _ (Permutation_sym Hp)).
Qed.

(** With distinct keys the sorted list does not depend on the order of
    the input. *)
Lemma sorted_of_permutation (l l' : list A) :
  Permutation l l' -> NoDup (map key l) -> sorted key l = sorted key l'.
Proof.
  intros Hp Hnd. apply sorted_characterised; [apply sorted_sorted|].
  intros k. rewrite sorted_stable. now apply filter_key_permutation.
Qed.

End DistinctKeys.

(* ================================================================== *)
(** ** Frame lemmas for generators *)

Lemma gen_preserves_gret (n : nat) {Y A : Type} (a : A) :
  gen_preserves n (@gret Y A a).
Proof. intros h Hn; cbn; auto. Qed.

Lemma gen_preserves_yield (n : nat) {Y : Type} (y : Y) :
  gen_preserves n (yield y).
Proof. intros h Hn; cbn; auto. Qed.

Lemma gen_preserves_lift (n : nat) {Y A : Type} (m : M A) (Q : A -> Prop) :
  preserves n m Q -> gen_preserves n (@lift Y A m).
Proof.
  intros Hm h Hn. destruct (Hm h Hn) as (Hf & Hl & _).
  unfold lift. destruct (m h) as [h' r]. cbn [fst snd] in *. auto.
Qed.

Lemma gen_preserves_gbind (n : nat) {Y A B : Type} (g : G Y A)
  (k : A -> G Y B) :
  gen_preserves n g -> (forall a, gen_preserves n (k a)) ->
  gen_preserves n (gbind g k).
Proof.
  intros Hg Hk h Hn. unfold gbind.
  destruct (Hg h Hn) as (Hf & Hl).
  destruct (g h) as [[h1 ys] [a|e]]; cbn [fst snd] in *; [|auto].
  destruct (Hk a h1 Hl) as (Hf' & Hl').
  destruct (k a h1) as [[h2 ys'] r]. cbn [fst snd] in *.
  split; [congruence | exact Hl'].
Qed.

Lemma gen_preserves_for_each (n : nat) {Y X : Type} (l : list X)
  (body : X -> G Y unit) :
  (forall x, gen_preserves n (body x)) -> gen_preserves n (for_each l body).
Proof.
  intros Hb. induction l as [|x l IH]; cbn [for_each].
  - apply gen_preserves_gret.
  - apply gen_preserves_gbind; [apply Hb | intros _; exact IH].
Qed.

(* ================================================================== *)
(** ** The passes of a loop *)

Lemma for_each_passes {Y X : Type} (R : X -> heap -> Y -> heap -> Prop)
  (body : X -> G Y unit) (l : list X) :
  (forall x h,
      match body x h with
      | (h', ys, Ok _) => exists y, ys = [y] /\ R x h y h'
      | (_, ys, Raise _) => ys = [] /\ forall y h', ~ R x h y h'
      end) ->
  forall h,
  exists visited rest hv,
    l = visited ++ rest /\
    passes R h visited (yields (for_each l body h)) hv /\
    match result (for_each l body h) with
    | Ok _ => rest = [] /\ fst (fst (for_each l body h)) = hv
    | Raise _ => exists x rest', rest = x :: rest' /\ forall y h', ~ R x hv y h'
    end.
Proof.
  intros Hbody. induction l as [|x l IH]; intros h.
  - exists [], [], h. cbn. repeat split; constructor.
  - cbn [for_each]. unfold gbind. specialize (Hbody x h).
    destruct (body x h) as [[h1 ys] [u|e]].
    + destruct Hbody as (y & -> & Ry).
      destruct (IH h1) as (vis & rest & hv & El & HP & Hres).
      unfold yields, result in *.
      destruct (for_each l body h1) as [[h2 ys'] r]. cbn [fst snd app] in *.
      exists (x :: vis), rest, hv. rewrite El.
      repeat split; [econstructor; eassumption | exact Hres].
    + destruct Hbody as [-> Hno].
      exists [], (x :: l), h. unfold yields, result; cbn [fst snd app].
      repeat split; [constructor|]. exists x, l. split; [reflexivity|].
      exact Hno.
Qed.

Lemma passes_Forall2 {X Y : Type} (R : X -> heap -> Y -> heap -> Prop)
  (P : X -> Y -> Prop) (h h' : heap) (xs : list X) (ys : list Y) :
  (forall x g y g', R x g y g' -> P x y) ->
  passes R h xs ys h' -> Forall2 P xs ys.
Proof.
  intros HR; induction 1 as [|h h1 h' x y xs ys Hxy _ IH]; constructor;
    eauto.
Qed.

Lemma Forall2_Forall_r {X Y : Type} (P : Y -> Prop) (xs : list X)
  (ys : list Y) :
  Forall2 (fun _ y => P y) xs ys -> Forall P ys.
Proof. induction 1; constructor; auto. Qed.

(** A loop all of whose passes yield, under an invariant [I] of the
    heap. *)
Lemma for_each_all_pass {Y X : Type} (R : X -> heap -> Y -> heap -> Prop)
  (P : X -> Y -> Prop) (I : heap -> Prop) (body : X -> G Y unit)
  (l : list X) :
  (forall x h, In x l -> I h ->
               exists h' y, body x h = (h', [y], Ok tt) /\
                            R x h y h' /\ P x y /\ I h') ->
  forall h, I h ->
  exists hv ys, for_each l body h = (hv, ys, Ok tt) /\
                passes R h l ys hv /\ Forall2 P l ys.
Proof.
  induction l as [|x l IH]; intros H h Ih; cbn [for_each].
  - exists h, []. repeat split; constructor.
  - destruct (H x h (or_introl eq_refl) Ih) as (h1 & y & E1 & Rx & Px & I1).
    destruct (IH (fun z g Hz => H z g (or_intror Hz)) h1 I1)
      as (hv & ys & E2 & HP & HF).
    exists hv, (y :: ys). unfold gbind. rewrite E1, E2.
    repeat split; [econstructor; eassumption | now constructor].
Qed.

(** Arrays below a preserved prefix are found where they were. *)
Lemma nth_error_prefix {A : Type} (n : nat) (h h3 : list A) (l : nat)
  (a : A) :
  firstn n h = h3 -> nth_error h3 l = Some a -> nth_error h l = Some a.
Proof.
  intros <-. revert n l; induction h as [|x h IH]; intros [|n] [|l];
    cbn; try discriminate; auto. apply IH.
Qed.

Lemma prefix_length {A : Type} (h h3 : list A) :
  firstn (length h3) h = h3 -> length h3 <= length h.
Proof.
  intros E. apply (f_equal (@length A)) in E.
  rewrite length_firstn in E. lia.
Qed.

Lemma prefix_app {A : Type} (h h3 ext : list A) :
  firstn (length h3) h = h3 -> firstn (length h3) (h ++ ext) = h3.
Proof.
  intros E. pose proof (@prefix_length _ _ _ E) as L.
  rewrite firstn_app. replace (length h3 - length h) with 0 by lia.
  now rewrite firstn_O, app_nil_r.
Qed.

(* ================================================================== *)
(** ** Runs on small inputs *)

(** A coronal slice at coordinate 7 with [downsample_ref = 4000]: the grid
    is 2 x 2, and the heap holds, after the two arguments, [coords_ref],
    the scaled indices, [coords_temp], the two products, tx and ty. *)
Example run_coronal_heap :
  map values
    (fst (get_parallel_transform (Z2Qc 7) 0 1 "coronal" 4000 0
            [identity_2d; canonical_embedding "coronal"])) =
  map (map (map inject_Z))
    [ [[1; 0; 0]; [0; 1; 0]];
      [[0; 1; 0; 0]; [0; 0; 1; 0]; [0; 0; 0; 0]];
      [[7; 7; 7; 7]; [0; 0; 4000; 4000]; [0; 4000; 0; 4000]; [1; 1; 1; 1]];
      [[0; 0; 4000; 4000]; [0; 4000; 0; 4000]];
      [[0; 0; 4000; 4000]; [0; 4000; 0; 4000]; [1; 1; 1; 1]];
      [[0; 0; 4000; 4000]; [0; 4000; 0; 4000]; [0; 0; 0; 0]];
      [[0; 0; 4000; 4000]; [0; 4000; 0; 4000]];
      [[0; 0]; [4000; 4000]];
      [[0; 4000]; [0; 4000]] ]%Z.
Proof. vm_compute. reflexivity. Qed.

(** A sagittal slice with [downsample_ref = 6000] and
    [downsample_img = 1]: the grid is 2 x 1, row 2 of [coords_ref] is the
    fixed one, and a scaling [affine_2d] gives halves. *)
Example run_sagittal_field :
  let A2 := mk_array (2, 3)
              [[Z2Qc 2; 0%Qc; 1%Qc]; [0%Qc; Z2Qc 2; 1%Qc]] in
  let run := get_parallel_transform (Z2Qc 7) 0 1 "sagittal" 6000 1
               [A2; canonical_embedding "sagittal"] in
  values (nth 2 (fst run) empty_array) =
    map (map inject_Z) [[0; 6000]; [0; 0]; [7; 7]; [1; 1]]%Z /\
  values (nth 6 (fst run) empty_array) =
    map (map inject_Z) [[1; 12001]; [1; 1]]%Z /\
  match snd run with
  | Ok df =>
      shape (df_tx df) = (2, 1) /\
      values (df_tx df) = [[1 # 2]; [12001 # 2]]%Q /\
      values (df_ty df) = [[1 # 2]; [1 # 2]]%Q
  | Raise _ => False
  end.
Proof. vm_compute. repeat split; reflexivity. Qed.

(** A [downsample_ref] above an extent gives an empty grid, and a field
    still. *)
Example run_empty_grid :
  match snd (get_parallel_transform (Z2Qc 7) 0 1 "coronal" 9000 0
               [identity_2d; canonical_embedding "coronal"]) with
  | Ok df => shape (df_tx df) = (0, 1) /\ rows (df_tx df) = []
  | Raise _ => False
  end.
Proof. vm_compute. split; reflexivity. Qed.

(** Without downsampling the grid of a coronal slice is 8000 x 11400. *)
Example full_coronal_shape :
  spec_grid_shape "coronal" 1 = (Z.to_nat 8000, Z.to_nat 11400).
Proof. reflexivity. Qed.

(** Sorting by the negated section number: highest first, and equal
    sections in their original order. *)
Example sorted_sections :
  sorted (fun x : Z * Z => (- snd x)%Z)
    [(1, 10); (2, 30); (3, 20); (4, 30); (5, 10)]%Z =
  [(2, 30); (4, 30); (3, 20); (1, 10); (5, 10)]%Z.
Proof. reflexivity. Qed.

(** The dataset with sections 10, 30 and 20 is yielded as 30, 20, 10, in
    tuples of four or five. *)
Example demo_yields :
  map (fun y => (tuple_0 y, tuple_len y)) (yields (Demo.download false []))
    = [(102%Z, 4); (103%Z, 4); (101%Z, 4)] /\
  map (fun y => (tuple_0 y, tuple_len y)) (yields (Demo.download true []))
    = [(102%Z, 5); (103%Z, 5); (101%Z, 5)] /\
  result (Demo.download false []) = Ok tt.
Proof. vm_compute. repeat split; reflexivity. Qed.

(* ================================================================== *)
(** * The claims *)

(** The hypotheses of a concrete call. *)
Ltac valid_input :=
  first
    [ reflexivity
    | lia
    | split; [reflexivity | repeat constructor]
    | unfold known_axis; tauto ].



(** C2.  For every known axis and [1 <= downsample_ref], whatever the
    other arguments are, the array of points that the call builds has
    [n_pixels] columns, the product of the two grid dimensions
    [floor(extent / downsample_ref)] of the variable axes in their listed
    order (coronal: transverse and sagittal; transverse: coronal and
    sagittal; sagittal: coronal and transverse); and with a 2 x 3 and a
    3 x 4 matrix and a [downsample_img] from 0 to 1023 both products have
    [n_pixels] columns and the grids tx and ty of the returned field have
    that shape. *)
Theorem grid_shape_floor_division (h0 : heap) (slice_coordinate : Qc)
  (affine_2d affine_3d : loc) (axis : string)
  (downsample_ref downsample_img : Z) :
  known_axis axis -> (1 <= downsample_ref)%Z ->
  let run := get_parallel_transform slice_coordinate affine_2d affine_3d axis
               downsample_ref downsample_img h0 in
  let grid_shape :=
    if String.eqb axis "coronal" then
      (Z.to_nat (8000 / downsample_ref), Z.to_nat (11400 / downsample_ref))
    else if String.eqb axis "transverse" then
      (Z.to_nat (13200 / downsample_ref), Z.to_nat (11400 / downsample_ref))
    else
      (Z.to_nat (13200 / downsample_ref), Z.to_nat (8000 / downsample_ref)) in
  let n_pixels := fst grid_shape * snd grid_shape in
  let coords_ref := nth (length h0) (fst run) empty_array in
  (0 <= 13200 / downsample_ref)%Z /\ (0 <= 8000 / downsample_ref)%Z /\
  (0 <= 11400 / downsample_ref)%Z /\
  shape coords_ref = (4, n_pixels) /\ wf_array coords_ref /\
  forall A2 A3,
    nth_error h0 affine_2d = Some A2 -> nth_error h0 affine_3d = Some A3 ->
    wf_array A2 -> shape A2 = (2, 3) -> wf_array A3 -> shape A3 = (3, 4) ->
    (0 <= downsample_img <= 1023)%Z ->
    exists df,
      snd run = Ok df /\
      shape (df_tx df) = grid_shape /\ wf_array (df_tx df) /\
      shape (df_ty df) = grid_shape /\ wf_array (df_ty df) /\
      shape (nth (length h0 + 3) (fst run) empty_array) = (3, n_pixels) /\
      shape (nth (length h0 + 4) (fst run) empty_array) = (2, n_pixels).
Proof.
  intros Hax Hd run grid_shape n_pixels coords_ref.
  repeat (split; [apply Z.div_pos; lia|]).
  assert (Hgs : grid_shape = spec_grid_shape axis downsample_ref)
    by (symmetry; now apply spec_grid_shape_table).
  subst coords_ref run n_pixels. rewrite Hgs. clear Hgs grid_shape.
  rewrite coords_ref_kept by assumption.
  split; [reflexivity|]. split; [apply spec_coords_ref_wf|].
  intros A2 A3 H2 H3 W2 S2 W3 S3 Hdi.
  rewrite (@get_parallel_transform_run h0 slice_coordinate affine_2d
             affine_3d A2 A3 axis downsample_ref downsample_img)
    by (assumption || lia).
  cbn [fst snd]. eexists; split; [reflexivity|].
  rewrite !nth_app_new. cbn [nth df_tx df_ty].
  assert (L2 : length (rows A2) = 2)
    by (destruct W2 as [-> _]; unfold nrows; now rewrite S2).
  repeat match goal with |- _ /\ _ => split end.
  - reflexivity.
  - apply spec_grid_wf. lia.
  - reflexivity.
  - apply spec_grid_wf. lia.
  - unfold matmul_value, nrows. now rewrite S3.
  - unfold spec_coords_img, matmul_value, nrows. now rewrite S2.
Qed.

Lemma grid_shape_floor_division_witness :
  let h0 := [identity_2d; canonical_embedding "coronal"] in
  let run := get_parallel_transform (Z2Qc 7) 0 1 "coronal" 4000 0 h0 in
  shape (nth 2 (fst run) empty_array) = (4, 4) /\
  wf_array (nth 2 (fst run) empty_array) /\
  exists df,
    snd run = Ok df /\
    shape (df_tx df) = (2, 2) /\ wf_array (df_tx df) /\
    shape (df_ty df) = (2, 2) /\ wf_array (df_ty df) /\
    shape (nth 5 (fst run) empty_array) = (3, 4) /\
    shape (nth 6 (fst run) empty_array) = (2, 4).
Proof.
  destruct (@grid_shape_floor_division
              [identity_2d; canonical_embedding "coronal"] (Z2Qc 7) 0 1
              "coronal" 4000 0)
    as (_ & _ & _ & Hshape & Hwf & Hfield); try solve [valid_input].
  split; [exact Hshape|]. split; [exact Hwf|].
  apply (Hfield identity_2d (canonical_embedding "coronal"));
    valid_input.
Defined.

(** C3 as stated fails: with the canonical embedding and the identity-like
    matrix, [tx[0, 1]] is [0] (the row index times [downsample_ref]) and
    [ty[0, 1]] is [4000], not the other way round. *)
Lemma identity_law_swapped_counterexample :
  let h0 := [identity_2d; canonical_embedding "coronal"] in
  exists df,
    snd (get_parallel_transform (Z2Qc 7) 0 1 "coronal" 4000 0 h0) = Ok df /\
    grid_at (df_tx df) 0 1 = Z2Qc (0 * 4000) /\
    grid_at (df_ty df) 0 1 = Z2Qc (1 * 4000) /\
    grid_at (df_tx df) 0 1 <> Z2Qc (1 * 4000) /\
    grid_at (df_ty df) 0 1 <> Z2Qc (0 * 4000).
Proof.
  eexists. split; [vm_compute; reflexivity|].
  repeat split; try (apply Qc_is_canon; vm_compute; reflexivity);
    intros H; apply (f_equal this) in H; vm_compute in H; discriminate.
Qed.

(** C3, amended.  If the first two rows of [affine_3d] select the first
    and the second variable axis (the third row is free) and [affine_2d]
    is the identity-like matrix, then with [downsample_img = 0] the field
    at grid index [(i, j)] is [(tx, ty) = (i, j)] scaled by
    [downsample_ref]. *)
Theorem identity_law (h0 : heap) (slice_coordinate : Qc)
  (affine_2d affine_3d : loc) (A3 : ndarray) (axis : string)
  (downsample_ref : Z) :
  nth_error h0 affine_2d = Some identity_2d ->
  nth_error h0 affine_3d = Some A3 ->
  wf_array A3 -> shape A3 = (3, 4) ->
  nth 0 (rows A3) [] = unit4 (axis_row (fst (variable_axes axis))) ->
  nth 1 (rows A3) [] = unit4 (axis_row (snd (variable_axes axis))) ->
  known_axis axis -> (1 <= downsample_ref)%Z ->
  exists df,
    snd (get_parallel_transform slice_coordinate affine_2d affine_3d axis
           downsample_ref 0 h0) = Ok df /\
    forall i j,
      i < fst (spec_grid_shape axis downsample_ref) ->
      j < snd (spec_grid_shape axis downsample_ref) ->
      grid_at (df_tx df) i j = Z2Qc (Z.of_nat i * downsample_ref) /\
      grid_at (df_ty df) i j = Z2Qc (Z.of_nat j * downsample_ref).
Proof.
  intros H2 H3 W3 S3 R0 R1 Hax Hd.
  assert (W2 : wf_array identity_2d)
    by (split; [reflexivity | repeat constructor]).
  rewrite (@get_parallel_transform_run h0 slice_coordinate affine_2d
             affine_3d identity_2d A3 axis downsample_ref 0)
    by (assumption || reflexivity || lia).
  eexists; split; [reflexivity|].
  intros i j Hi Hj. cbn [snd spec_transform df_tx df_ty].
  rewrite !spec_grid_at by (assumption || (cbn; lia)).
  destruct (wf_rows_3 W3 S3) as (u & v & t & Hrows).
  rewrite Hrows in R0, R1. cbn [nth] in R0, R1. subst u v.
  unfold pixel, section_point. rewrite Hrows. cbn [firstn map app].
  change (py_pow2 0) with 1%Qc.
  destruct Hax as [-> | [-> | ->]];
    cbv [identity_2d rows nth ref_point unit4 map app dot
         axis_row variable_axes fst snd String.eqb Ascii.eqb Bool.eqb
         Nat.eqb];
    split; field; discriminate.
Qed.

Lemma identity_law_witness :
  exists df,
    snd (get_parallel_transform (Z2Qc 7) 0 1 "coronal" 4000 0
           [identity_2d; canonical_embedding "coronal"]) = Ok df /\
    grid_at (df_tx df) 1 0 = Z2Qc (Z.of_nat 1 * 4000) /\
    grid_at (df_ty df) 1 0 = Z2Qc (Z.of_nat 0 * 4000).
Proof.
  destruct (@identity_law [identity_2d; canonical_embedding "coronal"]
              (Z2Qc 7) 0 1 (canonical_embedding "coronal") "coronal" 4000)
    as (df & Hrun & Hcells); try solve [valid_input].
  exists df. split; [exact Hrun|].
  apply (Hcells 1 0); vm_compute; lia.
Defined.




(** C5.  For every axis outside the three known names the call raises at
    its first statement (an [IndexError], from indexing the empty list of
    matches): the heap is returned as it was, so that no array was created
    and no matrix product computed, and no field is returned. *)
Theorem unknown_axis_fails_first (h0 : heap) (slice_coordinate : Qc)
  (affine_2d affine_3d : loc) (axis : string)
  (downsample_ref downsample_img : Z) :
  ~ known_axis axis ->
  get_parallel_transform slice_coordinate affine_2d affine_3d axis
    downsample_ref downsample_img h0 = (h0, Raise IndexError).
Proof.
  intros Hax. unfold get_parallel_transform.
  apply bind_raise.
  cbn [enumerate refspace length seq combine filter fst snd].
  destruct (String.eqb_spec "coronal" axis) as [E|_];
    [exfalso; apply Hax; unfold known_axis; auto|].
  destruct (String.eqb_spec "transverse" axis) as [E|_];
    [exfalso; apply Hax; unfold known_axis; auto|].
  destruct (String.eqb_spec "sagittal" axis) as [E|_];
    [exfalso; apply Hax; unfold known_axis; auto|].
  reflexivity.
Qed.

Lemma unknown_axis_fails_first_witness :
  get_parallel_transform (Z2Qc 7) 0 1 "axial" 4000 0
    [identity_2d; canonical_embedding "coronal"] =
  ([identity_2d; canonical_embedding "coronal"], Raise IndexError).
Proof.
  apply (@unknown_axis_fails_first
           [identity_2d; canonical_embedding "coronal"] (Z2Qc 7) 0 1
           "axial" 4000 0).
  intros [H | [H | H]]; discriminate H.
Defined.

(** C6 as stated fails: a 4 x 4 [affine_3d] and a 3 x 3 [affine_2d] are
    accepted and a field is returned; and a negative [downsample_ref] is
    refused by [np.indices] only, after [coords_ref] was allocated and its
    fixed row scaled. *)
Lemma no_validation_counterexample :
  let A3 := mk_array (4, 4)
              [ [0; 1; 0; 0]; [0; 0; 1; 0]; [0; 0; 0; 0]; [0; 0; 0; 1] ]%Qc in
  let A2 := mk_array (3, 3) [ [1; 0; 0]; [0; 1; 0]; [0; 0; 1] ]%Qc in
  (wf_array A3 /\ shape A3 <> (3, 4) /\
   exists df,
     snd (get_parallel_transform (Z2Qc 7) 0 1 "coronal" 4000 0
            [identity_2d; A3]) = Ok df) /\
  (wf_array A2 /\ shape A2 <> (2, 3) /\
   exists df,
     snd (get_parallel_transform (Z2Qc 7) 0 1 "coronal" 4000 0
            [A2; canonical_embedding "coronal"]) = Ok df) /\
  (let run := get_parallel_transform (Z2Qc 7) 0 1 "coronal" (-4000) 0
                [identity_2d; canonical_embedding "coronal"] in
   snd run = Raise ValueError /\
   exists coords_ref,
     fst run = [identity_2d; canonical_embedding "coronal"; coords_ref] /\
     shape coords_ref = (4, 6) /\
     nth 0 (rows coords_ref) [] = repeat (Z2Qc 7) 6).
Proof.
  cbv zeta. repeat split; try (repeat constructor); try discriminate.
  - eexists. vm_compute. reflexivity.
  - eexists. vm_compute. reflexivity.
  - eexists. split; [vm_compute; reflexivity|].
    split; [reflexivity|].
    cbn [rows nth repeat]. repeat f_equal; apply Qc_is_canon; reflexivity.
Qed.

(** C6, amended.  The function has no validation step: an argument is
    refused, if at all, by the first statement that cannot use it.  For a
    known axis: an integer [downsample_ref = 0] raises ZeroDivisionError
    at line 82, before any array is created; a float [downsample_ref]
    raises TypeError at [np.ones], line 85, before any array is created
    (ZeroDivisionError at line 82 if it is [0.0]); a negative integer
    [downsample_ref] raises ValueError at [np.indices], line 87, when
    [coords_ref] exists already; with [1 <= downsample_ref], an
    [affine_3d] whose number of columns is not 4 raises ValueError at the
    first matrix product, line 90, when [coords_ref], the index array and
    [coords_temp] exist; and, next to a 3 x 4 [affine_3d], an [affine_2d]
    whose number of columns is not 3 raises ValueError at the second
    product, line 92, when the first product exists as well.  In each of
    these cases no field is returned.  The number of rows is not checked:
    with three and four columns, matrices of two or more rows each are
    accepted and a field is returned (given a [downsample_img] from 0 to
    1023). *)
Theorem failures_without_validation (h0 : heap) (slice_coordinate : Qc)
  (affine_2d affine_3d : loc) (A2 A3 : ndarray) (axis : string)
  (downsample_ref downsample_img : Z) :
  known_axis axis ->
  nth_error h0 affine_2d = Some A2 -> nth_error h0 affine_3d = Some A3 ->
  let run := get_parallel_transform slice_coordinate affine_2d affine_3d axis
               downsample_ref downsample_img h0 in
  let coords_ref := spec_coords_ref slice_coordinate axis downsample_ref in
  let indices :=
    scaled_indices (fst (spec_grid_shape axis downsample_ref))
                   (snd (spec_grid_shape axis downsample_ref))
                   downsample_ref in
  let n_pixels := fst (spec_grid_shape axis downsample_ref)
                  * snd (spec_grid_shape axis downsample_ref) in
  (downsample_ref = 0%Z -> run = (h0, Raise ZeroDivisionError)) /\
  (forall d : Qc,
      get_parallel_transform_float_ref slice_coordinate affine_2d affine_3d
        axis d downsample_img h0 =
      (h0, Raise (if Qeq_bool d 0 then ZeroDivisionError else TypeError))) /\
  ((downsample_ref < 0)%Z ->
   exists scaled_ref, run = (h0 ++ [scaled_ref], Raise ValueError)) /\
  ((1 <= downsample_ref)%Z -> ncols A3 <> 4 ->
   run = (h0 ++ [coords_ref; indices; ones 3 n_pixels], Raise ValueError)) /\
  ((1 <= downsample_ref)%Z -> shape A3 = (3, 4) -> ncols A2 <> 3 ->
   exists coords_temp,
     run = (h0 ++ [coords_ref; indices; coords_temp;
                   matmul_value A3 coords_ref],
            Raise ValueError)) /\
  ((1 <= downsample_ref)%Z -> (0 <= downsample_img <= 1023)%Z ->
   wf_array A2 -> ncols A2 = 3 -> 2 <= nrows A2 ->
   wf_array A3 -> ncols A3 = 4 -> 2 <= nrows A3 ->
   exists df, snd run = Ok df).
Proof.
  intros Hax H2 H3 run coords_ref indices n_pixels.
  subst run coords_ref indices n_pixels.
  split; [|split; [|split; [|split; [|split]]]].
  - intros ->. now apply transform_zero_downsample_ref.
  - intros d. now apply transform_float_downsample_ref.
  - intros Hd.
    apply (@transform_negative_downsample_ref h0 slice_coordinate
             affine_2d affine_3d axis downsample_ref downsample_img Hax Hd).
  - intros Hd C3. eapply transform_bad_affine_3d; eassumption.
  - intros Hd S3 C2. eexists.
    eapply transform_bad_affine_2d; eassumption.
  - intros Hd Hdi W2 C2 R2 W3 C3 R3. eexists.
    apply (@transform_run_rows h0 slice_coordinate affine_2d affine_3d A2 A3);
      (assumption || lia).
Qed.

Lemma failures_without_validation_witness :
  let B2 := mk_array (2, 2) [ [1; 0]; [0; 1] ]%Qc in
  let B3 := mk_array (3, 3) [ [1; 0; 0]; [0; 1; 0]; [0; 0; 1] ]%Qc in
  let C3 := canonical_embedding "coronal" in
  let D3 := mk_array (4, 4)
              [ [0; 1; 0; 0]; [0; 0; 1; 0]; [0; 0; 0; 0]; [0; 0; 0; 1] ]%Qc in
  let h0 := [B2; C3; B3; D3] in
  let coords_ref := spec_coords_ref (Z2Qc 7) "coronal" 4000 in
  let indices := scaled_indices 2 2 4000 in
  get_parallel_transform (Z2Qc 7) 0 1 "coronal" 0 0 h0
    = (h0, Raise ZeroDivisionError) /\
  get_parallel_transform_float_ref (Z2Qc 7) 0 1 "coronal"
    (Z2Qc 5 / Z2Qc 2)%Qc 0 h0 = (h0, Raise TypeError) /\
  (exists scaled_ref,
      get_parallel_transform (Z2Qc 7) 0 1 "coronal" (-4000) 0 h0
      = (h0 ++ [scaled_ref], Raise ValueError)) /\
  get_parallel_transform (Z2Qc 7) 0 2 "coronal" 4000 0 h0
    = (h0 ++ [coords_ref; indices; ones 3 4], Raise ValueError) /\
  (exists coords_temp,
      get_parallel_transform (Z2Qc 7) 0 1 "coronal" 4000 0 h0
      = (h0 ++ [coords_ref; indices; coords_temp;
                matmul_value C3 coords_ref],
         Raise ValueError)) /\
  (exists df,
      snd (get_parallel_transform (Z2Qc 7) 2 3 "coronal" 4000 0 h0) = Ok df).
Proof.
  intros B2 B3 C3 D3 h0 coords_ref indices.
  assert (Hax : known_axis "coronal") by (left; reflexivity).
  split; [|split; [|split; [|split; [|split]]]].
  - refine (proj1 (@failures_without_validation h0 (Z2Qc 7) 0 1 B2 C3
                     "coronal" 0 0 Hax eq_refl eq_refl) eq_refl).
  - refine (proj1 (proj2 (@failures_without_validation h0 (Z2Qc 7) 0 1 B2
                            C3 "coronal" 4000 0 Hax eq_refl eq_refl))
                  (Z2Qc 5 / Z2Qc 2)%Qc).
  - refine (proj1 (proj2 (proj2 (@failures_without_validation h0 (Z2Qc 7)
                                   0 1 B2 C3 "coronal" (-4000) 0 Hax
                                   eq_refl eq_refl))) _).
    reflexivity.
  - refine (proj1 (proj2 (proj2 (proj2 (@failures_without_validation h0
                                          (Z2Qc 7) 0 2 B2 B3 "coronal" 4000
                                          0 Hax eq_refl eq_refl)))) _ _).
    + lia.
    + discriminate.
  - refine (proj1 (proj2 (proj2 (proj2 (proj2
              (@failures_without_validation h0 (Z2Qc 7) 0 1 B2 C3 "coronal"
                 4000 0 Hax eq_refl eq_refl))))) _ _ _).
    + lia.
    + reflexivity.
    + discriminate.
  - refine (proj2 (proj2 (proj2 (proj2 (proj2
              (@failures_without_validation h0 (Z2Qc 7) 2 3 B3 D3 "coronal"
                 4000 0 Hax eq_refl eq_refl))))) _ _ _ _ _ _ _ _);
      try lia; try reflexivity; try (vm_compute; lia);
      (split; [reflexivity | repeat constructor]).
Defined.

(** C7.  Whatever metadata the bulk collaborator returns, the loop visits
    the images in the order of [metadata_2d]: section numbers never
    increase along it (highest first), it holds every image once, images
    with equal section numbers keep the order they have in the
    dictionary, and the yielded records are, in this order, those of the
    images visited: an initial part of [metadata_2d], all of it when the
    generator finishes without an exception. *)
Theorem download_order (Image : Type)
  (get_2d_bulk : Z -> bool -> M (list (Z * (loc * Z))))
  (get_3d : Z -> bool -> bool -> M loc) (get_axis : Z -> M string)
  (xy_to_pir_API_single : Qc -> Qc -> Z -> M (Qc * Qc * Qc))
  (get_image : Z -> bool -> Z -> M Image)
  (dataset_id downsample_ref : Z) (detection_xy : Qc * Qc)
  (include_expression : bool) (downsample_img : Z)
  (h0 h1 : heap) (items : list (Z * (loc * Z))) :
  get_2d_bulk dataset_id true h0 = (h1, Ok items) ->
  let metadata := map (fun kv => (fst kv, fst (snd kv), snd (snd kv))) items in
  let metadata_2d := sorted (fun x : Z * loc * Z => (- snd x)%Z) metadata in
  let run := download_parallel_dataset get_2d_bulk get_3d get_axis
               xy_to_pir_API_single get_image dataset_id downsample_ref
               detection_xy include_expression downsample_img h0 in
  StronglySorted (fun a b => (snd b <= snd a)%Z) metadata_2d /\
  Permutation metadata_2d metadata /\
  (forall n : Z,
      filter (fun x => (snd x =? n)%Z) metadata_2d =
      filter (fun x => (snd x =? n)%Z) metadata) /\
  exists visited rest,
    metadata_2d = visited ++ rest /\
    map (@tuple_0 Image) (yields run) = map (fun x => fst (fst x)) visited /\
    StronglySorted (fun a b => (snd b <= snd a)%Z) visited /\
    (result run = Ok tt -> rest = []).
Proof.
  intros Hbulk metadata metadata_2d run.
  assert (Hsorted : StronglySorted (fun a b : Z * loc * Z => (snd b <= snd a)%Z)
                      metadata_2d).
  { eapply StronglySorted_impl; [|apply sorted_strongly].
    cbn beta. intros a b H. lia. }
  split; [exact Hsorted|]. split; [|split].
  - apply sorted_perm.
  - intros n. unfold metadata_2d.
    rewrite (filter_ext (fun x : Z * loc * Z => (snd x =? n)%Z)
               (fun x => (- snd x =? - n)%Z)).
    + rewrite sorted_stable. apply filter_ext. intros x.
      destruct (Z.eqb_spec (snd x) n), (Z.eqb_spec (- snd x) (- n));
        try reflexivity; lia.
    + intros x.
      destruct (Z.eqb_spec (snd x) n), (Z.eqb_spec (- snd x) (- n));
        try reflexivity; lia.
  - destruct (download_run get_2d_bulk get_3d get_axis xy_to_pir_API_single
                get_image dataset_id downsample_ref detection_xy
                include_expression downsample_img h0)
      as [[Hys Hres] | (h1' & items' & h2 & a3 & h3 & axis & visited & rest &
                        E1 & E2 & E3 & El & HP & Hres)].
    + exists [], metadata_2d. fold run in Hys, Hres.
      rewrite Hys. repeat split; [constructor|].
      intros H; contradiction.
    + rewrite Hbulk in E1. injection E1 as <- <-.
      exists visited, rest. fold run in HP, Hres.
      split; [exact El|]. split; [|split; [|exact Hres]].
      * eapply Forall2_map_eq; [|exact HP].
        intros m y (Hid & _). exact Hid.
      * apply StronglySorted_app_l with (l' := rest).
        fold metadata in El. fold metadata_2d in El. now rewrite <- El.
Qed.

Lemma download_order_witness :
  let metadata : list (Z * loc * Z) :=
    [ (101%Z, 0, 10%Z); (102%Z, 1, 30%Z); (103%Z, 2, 20%Z) ] in
  let metadata_2d := sorted (fun x : Z * loc * Z => (- snd x)%Z) metadata in
  let run := Demo.download false [] in
  StronglySorted (fun a b => (snd b <= snd a)%Z) metadata_2d /\
  Permutation metadata_2d metadata /\
  (forall n : Z,
      filter (fun x => (snd x =? n)%Z) metadata_2d =
      filter (fun x => (snd x =? n)%Z) metadata) /\
  exists visited rest,
    metadata_2d = visited ++ rest /\
    map (@tuple_0 (Z * bool)) (yields run) =
      map (fun x => fst (fst x)) visited /\
    StronglySorted (fun a b => (snd b <= snd a)%Z) visited /\
    (result run = Ok tt -> rest = []).
Proof.
  apply (@download_order (Z * bool) Demo.get_2d_bulk Demo.get_3d
           Demo.get_axis Demo.xy_to_pir_API_single Demo.get_image
           1 4000 (0%Qc, 0%Qc) false 0 []
           [identity_2d;
            mk_array (2, 3)
              [[Z2Qc 2; 0%Qc; 1%Qc]; [0%Qc; Z2Qc 2; 1%Qc]];
            identity_2d]
           [ (101%Z, (0, 10%Z)); (102%Z, (1, 30%Z)); (103%Z, (2, 20%Z)) ]).
  reflexivity.
Defined.

(** C8.  After the three metadata calls have returned, the records that
    the generator yields are those of a prefix [visited] of the sorted
    metadata, one record per image and in this order, and of all of it when
    the generator ends normally.  Each record results from its own pass
    through the loop, started on the heap that the pass before it left
    (the first on the heap after the metadata calls): it holds the id of
    its image, then the [p] (axis coronal) or the [r] (every other axis)
    that the coordinate query of this pass returned for this image, its
    image and its field, and the expression image as a fifth element when
    [include_expression] is set; so it has five elements then and four
    otherwise.  When the generator ends with an exception, an image is
    left for which a call of the pass raised. *)
Theorem yielded_record_shape (Image : Type)
  (get_2d_bulk : Z -> bool -> M (list (Z * (loc * Z))))
  (get_3d : Z -> bool -> bool -> M loc) (get_axis : Z -> M string)
  (xy_to_pir_API_single : Qc -> Qc -> Z -> M (Qc * Qc * Qc))
  (get_image : Z -> bool -> Z -> M Image)
  (dataset_id downsample_ref : Z) (detection_xy : Qc * Qc)
  (include_expression : bool) (downsample_img : Z)
  (h0 h1 h2 h3 : heap) (items : list (Z * (loc * Z))) (affine_3d : loc)
  (axis : string) :
  get_2d_bulk dataset_id true h0 = (h1, Ok items) ->
  get_3d dataset_id true false h1 = (h2, Ok affine_3d) ->
  get_axis dataset_id h2 = (h3, Ok axis) ->
  let metadata_2d :=
    sorted (fun x : Z * loc * Z => (- snd x)%Z)
           (map (fun kv => (fst kv, fst (snd kv), snd (snd kv))) items) in
  let pass :=
    iteration_yields xy_to_pir_API_single get_image axis affine_3d
      downsample_ref detection_xy include_expression downsample_img in
  let run := download_parallel_dataset get_2d_bulk get_3d get_axis
               xy_to_pir_API_single get_image dataset_id downsample_ref
               detection_xy include_expression downsample_img h0 in
  exists visited rest hv,
    metadata_2d = visited ++ rest /\
    passes pass h3 visited (yields run) hv /\
    Forall2 (fun m y => tuple_0 y = fst (fst m)) visited (yields run) /\
    Forall (fun y => tuple_len y = (if include_expression then 5 else 4))
           (yields run) /\
    match result run with
    | Ok _ => rest = [] /\ fst (fst run) = hv
    | Raise _ =>
        exists m rest', rest = m :: rest' /\ forall y h', ~ pass m hv y h'
    end.
Proof.
  intros E1 E2 E3 metadata_2d pass run. subst run.
  unfold download_parallel_dataset.
  rewrite (@gbind_lift_run _ _ _ _ _ _ _ _ E1). cbv zeta.
  rewrite (@gbind_lift_run _ _ _ _ _ _ _ _ E2).
  rewrite (@gbind_lift_run _ _ _ _ _ _ _ _ E3).
  fold metadata_2d.
  match goal with
  | |- context [for_each metadata_2d ?body h3] =>
      destruct (@for_each_passes _ _ pass body metadata_2d) with (h := h3)
        as (visited & rest & hv & El & HP & Hres)
  end.
  - intros m h. unfold gbind, lift, yield, pass, iteration_yields.
    destruct (xy_to_pir_API_single _ _ _ h) as [ha [pir|e]] eqn:Ex.
    2:{ split; [reflexivity|].
        intros y h' (ha' & pir' & hb & df & hc & img & Ex' & _).
        discriminate. }
    destruct (get_parallel_transform _ _ _ _ _ _ ha) as [hb [df|e]] eqn:Et.
    2:{ split; [reflexivity|].
        intros y h' (ha' & pir' & hb' & df' & hc & img & Ex' & Et' & _).
        injection Ex' as <- <-. cbv zeta in Et'. rewrite Et in Et'.
        discriminate. }
    destruct (get_image _ false _ hb) as [hc [img|e]] eqn:Ei.
    2:{ split; [reflexivity|].
        intros y h' (ha' & pir' & hb' & df' & hc' & img' & Ex' & Et' & Ei'
                     & _).
        injection Ex' as <- <-. cbv zeta in Et'. rewrite Et in Et'.
        injection Et' as <- <-. rewrite Ei in Ei'. discriminate. }
    destruct include_expression; cbn [negb].
    + destruct (get_image _ true _ hc) as [hd [img_e|e]] eqn:Ee.
      * eexists. split; [reflexivity|].
        exists ha, pir, hb, df, hc, img. repeat split; try assumption.
        exists img_e. split; [exact Ee | reflexivity].
      * split; [reflexivity|].
        intros y h' (ha' & pir' & hb' & df' & hc' & img' & Ex' & Et' & Ei'
                     & img_e & Ee' & _).
        injection Ex' as <- <-. cbv zeta in Et'. rewrite Et in Et'.
        injection Et' as <- <-. rewrite Ei in Ei'. injection Ei' as <- <-.
        rewrite Ee in Ee'. discriminate.
    + eexists. split; [reflexivity|].
      exists ha, pir, hb, df, hc, img. repeat split; assumption.
  - exists visited, rest, hv.
    split; [exact El|]. split; [exact HP|].
    assert (Hshape :
      forall m h y h', pass m h y h' ->
        tuple_0 y = fst (fst m) /\
        tuple_len y = (if include_expression then 5 else 4)).
    { intros m h y h' (ha & pir & hb & df & hc & img & _ & _ & _ & Hy).
      destruct include_expression.
      - destruct Hy as (img_e & _ & ->). split; reflexivity.
      - destruct Hy as (_ & ->). split; reflexivity. }
    split; [|split; [|exact Hres]].
    + eapply passes_Forall2; [|exact HP].
      intros m h y h' Hp. now destruct (Hshape m h y h' Hp).
    + eapply Forall2_Forall_r. eapply passes_Forall2; [|exact HP].
      intros m h y h' Hp. now destruct (Hshape m h y h' Hp).
Qed.

Lemma yielded_record_shape_witness :
  let h3 := [identity_2d;
             mk_array (2, 3) [[Z2Qc 2; 0%Qc; 1%Qc]; [0%Qc; Z2Qc 2; 1%Qc]];
             identity_2d; canonical_embedding "coronal"] in
  let pass :=
    iteration_yields Demo.xy_to_pir_API_single Demo.get_image "coronal" 3
      4000 (0%Qc, 0%Qc) true 0 in
  let run := Demo.download true [] in
  exists visited rest hv,
    [ (102%Z, 1, 30%Z); (103%Z, 2, 20%Z); (101%Z, 0, 10%Z) ]
      = visited ++ rest /\
    passes pass h3 visited (yields run) hv /\
    Forall2 (fun m y => tuple_0 y = fst (fst m)) visited (yields run) /\
    Forall (fun y => tuple_len y = 5) (yields run) /\
    match result run with
    | Ok _ => rest = [] /\ fst (fst run) = hv
    | Raise _ =>
        exists m rest', rest = m :: rest' /\ forall y h', ~ pass m hv y h'
    end.
Proof.
  intros h3 pass run.
  exact (@yielded_record_shape (Z * bool)
           Demo.get_2d_bulk Demo.get_3d Demo.get_axis
           Demo.xy_to_pir_API_single Demo.get_image
           1 4000 (0%Qc, 0%Qc) true 0
           [] (firstn 3 h3) h3 h3
           [ (101%Z, (0, 10%Z)); (102%Z, (1, 30%Z)); (103%Z, (2, 20%Z)) ]
           3 "coronal" eq_refl eq_refl eq_refl).
Defined.

(** C9 as stated fails: not every integer [downsample_img] succeeds.  On
    a valid input with a grid of 2 x 2 points, [downsample_img = 1100]
    ends the call with OverflowError: [2 ** 1100] is no float64. *)
Lemma downsample_img_overflow_counterexample :
  let h0 := [identity_2d; canonical_embedding "coronal"] in
  let run := get_parallel_transform (Z2Qc 7) 0 1 "coronal" 4000 1100 h0 in
  wf_array identity_2d /\ shape identity_2d = (2, 3) /\
  wf_array (canonical_embedding "coronal") /\
  shape (canonical_embedding "coronal") = (3, 4) /\
  spec_grid_shape "coronal" 4000 = (2, 2) /\
  snd run = Raise OverflowError /\
  forall df, snd run <> Ok df.
Proof.
  cbv zeta.
  assert (E : snd (get_parallel_transform (Z2Qc 7) 0 1 "coronal" 4000 1100
                     [identity_2d; canonical_embedding "coronal"])
              = Raise OverflowError) by (vm_compute; reflexivity).
  split; [split; [reflexivity | repeat constructor]|].
  split; [reflexivity|].
  split; [split; [reflexivity | repeat constructor]|].
  split; [reflexivity|]. split; [reflexivity|].
  split; [exact E|].
  intros df. rewrite E. discriminate.
Qed.

(** C9, amended.  [downsample_img] is not validated; it is used at lines
    94 and 95 only, when all arrays up to [coords_img] have been
    computed.  On otherwise valid input: for a [downsample_img] from 0 to
    1023 the call returns, and tx and ty are rows 0 and 1 of
    [coords_img], reshaped to the grid and divided by
    [2 ** downsample_img]; from 1024 on (and on a grid that is not empty)
    the call ends with OverflowError at line 94, when [coords_img], the
    fifth array of the call, exists; a negative [downsample_img], down to
    -1074, is accepted without an error, and multiplies every coordinate
    by [2 ** (- downsample_img)], provided that the products are within
    the range of float64. *)
Theorem downsample_img_not_validated (h0 : heap) (slice_coordinate : Qc)
  (affine_2d affine_3d : loc) (A2 A3 : ndarray) (axis : string)
  (downsample_ref downsample_img : Z) :
  nth_error h0 affine_2d = Some A2 -> nth_error h0 affine_3d = Some A3 ->
  wf_array A2 -> shape A2 = (2, 3) -> wf_array A3 -> shape A3 = (3, 4) ->
  known_axis axis -> (1 <= downsample_ref)%Z ->
  let run := get_parallel_transform slice_coordinate affine_2d affine_3d axis
               downsample_ref downsample_img h0 in
  let h := fst (spec_grid_shape axis downsample_ref) in
  let w := snd (spec_grid_shape axis downsample_ref) in
  let coords_img :=
    spec_coords_img slice_coordinate A2 A3 axis downsample_ref in
  let grid (f : Qc -> Qc) (k : nat) :=
    map (map f) (reshape h w (nth k (rows coords_img) [])) in
  ((0 <= downsample_img <= 1023)%Z ->
   exists df,
     snd run = Ok df /\
     nth (length h0 + 4) (fst run) empty_array = coords_img /\
     rows (df_tx df) =
       grid (fun x => (x / Z2Qc (2 ^ downsample_img))%Qc) 0 /\
     rows (df_ty df) =
       grid (fun x => (x / Z2Qc (2 ^ downsample_img))%Qc) 1) /\
  ((1024 <= downsample_img)%Z -> 0 < h * w ->
   snd run = Raise OverflowError /\
   exists created,
     fst run = h0 ++ created /\ length created = 5 /\
     nth 4 created empty_array = coords_img) /\
  ((-1074 <= downsample_img < 0)%Z ->
   Forall (fun x => float64_range (x * Z2Qc (2 ^ (- downsample_img)))%Qc)
          (nth 0 (rows coords_img) [] ++ nth 1 (rows coords_img) []) ->
   exists df,
     snd run = Ok df /\
     rows (df_tx df) =
       grid (fun x => (x * Z2Qc (2 ^ (- downsample_img)))%Qc) 0 /\
     rows (df_ty df) =
       grid (fun x => (x * Z2Qc (2 ^ (- downsample_img)))%Qc) 1).
Proof.
  intros H2 H3 W2 S2 W3 S3 Hax Hd run h w coords_img grid.
  subst run h w coords_img grid.
  split; [|split].
  - intros Hdi.
    rewrite (@get_parallel_transform_run h0 slice_coordinate affine_2d
               affine_3d A2 A3 axis downsample_ref downsample_img)
      by (assumption || lia).
    cbn [fst snd]. eexists. split; [reflexivity|].
    rewrite nth_app_new. cbn [nth]. split; [reflexivity|].
    cbn [spec_transform df_tx df_ty spec_grid rows].
    unfold py_pow2. destruct (Z.leb_spec 0 downsample_img); [|lia].
    split; reflexivity.
  - intros Hdi _.
    rewrite (@transform_overflow h0 slice_coordinate affine_2d affine_3d
               A2 A3 axis downsample_ref downsample_img);
      try assumption;
      try (unfold ncols, nrows; rewrite ?S2, ?S3; cbn [fst snd]; lia).
    cbn [fst snd]. split; [reflexivity|].
    eexists. split; [reflexivity|]. split; [reflexivity|].
    cbn [nth]. rewrite (run_coords_section_spec _ _ _ W3 S3).
    reflexivity.
  - intros Hdi _.
    rewrite (@get_parallel_transform_run h0 slice_coordinate affine_2d
               affine_3d A2 A3 axis downsample_ref downsample_img)
      by (assumption || lia).
    cbn [fst snd]. eexists. split; [reflexivity|].
    cbn [spec_transform df_tx df_ty spec_grid rows].
    split; apply map_ext; intros r; apply map_ext; intros x;
      now apply div_py_pow2_neg.
Qed.

Lemma downsample_img_not_validated_witness :
  let h0 := [identity_2d; canonical_embedding "coronal"] in
  let coords_img :=
    spec_coords_img (Z2Qc 7) identity_2d (canonical_embedding "coronal")
      "coronal" 4000 in
  let grid (f : Qc -> Qc) (k : nat) :=
    map (map f) (reshape 2 2 (nth k (rows coords_img) [])) in
  (exists df,
      snd (get_parallel_transform (Z2Qc 7) 0 1 "coronal" 4000 3 h0) = Ok df /\
      rows (df_tx df) = grid (fun x => (x / Z2Qc (2 ^ 3))%Qc) 0 /\
      rows (df_ty df) = grid (fun x => (x / Z2Qc (2 ^ 3))%Qc) 1) /\
  snd (get_parallel_transform (Z2Qc 7) 0 1 "coronal" 4000 1100 h0)
    = Raise OverflowError /\
  (exists df,
      snd (get_parallel_transform (Z2Qc 7) 0 1 "coronal" 4000 (-3) h0)
        = Ok df /\
      rows (df_tx df) = grid (fun x => (x * Z2Qc (2 ^ 3))%Qc) 0 /\
      rows (df_ty df) = grid (fun x => (x * Z2Qc (2 ^ 3))%Qc) 1).
Proof.
  intros h0 coords_img grid.
  assert (V : forall e,
    let run := get_parallel_transform (Z2Qc 7) 0 1 "coronal" 4000 e h0 in
    let g (f : Qc -> Qc) (k : nat) :=
      map (map f) (reshape 2 2 (nth k (rows coords_img) [])) in
    ((0 <= e <= 1023)%Z ->
     exists df,
       snd run = Ok df /\
       nth (length h0 + 4) (fst run) empty_array = coords_img /\
       rows (df_tx df) = g (fun x => (x / Z2Qc (2 ^ e))%Qc) 0 /\
       rows (df_ty df) = g (fun x => (x / Z2Qc (2 ^ e))%Qc) 1) /\
    ((1024 <= e)%Z -> 0 < 2 * 2 ->
     snd run = Raise OverflowError /\
     exists created,
       fst run = h0 ++ created /\ length created = 5 /\
       nth 4 created empty_array = coords_img) /\
    ((-1074 <= e < 0)%Z ->
     Forall (fun x => float64_range (x * Z2Qc (2 ^ (- e)))%Qc)
            (nth 0 (rows coords_img) [] ++ nth 1 (rows coords_img) []) ->
     exists df,
       snd run = Ok df /\
       rows (df_tx df) = g (fun x => (x * Z2Qc (2 ^ (- e)))%Qc) 0 /\
       rows (df_ty df) = g (fun x => (x * Z2Qc (2 ^ (- e)))%Qc) 1)).
  { intros e.
    apply (@downsample_img_not_validated h0 (Z2Qc 7) 0 1 identity_2d
             (canonical_embedding "coronal") "coronal" 4000 e);
      valid_input. }
  split; [|split].
  - destruct (V 3%Z) as (H & _ & _).
    destruct H as (df & Hrun & _ & Hx & Hy); [lia|].
    exists df. repeat split; assumption.
  - destruct (V 1100%Z) as (_ & H & _).
    destruct H as (Hrun & _); [lia | lia | exact Hrun].
  - destruct (V (-3)%Z) as (_ & _ & H).
    destruct H as (df & Hrun & Hx & Hy); [lia | |].
    + repeat constructor; vm_compute; reflexivity.
    + exists df. repeat split; assumption.
Defined.

(** C10.  A call never changes an array that existed before it: whatever
    the arguments, and whether the call returns or raises, the heap it
    leaves is the heap it found followed by the arrays it created; so the
    arrays of [affine_2d] and [affine_3d] are what they were.  (The slice
    coordinate and the two downsample factors are numbers, passed by
    value.) *)
Theorem arguments_not_mutated (h0 : heap) (slice_coordinate : Qc)
  (affine_2d affine_3d : loc) (axis : string)
  (downsample_ref downsample_img : Z) :
  let run := get_parallel_transform slice_coordinate affine_2d affine_3d axis
               downsample_ref downsample_img h0 in
  (exists created, fst run = h0 ++ created) /\
  (forall A2, nth_error h0 affine_2d = Some A2 ->
              nth_error (fst run) affine_2d = Some A2) /\
  (forall A3, nth_error h0 affine_3d = Some A3 ->
              nth_error (fst run) affine_3d = Some A3).
Proof.
  intros run.
  destruct (preserved_prefix h0
              (@preserves_get_parallel_transform (length h0) slice_coordinate
                 affine_2d affine_3d axis downsample_ref downsample_img))
    as (created & E).
  fold run in E. split; [now exists created|].
  split; intros a Ha; rewrite E; rewrite nth_error_app1; auto;
    apply nth_error_Some; congruence.
Qed.

Lemma arguments_not_mutated_witness :
  let h0 := [identity_2d; canonical_embedding "coronal"] in
  let run := get_parallel_transform (Z2Qc 7) 0 1 "coronal" 4000 0 h0 in
  nth_error (fst run) 0 = Some identity_2d /\
  nth_error (fst run) 1 = Some (canonical_embedding "coronal").
Proof.
  pose proof (@arguments_not_mutated
                [identity_2d; canonical_embedding "coronal"] (Z2Qc 7) 0 1
                "coronal" 4000 0) as (_ & H2 & H3).
  split; [apply H2 | apply H3]; reflexivity.
Defined.

(* ================================================================== *)
(** * Further properties of get_parallel_transform *)

(** X1.  Only the first two rows of each matrix enter the result: two
    calls whose [affine_2d] (three columns, at least two rows) agree in
    their first two rows, and whose [affine_3d] (four columns, at least two
    rows) agree in their first two rows, both return (for a
    [downsample_img] from 0 to 1023), and return the same field.  So the
    third row of a 3 x 4 [affine_3d] is never used, and further rows of
    either matrix are ignored. *)
Theorem rows_beyond_second_unused (h0 h0' : heap) (slice_coordinate : Qc)
  (affine_2d affine_3d affine_2d' affine_3d' : loc)
  (A2 A3 A2' A3' : ndarray) (axis : string)
  (downsample_ref downsample_img : Z) :
  nth_error h0 affine_2d = Some A2 -> nth_error h0 affine_3d = Some A3 ->
  nth_error h0' affine_2d' = Some A2' ->
  nth_error h0' affine_3d' = Some A3' ->
  wf_array A2 -> ncols A2 = 3 -> 2 <= nrows A2 ->
  wf_array A3 -> ncols A3 = 4 -> 2 <= nrows A3 ->
  wf_array A2' -> ncols A2' = 3 -> 2 <= nrows A2' ->
  wf_array A3' -> ncols A3' = 4 -> 2 <= nrows A3' ->
  firstn 2 (rows A2) = firstn 2 (rows A2') ->
  firstn 2 (rows A3) = firstn 2 (rows A3') ->
  known_axis axis -> (1 <= downsample_ref)%Z ->
  (0 <= downsample_img <= 1023)%Z ->
  exists df,
    snd (get_parallel_transform slice_coordinate affine_2d affine_3d axis
           downsample_ref downsample_img h0) = Ok df /\
    snd (get_parallel_transform slice_coordinate affine_2d' affine_3d' axis
           downsample_ref downsample_img h0') = Ok df.
Proof.
  intros H2 H3 H2' H3' W2 C2 R2 W3 C3 R3 W2' C2' R2' W3' C3' R3' E2 E3
         Hax Hd Hdi.
  eexists. split.
  - apply (@transform_run_rows h0 slice_coordinate affine_2d affine_3d A2 A3);
      (assumption || lia).
  - rewrite (@transform_run_rows h0' slice_coordinate affine_2d' affine_3d'
               A2' A3') by (assumption || lia).
    assert (L2 : 2 <= length (rows A2)) by (destruct W2 as [-> _]; exact R2).
    assert (L3 : 2 <= length (rows A3)) by (destruct W3 as [-> _]; exact R3).
    assert (L2' : 2 <= length (rows A2'))
      by (destruct W2' as [-> _]; exact R2').
    assert (L3' : 2 <= length (rows A3'))
      by (destruct W3' as [-> _]; exact R3').
    unfold run_coords_section.
    rewrite (@section_rows_agree A3 A3') by assumption.
    f_equal. f_equal; symmetry; apply run_grid_agree; (assumption || lia).
Qed.

Lemma rows_beyond_second_unused_witness :
  let A3' := mk_array (4, 4)
               [ [0; 1; 0; 0]; [0; 0; 1; 0]; [0; 0; 0; 0]; [0; 0; 0; 1] ]%Qc in
  let A2' := mk_array (3, 3) [ [1; 0; 0]; [0; 1; 0]; [0; 0; 1] ]%Qc in
  exists df,
    snd (get_parallel_transform (Z2Qc 7) 0 1 "coronal" 4000 0
           [identity_2d; canonical_embedding "coronal"]) = Ok df /\
    snd (get_parallel_transform (Z2Qc 7) 1 0 "coronal" 4000 0
           [A3'; A2']) = Ok df.
Proof.
  intros A3' A2'.
  apply (@rows_beyond_second_unused
           [identity_2d; canonical_embedding "coronal"] [A3'; A2'] (Z2Qc 7)
           0 1 1 0 identity_2d (canonical_embedding "coronal") A2' A3'
           "coronal" 4000 0);
    try solve [valid_input]; try (cbn; lia);
    try (split; [reflexivity | repeat constructor]).
Defined.

(** X2.  An [affine_3d] of one row and four columns is not rejected: the
    assignment of line 90 broadcasts its single product row into both
    section rows, so the call returns (for a [downsample_img] from 0 to
    1023) the field of the two-row matrix that holds this row twice. *)
Theorem one_row_affine_3d_broadcast (h0 : heap) (slice_coordinate : Qc)
  (affine_2d affine_3d affine_3d' : loc) (A2 A3 : ndarray) (axis : string)
  (downsample_ref downsample_img : Z) :
  nth_error h0 affine_2d = Some A2 -> nth_error h0 affine_3d = Some A3 ->
  nth_error h0 affine_3d' = Some (row_twice A3) ->
  wf_array A2 -> ncols A2 = 3 -> 2 <= nrows A2 ->
  wf_array A3 -> shape A3 = (1, 4) ->
  known_axis axis -> (1 <= downsample_ref)%Z ->
  (0 <= downsample_img <= 1023)%Z ->
  exists df,
    snd (get_parallel_transform slice_coordinate affine_2d affine_3d axis
           downsample_ref downsample_img h0) = Ok df /\
    snd (get_parallel_transform slice_coordinate affine_2d affine_3d' axis
           downsample_ref downsample_img h0) = Ok df.
Proof.
  intros H2 H3 H3' W2 C2 R2 W3 S3 Hax Hd Hdi.
  assert (C3 : ncols A3 = 4) by (unfold ncols; now rewrite S3).
  assert (R3 : nrows A3 = 1) by (unfold nrows; now rewrite S3).
  assert (L3 : length (rows A3) = 1) by (destruct W3 as [-> _]; exact R3).
  eexists. split.
  - apply (@transform_run_rows h0 slice_coordinate affine_2d affine_3d A2 A3);
      (assumption || lia).
  - rewrite (@transform_run_rows h0 slice_coordinate affine_2d affine_3d'
               A2 (row_twice A3));
      try (assumption || lia).
    + unfold run_coords_section.
      now rewrite section_rows_row_twice.
    + now apply row_twice_wf.
    + unfold row_twice, nrows; cbn [shape fst]. lia.
Qed.

Lemma one_row_affine_3d_broadcast_witness :
  let A3 := mk_array (1, 4) [ [0; 1; 0; 0] ]%Qc in
  exists df,
    snd (get_parallel_transform (Z2Qc 7) 0 1 "coronal" 4000 0
           [identity_2d; A3; row_twice A3]) = Ok df /\
    snd (get_parallel_transform (Z2Qc 7) 0 2 "coronal" 4000 0
           [identity_2d; A3; row_twice A3]) = Ok df.
Proof.
  intros A3.
  apply (@one_row_affine_3d_broadcast [identity_2d; A3; row_twice A3]
           (Z2Qc 7) 0 1 2 identity_2d A3 "coronal" 4000 0);
    try solve [valid_input]; try (cbn; lia).
Defined.



(** X7.  A coarser reference grid samples the full one: on valid input
    (with a [downsample_img] from 0 to 1023) the cell [(i, j)] of the
    field at [downsample_ref = d] is the cell [(i * d, j * d)] of the
    field at [downsample_ref = 1], which lies inside the full grid. *)
Theorem coarse_grid_samples_full_grid (h0 : heap) (slice_coordinate : Qc)
  (affine_2d affine_3d : loc) (A2 A3 : ndarray) (axis : string)
  (downsample_ref downsample_img : Z) :
  nth_error h0 affine_2d = Some A2 -> nth_error h0 affine_3d = Some A3 ->
  wf_array A2 -> shape A2 = (2, 3) -> wf_array A3 -> shape A3 = (3, 4) ->
  known_axis axis -> (1 <= downsample_ref)%Z ->
  (0 <= downsample_img <= 1023)%Z ->
  exists df full,
    snd (get_parallel_transform slice_coordinate affine_2d affine_3d axis
           downsample_ref downsample_img h0) = Ok df /\
    snd (get_parallel_transform slice_coordinate affine_2d affine_3d axis
           1 downsample_img h0) = Ok full /\
    forall i j,
      i < fst (shape (df_tx df)) -> j < snd (shape (df_tx df)) ->
      let i' := i * Z.to_nat downsample_ref in
      let j' := j * Z.to_nat downsample_ref in
      i' < fst (shape (df_tx full)) /\ j' < snd (shape (df_tx full)) /\
      grid_at (df_tx df) i j = grid_at (df_tx full) i' j' /\
      grid_at (df_ty df) i j = grid_at (df_ty full) i' j'.
Proof.
  intros H2 H3 W2 S2 W3 S3 Hax Hd Hdi.
  rewrite !(@get_parallel_transform_run h0 slice_coordinate affine_2d
              affine_3d A2 A3 axis _ downsample_img) by (assumption || lia).
  cbn [snd]. do 2 eexists. split; [reflexivity|]. split; [reflexivity|].
  assert (L2 : length (rows A2) = 2)
    by (destruct W2 as [-> _]; unfold nrows; now rewrite S2).
  intros i j Hi Hj.
  change (i < fst (spec_grid_shape axis downsample_ref)) in Hi.
  change (j < snd (spec_grid_shape axis downsample_ref)) in Hj.
  destruct (coarse_grid_in_range axis Hd Hi Hj) as [Hi' Hj'].
  split; [exact Hi'|]. split; [exact Hj'|].
  cbn [spec_transform df_tx df_ty].
  rewrite !spec_grid_at by (assumption || lia).
  unfold pixel, section_point.
  rewrite (ref_point_coarse axis slice_coordinate i j Hd).
  split; reflexivity.
Qed.

Lemma coarse_grid_samples_full_grid_witness :
  exists df full,
    snd (get_parallel_transform (Z2Qc 7) 0 1 "coronal" 4000 0
           [identity_2d; canonical_embedding "coronal"]) = Ok df /\
    snd (get_parallel_transform (Z2Qc 7) 0 1 "coronal" 1 0
           [identity_2d; canonical_embedding "coronal"]) = Ok full /\
    grid_at (df_tx df) 1 0 = grid_at (df_tx full) 4000 0 /\
    grid_at (df_ty df) 1 0 = grid_at (df_ty full) 4000 0.
Proof.
  destruct (@coarse_grid_samples_full_grid
              [identity_2d; canonical_embedding "coronal"] (Z2Qc 7) 0 1
              identity_2d (canonical_embedding "coronal") "coronal" 4000 0)
    as (df & full & Hrun & Hfull & Hcells); try solve [valid_input].
  exists df, full. split; [assumption|]. split; [assumption|].
  assert (Hi : 1 < fst (shape (df_tx df))).
  { rewrite (@get_parallel_transform_run
               [identity_2d; canonical_embedding "coronal"] (Z2Qc 7) 0 1
               identity_2d (canonical_embedding "coronal") "coronal" 4000 0)
      in Hrun by valid_input.
    injection Hrun as <-. cbn. lia. }
  assert (Hj : 0 < snd (shape (df_tx df))).
  { rewrite (@get_parallel_transform_run
               [identity_2d; canonical_embedding "coronal"] (Z2Qc 7) 0 1
               identity_2d (canonical_embedding "coronal") "coronal" 4000 0)
      in Hrun by valid_input.
    injection Hrun as <-. cbn. lia. }
  destruct (Hcells 1 0 Hi Hj) as (_ & _ & Hx & Hy).
  split; assumption.
Defined.

(** X8.  A [downsample_ref] that exceeds the extent of one of the two
    variable axes is not an error: on otherwise valid input (with a
    [downsample_img] from 0 to 1023) the call returns a field whose grids
    have a dimension of zero and hold no cell. *)
Theorem oversized_downsample_ref_gives_empty_field (h0 : heap)
  (slice_coordinate : Qc) (affine_2d affine_3d : loc) (A2 A3 : ndarray)
  (axis : string) (downsample_ref downsample_img : Z) :
  nth_error h0 affine_2d = Some A2 -> nth_error h0 affine_3d = Some A3 ->
  wf_array A2 -> shape A2 = (2, 3) -> wf_array A3 -> shape A3 = (3, 4) ->
  known_axis axis ->
  (native_extent (fst (variable_axes axis)) < downsample_ref)%Z \/
  (native_extent (snd (variable_axes axis)) < downsample_ref)%Z ->
  (0 <= downsample_img <= 1023)%Z ->
  exists df,
    snd (get_parallel_transform slice_coordinate affine_2d affine_3d axis
           downsample_ref downsample_img h0) = Ok df /\
    fst (shape (df_tx df)) * snd (shape (df_tx df)) = 0 /\
    shape (df_ty df) = shape (df_tx df) /\
    concat (rows (df_tx df)) = [] /\ concat (rows (df_ty df)) = [].
Proof.
  intros H2 H3 W2 S2 W3 S3 Hax Hbig Hdi.
  assert (Hd : (1 <= downsample_ref)%Z).
  { unfold native_extent in Hbig.
    repeat match type of Hbig with
           | context [if ?b then _ else _] => destruct b
           end; lia. }
  assert (Hn : fst (spec_grid_shape axis downsample_ref)
               * snd (spec_grid_shape axis downsample_ref) = 0).
  { unfold spec_grid_shape; cbn [fst snd].
    assert (E1 : (0 <= native_extent (fst (variable_axes axis)))%Z)
      by (unfold native_extent;
          repeat match goal with
                 | |- context [if ?b then _ else _] => destruct b
                 end; lia).
    assert (E2 : (0 <= native_extent (snd (variable_axes axis)))%Z)
      by (unfold native_extent;
          repeat match goal with
                 | |- context [if ?b then _ else _] => destruct b
                 end; lia).
    destruct Hbig as [Hb | Hb].
    - rewrite (Z.div_small _ _ (conj E1 Hb)). reflexivity.
    - rewrite (Z.div_small _ _ (conj E2 Hb)). cbn [Z.to_nat]. lia. }
  rewrite (@get_parallel_transform_run h0 slice_coordinate affine_2d
             affine_3d A2 A3 axis downsample_ref downsample_img)
    by (assumption || lia).
  cbn [snd]. eexists. split; [reflexivity|].
  cbn [spec_transform df_tx df_ty spec_grid shape fst snd].
  split; [exact Hn|]. split; [reflexivity|].
  split; apply (@run_grid_no_cell _ _ _ _ _ Hn).
Qed.

Lemma oversized_downsample_ref_gives_empty_field_witness :
  exists df,
    snd (get_parallel_transform (Z2Qc 7) 0 1 "coronal" 9000 0
           [identity_2d; canonical_embedding "coronal"]) = Ok df /\
    fst (shape (df_tx df)) * snd (shape (df_tx df)) = 0 /\
    shape (df_ty df) = shape (df_tx df) /\
    concat (rows (df_tx df)) = [] /\ concat (rows (df_ty df)) = [].
Proof.
  apply (@oversized_downsample_ref_gives_empty_field
           [identity_2d; canonical_embedding "coronal"] (Z2Qc 7) 0 1
           identity_2d (canonical_embedding "coronal") "coronal" 9000 0);
    try solve [valid_input].
  left. cbn. lia.
Defined.

(* ================================================================== *)
(** * Further properties of download_parallel_dataset *)

(** X9.  The arguments that [get_parallel_transform] rejects are looked at
    for the first image only.  After the three metadata calls have
    returned: on an empty dataset the generator ends normally without a
    yield, whatever [axis] and [downsample_ref] are; otherwise, once the
    coordinate query for the image of the highest section number has
    returned, an unknown axis ends the generator with IndexError and, for
    a known axis, [downsample_ref = 0] ends it with ZeroDivisionError,
    before anything is yielded and before any image is downloaded (the
    heap is the one the coordinate query left). *)
Theorem argument_errors_wait_for_first_image (Image : Type)
  (get_2d_bulk : Z -> bool -> M (list (Z * (loc * Z))))
  (get_3d : Z -> bool -> bool -> M loc) (get_axis : Z -> M string)
  (xy_to_pir_API_single : Qc -> Qc -> Z -> M (Qc * Qc * Qc))
  (get_image : Z -> bool -> Z -> M Image)
  (dataset_id downsample_ref : Z) (detection_xy : Qc * Qc)
  (include_expression : bool) (downsample_img : Z)
  (h0 h1 h2 h3 : heap) (items : list (Z * (loc * Z))) (affine_3d : loc)
  (axis : string) :
  get_2d_bulk dataset_id true h0 = (h1, Ok items) ->
  get_3d dataset_id true false h1 = (h2, Ok affine_3d) ->
  get_axis dataset_id h2 = (h3, Ok axis) ->
  let run := download_parallel_dataset get_2d_bulk get_3d get_axis
               xy_to_pir_API_single get_image dataset_id downsample_ref
               detection_xy include_expression downsample_img h0 in
  (items = [] -> run = (h3, [], Ok tt)) /\
  (forall m rest h4 pir,
      sorted (fun x : Z * loc * Z => (- snd x)%Z)
             (map (fun kv => (fst kv, fst (snd kv), snd (snd kv))) items)
        = m :: rest ->
      xy_to_pir_API_single (fst detection_xy) (snd detection_xy)
        (fst (fst m)) h3 = (h4, Ok pir) ->
      (~ known_axis axis -> run = (h4, [], Raise IndexError)) /\
      (known_axis axis -> downsample_ref = 0%Z ->
       run = (h4, [], Raise ZeroDivisionError))).
Proof.
  intros E1 E2 E3 run.
  split; [intros -> | intros m rest h4 pir Es Ex; split;
                      [intros Hax | intros Hax ->]];
    subst run; unfold download_parallel_dataset;
    unfold gbind at 1, lift at 1; rewrite E1; cbv zeta;
    unfold gbind at 1, lift at 1; rewrite E2;
    unfold gbind at 1, lift at 1; rewrite E3.
  - reflexivity.
  - rewrite Es. cbn [for_each].
    unfold gbind at 1. unfold gbind at 1, lift at 1. rewrite Ex.
    unfold gbind at 1, lift at 1.
    rewrite transform_unknown_axis by exact Hax. reflexivity.
  - rewrite Es. cbn [for_each].
    unfold gbind at 1. unfold gbind at 1, lift at 1. rewrite Ex.
    unfold gbind at 1, lift at 1.
    rewrite transform_zero_downsample_ref by exact Hax. reflexivity.
Qed.

Lemma argument_errors_wait_for_first_image_witness :
  let unknown : Z -> M string := fun _ => ret "axial"%string in
  let nothing : Z -> bool -> M (list (Z * (loc * Z))) := fun _ _ => ret [] in
  let h3 := [identity_2d;
             mk_array (2, 3) [[Z2Qc 2; 0%Qc; 1%Qc]; [0%Qc; Z2Qc 2; 1%Qc]];
             identity_2d; canonical_embedding "coronal"] in
  download_parallel_dataset nothing Demo.get_3d unknown
    Demo.xy_to_pir_API_single Demo.get_image 1 0 (0%Qc, 0%Qc) false 0 []
    = ([canonical_embedding "coronal"], [], Ok tt) /\
  download_parallel_dataset Demo.get_2d_bulk Demo.get_3d unknown
    Demo.xy_to_pir_API_single Demo.get_image 1 4000 (0%Qc, 0%Qc) false 0 []
    = (h3, [], Raise IndexError) /\
  download_parallel_dataset Demo.get_2d_bulk Demo.get_3d Demo.get_axis
    Demo.xy_to_pir_API_single Demo.get_image 1 0 (0%Qc, 0%Qc) false 0 []
    = (h3, [], Raise ZeroDivisionError).
Proof.
  intros unknown nothing h3. split; [|split].
  - refine (proj1 (@argument_errors_wait_for_first_image (Z * bool) nothing
                     Demo.get_3d unknown Demo.xy_to_pir_API_single
                     Demo.get_image 1 0 (0%Qc, 0%Qc) false 0
                     [] [] [canonical_embedding "coronal"]
                     [canonical_embedding "coronal"] [] 0 "axial"
                     eq_refl eq_refl eq_refl) eq_refl).
  - refine (proj1 (proj2 (@argument_errors_wait_for_first_image (Z * bool)
                     Demo.get_2d_bulk Demo.get_3d unknown
                     Demo.xy_to_pir_API_single Demo.get_image 1 4000
                     (0%Qc, 0%Qc) false 0
                     [] (firstn 3 h3) h3 h3 _ 3 "axial"
                     eq_refl eq_refl eq_refl)
                   (102%Z, 1, 30%Z) [(103%Z, 2, 20%Z); (101%Z, 0, 10%Z)]
                   h3 (Z2Qc 102, 0%Qc, Z2Qc 7) eq_refl eq_refl) _).
    unfold known_axis. intros [H | [H | H]]; discriminate.
  - refine (proj2 (proj2 (@argument_errors_wait_for_first_image (Z * bool)
                     Demo.get_2d_bulk Demo.get_3d Demo.get_axis
                     Demo.xy_to_pir_API_single Demo.get_image 1 0
                     (0%Qc, 0%Qc) false 0
                     [] (firstn 3 h3) h3 h3 _ 3 "coronal"
                     eq_refl eq_refl eq_refl)
                   (102%Z, 1, 30%Z) [(103%Z, 2, 20%Z); (101%Z, 0, 10%Z)]
                   h3 (Z2Qc 102, 0%Qc, Z2Qc 7) eq_refl eq_refl) _ eq_refl).
    unfold known_axis. tauto.
Defined.

(** X10.  The generator consults its two per-image collaborators only for
    the images of the dataset, at the given [detection_xy] and
    [downsample_img], and asks for an expression image only when
    [include_expression] is set: replacing [xy_to_pir_API_single] and
    [get_image] by collaborators that behave the same on these requests
    does not change the run. *)
Theorem collaborators_consulted_for_dataset_only (Image : Type)
  (get_2d_bulk : Z -> bool -> M (list (Z * (loc * Z))))
  (get_3d : Z -> bool -> bool -> M loc) (get_axis : Z -> M string)
  (xy_to_pir_API_single xy_to_pir_API_single' :
     Qc -> Qc -> Z -> M (Qc * Qc * Qc))
  (get_image get_image' : Z -> bool -> Z -> M Image)
  (dataset_id downsample_ref : Z) (detection_xy : Qc * Qc)
  (include_expression : bool) (downsample_img : Z)
  (h0 h1 : heap) (items : list (Z * (loc * Z))) :
  get_2d_bulk dataset_id true h0 = (h1, Ok items) ->
  (forall image_id h,
      In image_id (map fst items) ->
      xy_to_pir_API_single (fst detection_xy) (snd detection_xy) image_id h =
      xy_to_pir_API_single' (fst detection_xy) (snd detection_xy) image_id h) ->
  (forall image_id expression h,
      In image_id (map fst items) ->
      (expression = true -> include_expression = true) ->
      get_image image_id expression downsample_img h =
      get_image' image_id expression downsample_img h) ->
  download_parallel_dataset get_2d_bulk get_3d get_axis
    xy_to_pir_API_single get_image dataset_id downsample_ref
    detection_xy include_expression downsample_img h0 =
  download_parallel_dataset get_2d_bulk get_3d get_axis
    xy_to_pir_API_single' get_image' dataset_id downsample_ref
    detection_xy include_expression downsample_img h0.
Proof.
  intros E1 Hxy Himg.
  unfold download_parallel_dataset.
  apply gbind_ext_run. intros h1' ys items' Eg.
  unfold lift in Eg. rewrite E1 in Eg. injection Eg as <- <- <-.
  cbv zeta.
  apply gbind_ext_run. intros h2 ys2 a3 _.
  apply gbind_ext_run. intros h3 ys3 axis _.
  apply for_each_ext_in.
  intros m h Hm.
  assert (Hid : In (fst (fst m)) (map fst items)).
  { apply (Permutation_in _ (sorted_perm _ _)) in Hm.
    apply in_map_iff in Hm as (kv & <- & Hkv). cbn [fst].
    now apply in_map. }
  unfold gbind, lift.
  rewrite (Hxy _ h Hid).
  destruct (xy_to_pir_API_single' _ _ _ h) as [ha [pir|e]]; [|reflexivity].
  destruct (get_parallel_transform _ _ _ _ _ _ ha) as [hb [df|e]];
    [|reflexivity].
  rewrite (Himg _ false hb Hid) by discriminate.
  destruct (get_image' _ false _ hb) as [hc [img|e]]; [|reflexivity].
  destruct include_expression; cbn [negb]; [|reflexivity].
  rewrite (Himg _ true hc Hid) by reflexivity.
  reflexivity.
Qed.

Lemma collaborators_consulted_for_dataset_only_witness :
  let xy' : Qc -> Qc -> Z -> M (Qc * Qc * Qc) :=
    fun x y image_id =>
      if (image_id <? 200)%Z then Demo.xy_to_pir_API_single x y image_id
      else raise IndexError in
  let get_image' : Z -> bool -> Z -> M (Z * bool) :=
    fun image_id expression downsample =>
      if expression then raise ValueError
      else Demo.get_image image_id expression downsample in
  download_parallel_dataset Demo.get_2d_bulk Demo.get_3d Demo.get_axis
    Demo.xy_to_pir_API_single Demo.get_image 1 4000 (0%Qc, 0%Qc) false 0 [] =
  download_parallel_dataset Demo.get_2d_bulk Demo.get_3d Demo.get_axis
    xy' get_image' 1 4000 (0%Qc, 0%Qc) false 0 [].
Proof.
  intros xy' get_image'.
  apply (@collaborators_consulted_for_dataset_only (Z * bool)
           Demo.get_2d_bulk Demo.get_3d Demo.get_axis
           Demo.xy_to_pir_API_single xy' Demo.get_image get_image'
           1 4000 (0%Qc, 0%Qc) false 0 []
           [identity_2d;
            mk_array (2, 3) [[Z2Qc 2; 0%Qc; 1%Qc]; [0%Qc; Z2Qc 2; 1%Qc]];
            identity_2d]
           [ (101%Z, (0, 10%Z)); (102%Z, (1, 30%Z)); (103%Z, (2, 20%Z)) ]).
  - reflexivity.
  - intros image_id h [<- | [<- | [<- | []]]]; reflexivity.
  - intros image_id expression h _ He.
    destruct expression; [specialize (He eq_refl); discriminate|].
    reflexivity.
Defined.

(** X11.  When the section numbers of a dataset are pairwise distinct, the
    order in which [get_2d_bulk] lists the images does not matter: two
    bulk collaborators that return the same entries in different orders
    give the same run (the same records in the same order, the same
    outcome). *)
Theorem dictionary_order_irrelevant (Image : Type)
  (get_2d_bulk get_2d_bulk' : Z -> bool -> M (list (Z * (loc * Z))))
  (get_3d : Z -> bool -> bool -> M loc) (get_axis : Z -> M string)
  (xy_to_pir_API_single : Qc -> Qc -> Z -> M (Qc * Qc * Qc))
  (get_image : Z -> bool -> Z -> M Image)
  (dataset_id downsample_ref : Z) (detection_xy : Qc * Qc)
  (include_expression : bool) (downsample_img : Z)
  (h0 h1 : heap) (items items' : list (Z * (loc * Z))) :
  get_2d_bulk dataset_id true h0 = (h1, Ok items) ->
  get_2d_bulk' dataset_id true h0 = (h1, Ok items') ->
  Permutation items items' ->
  NoDup (map (fun kv => snd (snd kv)) items) ->
  download_parallel_dataset get_2d_bulk get_3d get_axis
    xy_to_pir_API_single get_image dataset_id downsample_ref
    detection_xy include_expression downsample_img h0 =
  download_parallel_dataset get_2d_bulk' get_3d get_axis
    xy_to_pir_API_single get_image dataset_id downsample_ref
    detection_xy include_expression downsample_img h0.
Proof.
  intros E1 E1' Hp Hnd.
  unfold download_parallel_dataset.
  rewrite (@gbind_lift_run _ _ _ _ _ _ _ _ E1).
  rewrite (@gbind_lift_run _ _ _ _ _ _ _ _ E1'). cbv zeta.
  rewrite (@sorted_of_permutation _ (fun x : Z * loc * Z => (- snd x)%Z)
             (map (fun kv => (fst kv, fst (snd kv), snd (snd kv))) items)
             (map (fun kv => (fst kv, fst (snd kv), snd (snd kv))) items')).
  - reflexivity.
  - now apply Permutation_map.
  - rewrite map_map. cbn [snd].
    rewrite <- (map_map (fun kv : Z * (loc * Z) => snd (snd kv)) Z.opp).
    apply Finite.Injective_map_NoDup; [|exact Hnd].
    intros a b Hab. lia.
Qed.

Lemma dictionary_order_irrelevant_witness :
  let get_2d_bulk' : Z -> bool -> M (list (Z * (loc * Z))) :=
    fun _ _ =>
      a <- alloc identity_2d ;;
      b <- alloc (mk_array (2, 3)
                    [[Z2Qc 2; 0%Qc; 1%Qc]; [0%Qc; Z2Qc 2; 1%Qc]]) ;;
      c <- alloc identity_2d ;;
      ret [ (103%Z, (c, 20%Z)); (101%Z, (a, 10%Z)); (102%Z, (b, 30%Z)) ] in
  download_parallel_dataset Demo.get_2d_bulk Demo.get_3d Demo.get_axis
    Demo.xy_to_pir_API_single Demo.get_image 1 4000 (0%Qc, 0%Qc) true 0 [] =
  download_parallel_dataset get_2d_bulk' Demo.get_3d Demo.get_axis
    Demo.xy_to_pir_API_single Demo.get_image 1 4000 (0%Qc, 0%Qc) true 0 [].
Proof.
  intros get_2d_bulk'.
  apply (@dictionary_order_irrelevant (Z * bool)
           Demo.get_2d_bulk get_2d_bulk' Demo.get_3d Demo.get_axis
           Demo.xy_to_pir_API_single Demo.get_image
           1 4000 (0%Qc, 0%Qc) true 0 []
           [identity_2d;
            mk_array (2, 3) [[Z2Qc 2; 0%Qc; 1%Qc]; [0%Qc; Z2Qc 2; 1%Qc]];
            identity_2d]
           [ (101%Z, (0, 10%Z)); (102%Z, (1, 30%Z)); (103%Z, (2, 20%Z)) ]
           [ (103%Z, (2, 20%Z)); (101%Z, (0, 10%Z)); (102%Z, (1, 30%Z)) ]).
  - reflexivity.
  - reflexivity.
  - apply Permutation_sym, (Permutation_cons_app [_; _] []). reflexivity.
  - cbn [map snd]. repeat constructor; cbn [In]; intros H;
      repeat (destruct H as [H | H]; [discriminate|]); exact H.
Defined.

(** X12.  The whole download of a valid dataset.  Let the three metadata
    calls return, the axis be known, [1 <= downsample_ref],
    [downsample_img] be from 0 to 1023, [affine_3d] be a 3 x 4 array and
    every image's [affine_2d] a 2 x 3 array, and let the coordinate query
    and the image downloads for the images of the dataset return and
    leave the arrays alone that existed after the metadata calls.  Then
    the generator ends normally and yields exactly one record per image,
    highest section number first, each from its own pass through the
    loop; the record of an image holds its id and, as its field, what the
    algorithm of [get_parallel_transform] gives for the slice coordinate
    of the record and this image's own [affine_2d]. *)
Theorem download_of_valid_dataset (Image : Type)
  (get_2d_bulk : Z -> bool -> M (list (Z * (loc * Z))))
  (get_3d : Z -> bool -> bool -> M loc) (get_axis : Z -> M string)
  (xy_to_pir_API_single : Qc -> Qc -> Z -> M (Qc * Qc * Qc))
  (get_image : Z -> bool -> Z -> M Image)
  (dataset_id downsample_ref : Z) (detection_xy : Qc * Qc)
  (include_expression : bool) (downsample_img : Z)
  (h0 h1 h2 h3 : heap) (items : list (Z * (loc * Z))) (affine_3d : loc)
  (A3 : ndarray) (axis : string) :
  get_2d_bulk dataset_id true h0 = (h1, Ok items) ->
  get_3d dataset_id true false h1 = (h2, Ok affine_3d) ->
  get_axis dataset_id h2 = (h3, Ok axis) ->
  known_axis axis -> (1 <= downsample_ref)%Z ->
  (0 <= downsample_img <= 1023)%Z ->
  nth_error h3 affine_3d = Some A3 -> wf_array A3 -> shape A3 = (3, 4) ->
  Forall (fun kv : Z * (loc * Z) =>
            exists A2, nth_error h3 (fst (snd kv)) = Some A2 /\
                       wf_array A2 /\ shape A2 = (2, 3)) items ->
  (forall image_id,
      In image_id (map fst items) ->
      preserves (length h3)
        (xy_to_pir_API_single (fst detection_xy) (snd detection_xy) image_id)
        (fun _ => True) /\
      forall h, exists h' pir,
        xy_to_pir_API_single (fst detection_xy) (snd detection_xy) image_id h
        = (h', Ok pir)) ->
  (forall image_id expression,
      In image_id (map fst items) ->
      preserves (length h3) (get_image image_id expression downsample_img)
        (fun _ => True) /\
      forall h, exists h' img,
        get_image image_id expression downsample_img h = (h', Ok img)) ->
  let metadata_2d :=
    sorted (fun x : Z * loc * Z => (- snd x)%Z)
           (map (fun kv => (fst kv, fst (snd kv), snd (snd kv))) items) in
  let pass :=
    iteration_yields xy_to_pir_API_single get_image axis affine_3d
      downsample_ref detection_xy include_expression downsample_img in
  let run := download_parallel_dataset get_2d_bulk get_3d get_axis
               xy_to_pir_API_single get_image dataset_id downsample_ref
               detection_xy include_expression downsample_img h0 in
  result run = Ok tt /\
  passes pass h3 metadata_2d (yields run) (fst (fst run)) /\
  Forall2 (fun m y =>
             tuple_0 y = fst (fst m) /\
             tuple_3 y =
               spec_transform (tuple_1 y) (nth (snd (fst m)) h3 empty_array)
                 A3 axis downsample_ref downsample_img)
          metadata_2d (yields run).
Proof.
  intros E1 E2 E3 Hax Hd Hdi H3 W3 S3 HA2 Hxy Himg metadata_2d pass run.
  subst run. unfold download_parallel_dataset.
  rewrite (@gbind_lift_run _ _ _ _ _ _ _ _ E1). cbv zeta.
  rewrite (@gbind_lift_run _ _ _ _ _ _ _ _ E2).
  rewrite (@gbind_lift_run _ _ _ _ _ _ _ _ E3).
  fold metadata_2d.
  match goal with
  | |- context [for_each metadata_2d ?body h3] =>
      destruct (@for_each_all_pass _ _ pass
                  (fun m y =>
                     tuple_0 y = fst (fst m) /\
                     tuple_3 y =
                       spec_transform (tuple_1 y)
                         (nth (snd (fst m)) h3 empty_array) A3 axis
                         downsample_ref downsample_img)
                  (fun h => firstn (length h3) h = h3) body metadata_2d)
        with (h := h3) as (hv & ys & Erun & HP & HF)
  end.
  - intros m h Hm Ih.
    apply (Permutation_in _ (sorted_perm _ _)) in Hm.
    apply in_map_iff in Hm as (kv & <- & Hkv).
    rewrite Forall_forall in HA2.
    destruct (HA2 kv Hkv) as (A2 & H2 & W2 & S2).
    assert (Hid : In (fst kv) (map fst items)) by now apply in_map.
    cbn [fst snd].
    destruct (Hxy _ Hid) as [Pxy Rxy].
    destruct (Rxy h) as (ha & pir & Ex).
    destruct (Pxy h (@prefix_length _ _ _ Ih)) as (Fa & _ & _).
    rewrite Ex in Fa. cbn [fst] in Fa. rewrite Ih in Fa.
    rewrite (@gbind_lift_run _ _ _ _ _ _ _ _ Ex).
    set (s := if String.eqb axis "coronal" then fst (fst pir) else snd pir).
    assert (Et := @get_parallel_transform_run ha s (fst (snd kv)) affine_3d
                    A2 A3 axis downsample_ref downsample_img
                    (@nth_error_prefix _ _ _ _ _ _ Fa H2)
                    (@nth_error_prefix _ _ _ _ _ _ Fa H3) W2 S2 W3 S3 Hax Hd
                    ltac:(lia)).
    rewrite (@gbind_lift_run _ _ _ _ _ _ _ _ Et).
    match type of Et with
    | _ = (?created, _) => set (hb := created) in *
    end.
    assert (Fb : firstn (length h3) hb = h3) by now apply prefix_app.
    destruct (Himg (fst kv) false Hid) as [Pi Ri].
    destruct (Ri hb) as (hc & img & Ei).
    destruct (Pi hb (@prefix_length _ _ _ Fb)) as (Fc & _ & _).
    rewrite Ei in Fc. cbn [fst] in Fc. rewrite Fb in Fc.
    rewrite (@gbind_lift_run _ _ _ _ _ _ _ _ Ei).
    unfold pass, iteration_yields. cbn [fst snd].
    destruct include_expression eqn:Einc; cbn [negb].
    + destruct (Himg (fst kv) true Hid) as [Pe Re].
      destruct (Re hc) as (hd & img_e & Ee).
      destruct (Pe hc (@prefix_length _ _ _ Fc)) as (Fd & _ & _).
      rewrite Ee in Fd. cbn [fst] in Fd. rewrite Fc in Fd.
      rewrite (@gbind_lift_run _ _ _ _ _ _ _ _ Ee).
      eexists _, _. split; [reflexivity|]. split.
      { exists ha, pir, hb, (spec_transform s A2 A3 axis downsample_ref
                               downsample_img), hc, img.
        split; [exact Ex|]. cbv zeta. fold s.
        split; [exact Et|]. split; [exact Ei|].
        exists img_e. split; [exact Ee | reflexivity]. }
      split; [|exact Fd]. split; [reflexivity|].
      cbn [tuple_3 tuple_1 fst snd].
      now rewrite (nth_error_nth _ _ empty_array H2).
    + eexists _, _. split; [reflexivity|]. split.
      { exists ha, pir, hb, (spec_transform s A2 A3 axis downsample_ref
                               downsample_img), hc, img.
        split; [exact Ex|]. cbv zeta. fold s.
        split; [exact Et|]. split; [exact Ei|].
        split; reflexivity. }
      split; [|exact Fc]. split; [reflexivity|].
      cbn [tuple_3 tuple_1 fst snd].
      now rewrite (nth_error_nth _ _ empty_array H2).
  - apply firstn_all.
  - rewrite Erun. unfold result, yields. cbn [fst snd].
    split; [reflexivity|]. split; assumption.
Qed.

Lemma download_of_valid_dataset_witness :
  let h3 := [identity_2d;
             mk_array (2, 3) [[Z2Qc 2; 0%Qc; 1%Qc]; [0%Qc; Z2Qc 2; 1%Qc]];
             identity_2d; canonical_embedding "coronal"] in
  let pass :=
    iteration_yields Demo.xy_to_pir_API_single Demo.get_image "coronal" 3
      4000 (0%Qc, 0%Qc) true 0 in
  let run := Demo.download true [] in
  result run = Ok tt /\
  passes pass h3 [ (102%Z, 1, 30%Z); (103%Z, 2, 20%Z); (101%Z, 0, 10%Z) ]
    (yields run) (fst (fst run)) /\
  Forall2 (fun m y =>
             tuple_0 y = fst (fst m) /\
             tuple_3 y =
               spec_transform (tuple_1 y) (nth (snd (fst m)) h3 empty_array)
                 (canonical_embedding "coronal") "coronal" 4000 0)
          [ (102%Z, 1, 30%Z); (103%Z, 2, 20%Z); (101%Z, 0, 10%Z) ]
          (yields run).
Proof.
  intros h3 pass run.
  apply (@download_of_valid_dataset (Z * bool)
           Demo.get_2d_bulk Demo.get_3d Demo.get_axis
           Demo.xy_to_pir_API_single Demo.get_image
           1 4000 (0%Qc, 0%Qc) true 0
           [] (firstn 3 h3) h3 h3
           [ (101%Z, (0, 10%Z)); (102%Z, (1, 30%Z)); (103%Z, (2, 20%Z)) ]
           3 (canonical_embedding "coronal") "coronal").
  - reflexivity.
  - reflexivity.
  - reflexivity.
  - left; reflexivity.
  - lia.
  - lia.
  - reflexivity.
  - split; [reflexivity | repeat constructor].
  - reflexivity.
  - repeat constructor; cbn [fst snd nth_error];
      eexists; (split; [reflexivity|]); split;
      try reflexivity; split; try reflexivity; repeat constructor.
  - intros image_id _. split.
    + now apply preserves_ret.
    + intros h. eexists _, _. reflexivity.
  - intros image_id expression _. split.
    + now apply preserves_ret.
    + intros h. eexists _, _. reflexivity.
Defined.

(** X13.  A download leaves existing arrays alone: if none of the five
    collaborators changes an array that existed before the generator was
    started, then the whole run does not either, whether it ends normally
    or with an exception; the final heap is the initial heap followed by
    the arrays created on the way. *)
Theorem download_keeps_existing_arrays (Image : Type)
  (get_2d_bulk : Z -> bool -> M (list (Z * (loc * Z))))
  (get_3d : Z -> bool -> bool -> M loc) (get_axis : Z -> M string)
  (xy_to_pir_API_single : Qc -> Qc -> Z -> M (Qc * Qc * Qc))
  (get_image : Z -> bool -> Z -> M Image)
  (dataset_id downsample_ref : Z) (detection_xy : Qc * Qc)
  (include_expression : bool) (downsample_img : Z) (h0 : heap) :
  (forall d b, preserves (length h0) (get_2d_bulk d b) (fun _ => True)) ->
  (forall d b c, preserves (length h0) (get_3d d b c) (fun _ => True)) ->
  (forall d, preserves (length h0) (get_axis d) (fun _ => True)) ->
  (forall x y i,
      preserves (length h0) (xy_to_pir_API_single x y i) (fun _ => True)) ->
  (forall i e d, preserves (length h0) (get_image i e d) (fun _ => True)) ->
  let run := download_parallel_dataset get_2d_bulk get_3d get_axis
               xy_to_pir_API_single get_image dataset_id downsample_ref
               detection_xy include_expression downsample_img h0 in
  (exists created, fst (fst run) = h0 ++ created) /\
  (forall l A, nth_error h0 l = Some A ->
               nth_error (fst (fst run)) l = Some A).
Proof.
  intros P1 P2 P3 P4 P5 run.
  assert (Hg : gen_preserves (length h0)
                 (download_parallel_dataset get_2d_bulk get_3d get_axis
                    xy_to_pir_API_single get_image dataset_id downsample_ref
                    detection_xy include_expression downsample_img)).
  { unfold download_parallel_dataset.
    apply gen_preserves_gbind; [eapply gen_preserves_lift; apply P1|].
    intros items. cbv zeta.
    apply gen_preserves_gbind; [eapply gen_preserves_lift; apply P2|].
    intros a3.
    apply gen_preserves_gbind; [eapply gen_preserves_lift; apply P3|].
    intros axis.
    apply gen_preserves_for_each. intros m.
    apply gen_preserves_gbind; [eapply gen_preserves_lift; apply P4|].
    intros pir.
    apply gen_preserves_gbind;
      [eapply gen_preserves_lift; apply preserves_get_parallel_transform|].
    intros df.
    apply gen_preserves_gbind; [eapply gen_preserves_lift; apply P5|].
    intros img.
    destruct include_expression; cbn [negb].
    - apply gen_preserves_gbind; [eapply gen_preserves_lift; apply P5|].
      intros img_e. apply gen_preserves_yield.
    - apply gen_preserves_yield. }
  destruct (Hg h0 (le_n _)) as [Hf _]. fold run in Hf.
  rewrite firstn_all in Hf.
  assert (Hrun : fst (fst run) = h0 ++ skipn (length h0) (fst (fst run))).
  { rewrite <- (firstn_skipn (length h0) (fst (fst run))) at 1.
    now rewrite Hf. }
  split; [eexists; exact Hrun|].
  intros l A Hl. rewrite Hrun.
  rewrite nth_error_app1; [exact Hl|].
  apply nth_error_Some; congruence.
Qed.

Lemma download_keeps_existing_arrays_witness :
  let run := Demo.download true [canonical_embedding "sagittal"] in
  (exists created,
      fst (fst run) = [canonical_embedding "sagittal"] ++ created) /\
  (forall l A, nth_error [canonical_embedding "sagittal"] l = Some A ->
               nth_error (fst (fst run)) l = Some A).
Proof.
  apply (@download_keeps_existing_arrays (Z * bool)
           Demo.get_2d_bulk Demo.get_3d Demo.get_axis
           Demo.xy_to_pir_API_single Demo.get_image
           1 4000 (0%Qc, 0%Qc) true 0 [canonical_embedding "sagittal"]).
  - intros d b. unfold Demo.get_2d_bulk.
    eapply preserves_bind; [apply preserves_alloc | intros a _].
    eapply preserves_bind; [apply preserves_alloc | intros b' _].
    eapply preserves_bind; [apply preserves_alloc | intros c _].
    now apply preserves_ret.
  - intros d b c. unfold Demo.get_3d.
    eapply preserves_weaken; [apply preserves_alloc | auto].
  - intros d. now apply preserves_ret.
  - intros x y i. now apply preserves_ret.
  - intros i e d. now apply preserves_ret.
Defined.
